(** * PyOP2 GPU tiling: the tiling configuration, the analytic cost model,
      the candidate search, the tuning loop and the tiled transformation

    A shallow embedding of [pyop2/gpu/tile.py].

    Conventions of the embedding.
    - Python [int] is [Z]; [//] and [%] on ints are [Z.div] and [Z.modulo]
      (both floor towards minus infinity, the remainder has the sign of the
      divisor, as in Python).
    - Python [float] values are exact rationals [Q], extended with
      [float("inf")] where the source produces it ([pyfloat]).  Rounding of
      binary64 arithmetic is not modelled: [a / b] is the exact quotient,
      [ceil] and [floor] are the exact integer ceiling and floor.
    - A Python exception is a value [Raise e] of the type [result]; code
      that can raise lives in the error monad ([x <- e ;; k]).
    - Device state (CUDA allocations, copies, launches) is an explicit
      record threaded through the tuning loop. *)

From Stdlib Require Import ZArith QArith Qround Floats Lia Lqa.
From Stdlib Require Import String Bool List.
From Stdlib Require Import Sorting.Sorted Sorting.Permutation.
Import ListNotations.

Open Scope string_scope.
Open Scope list_scope.
Open Scope Z_scope.

(** ** Python values, exceptions and operators *)

Module Py.

Inductive exn : Type :=
| ZeroDivisionError
| ValueError
| IndexError
| KeyError
| AssertionError
| RuntimeError
| NameError (name : string)
| NotImplementedError (msg : string)
| LibraryError (msg : string).

Inductive result (A : Type) : Type :=
| Ok (a : A)
| Raise (e : exn).

Arguments Ok {A} a.
Arguments Raise {A} e.

Definition bind {A B : Type} (m : result A) (k : A -> result B) : result B :=
  match m with
  | Ok a => k a
  | Raise e => Raise e
  end.

Definition is_ok {A : Type} (m : result A) : bool :=
  match m with Ok _ => true | Raise _ => false end.

(** [float]: a finite value or [float("inf")]. *)
Inductive pyfloat : Type :=
| Fin (q : Q)
| PInf.

(** [x < y] on floats. *)
Definition flt_ltb (x y : pyfloat) : bool :=
  match x, y with
  | Fin a, Fin b => if Qlt_le_dec a b then true else false
  | Fin _, PInf => true
  | PInf, _ => false
  end.

(** [x <= y] on floats, as a proposition. *)
Definition flt_le (x y : pyfloat) : Prop :=
  match x, y with
  | Fin a, Fin b => (a <= b)%Q
  | _, PInf => True
  | PInf, Fin _ => False
  end.

(** [a / b] (true division); raises on a zero divisor. *)
Definition truediv (a b : Q) : result Q :=
  if Qeq_bool b 0 then Raise ZeroDivisionError else Ok (a / b)%Q.

(** [a // b] on ints. *)
Definition floordiv (a b : Z) : result Z :=
  if b =? 0 then Raise ZeroDivisionError else Ok (a / b).

(** [a % b] on ints. *)
Definition mod_ (a b : Z) : result Z :=
  if b =? 0 then Raise ZeroDivisionError else Ok (a mod b).

(** [a // b] where one operand is a float: the floor of the quotient,
    as a float. *)
Definition floordiv_float (a b : Q) : result Q :=
  if Qeq_bool b 0 then Raise ZeroDivisionError
  else Ok (inject_Z (Qfloor (a / b)))%Q.

(** [math.ceil] and [math.floor] of a finite float. *)
Definition ceil (x : Q) : Z := Qceiling x.
Definition floor (x : Q) : Z := Qfloor x.

(** [ceil(sqrt(n))] for an int [n]: [math.sqrt] raises on a negative
    argument; otherwise the least integer whose square reaches [n]. *)
Definition ceil_sqrt (n : Z) : result Z :=
  if n <? 0 then Raise ValueError else Ok (Z.sqrt_up n).

(** [range(lo, hi)]. *)
Definition range (lo hi : Z) : list Z :=
  map (fun i => lo + Z.of_nat i) (seq 0 (Z.to_nat (hi - lo))).

End Py.
Import Py.

Notation "x <- m ;; k" := (Py.bind m (fun x => k))
  (at level 61, m at next level, right associativity).
Notation "' pat <- m ;; k" :=
  (Py.bind m (fun x => match x with pat => k end))
  (at level 61, pat pattern, m at next level, right associativity).

Definition ZQ (z : Z) : Q := inject_Z z.

(** ** TilingConfiguration *)

(** The record built by [ImmutableRecord.__init__] from the keyword
    arguments that [TilingConfiguration.__init__] forwards. *)
Record TilingConfiguration : Type := mkTilingConfiguration {
  ncells_per_block : Z;
  nthreads_per_cell : Z;
  matvec1_row_tile_length : Z;
  matvec1_col_tile_length : Z;
  matvec2_row_tile_length : Z;
  matvec2_col_tile_length : Z;
  load_coordinates_to_shared : bool;
  load_input_to_shared : bool;
  load_mats_to_shared : bool;
  load_quad_weights_to_shared : bool;
  tiled_prefetch_of_inputs : bool;
  tiled_prefetch_of_quad_weights : bool
}.

(** [TilingConfiguration.__init__]: the twelve positional arguments are
    passed on, renamed, to the base class, which stores them. *)
Definition TilingConfiguration__init__
    (ncells_per_block nthreads_per_cell t1_r t1_c t2_r t2_c : Z)
    (load_coordinates_to_shared load_input_to_shared load_mats_to_shared
     load_quad_weights_to_shared tiled_prefetch_of_inputs
     tiled_prefetch_of_quad_weights : bool) : result TilingConfiguration :=
  Ok {| ncells_per_block := ncells_per_block;
        nthreads_per_cell := nthreads_per_cell;
        matvec1_row_tile_length := t1_r;
        matvec1_col_tile_length := t1_c;
        matvec2_row_tile_length := t2_r;
        matvec2_col_tile_length := t2_c;
        load_coordinates_to_shared := load_coordinates_to_shared;
        load_input_to_shared := load_input_to_shared;
        load_mats_to_shared := load_mats_to_shared;
        load_quad_weights_to_shared := load_quad_weights_to_shared;
        tiled_prefetch_of_inputs := tiled_prefetch_of_inputs;
        tiled_prefetch_of_quad_weights := tiled_prefetch_of_quad_weights |}.

(** The six staging flags of a configuration, in declaration order. *)
Definition staging_flags (c : TilingConfiguration) : list bool :=
  [ load_coordinates_to_shared c; load_input_to_shared c;
    load_mats_to_shared c; load_quad_weights_to_shared c;
    tiled_prefetch_of_inputs c; tiled_prefetch_of_quad_weights c ].

(** The four tile lengths [(t1_r, t1_c, t2_r, t2_c)]. *)
Definition tile_of (c : TilingConfiguration) : Z * Z * Z * Z :=
  (matvec1_row_tile_length c, matvec1_col_tile_length c,
   matvec2_row_tile_length c, matvec2_col_tile_length c).

(** The validity the specification asks of a configuration: the six
    integer fields are positive. *)
Definition all_dimensions_positive (c : TilingConfiguration) : Prop :=
  0 < ncells_per_block c /\ 0 < nthreads_per_cell c /\
  0 < matvec1_row_tile_length c /\ 0 < matvec1_col_tile_length c /\
  0 < matvec2_row_tile_length c /\ 0 < matvec2_col_tile_length c.

(** ** AutoTiler: the cost model *)

Definition WARP_SIZE : Z := 32.

(** The tuner object.  [nbasis], [nquad], [num_const_matrices] and
    [num_func_eval_vars] are the values of the cached properties of the
    same names, which loopy reads off [fem_program]. *)
Record AutoTiler (Program : Type) : Type := mkAutoTiler {
  fem_program : Program;
  num_candidate_knls : Z;
  nbasis : Z;
  nquad : Z;
  num_const_matrices : Z;
  num_func_eval_vars : Z
}.

Arguments mkAutoTiler {Program}.
Arguments fem_program {Program}.
Arguments num_candidate_knls {Program}.
Arguments nbasis {Program}.
Arguments nquad {Program}.
Arguments num_const_matrices {Program}.
Arguments num_func_eval_vars {Program}.

Definition Tile : Type := (Z * Z * Z * Z)%type.

(** [ceil(a/b)] for ints [a], [b]. *)
Definition ceil_div (a b : Z) : result Z :=
  q <- truediv (ZQ a) (ZQ b) ;; Ok (ceil q).

(** [ceil(a/b)] as the specification reads it: the least integer [k]
    with [a <= k * b], for a positive [b]. *)
Definition ceiling_quotient (a b : Z) : Z := (a + b - 1) / b.

Section CostModel.

Context {Program : Type}.
Implicit Type self : AutoTiler Program.

(** [AutoTiler.get_local_barriers]. *)
Definition get_local_barriers self (t1_r t1_c t2_r t2_c : Z)
  : result Z :=
  a <- ceil_div (nquad self) t1_r ;;
  b <- ceil_div (nbasis self) t1_c ;;
  c <- ceil_div (nbasis self) t2_r ;;
  d <- ceil_div (nquad self) t2_c ;;
  Ok (a * b + c * d).

(** [localBarriers] as the specification writes it. *)
Definition localBarriers self (T : Tile) : Z :=
  let '(t1_r, t1_c, t2_r, t2_c) := T in
  ceiling_quotient (nquad self) t1_r * ceiling_quotient (nbasis self) t1_c
  + ceiling_quotient (nbasis self) t2_r * ceiling_quotient (nquad self) t2_c.

(** The barrier count of the second tile is defined and no larger than
    that of the first. *)
Definition no_more_barriers self (T T' : Tile) : Prop :=
  exists n n',
    (let '(t1_r, t1_c, t2_r, t2_c) := T in
     get_local_barriers self t1_r t1_c t2_r t2_c) = Ok n /\
    (let '(t1_r, t1_c, t2_r, t2_c) := T' in
     get_local_barriers self t1_r t1_c t2_r t2_c) = Ok n' /\
    n' <= n.

(** [min(x, 32)] and [max(a, b)] as Python evaluates them: the first
    argument is kept unless a later one is strictly smaller (larger). *)
Definition pymin (x y : Q) : Q := if Qlt_le_dec y x then y else x.
Definition pymax (a b : Z) : Z := if a <? b then b else a.

(** [AutoTiler.theoretical_warps_per_sm]. *)
Definition theoretical_warps_per_sm self
    (tiling_config : TilingConfiguration) : result Q :=
  let cells_per_block := ncells_per_block tiling_config in
  let threads_per_cell := nthreads_per_cell tiling_config in
  let t1_r := matvec1_row_tile_length tiling_config in
  let t1_c := matvec1_col_tile_length tiling_config in
  let t2_r := matvec2_row_tile_length tiling_config in
  let t2_c := matvec2_col_tile_length tiling_config in
  let shared_usage_doubles :=
    num_const_matrices self * pymax (t1_r * t1_c) (t2_r * t2_c)
    + nquad self
    + num_func_eval_vars self * nquad self * cells_per_block in
  (* convert doubles to KB: shared_usage *= 8e-3 *)
  let shared_usage := (ZQ shared_usage_doubles * (8 # 1000))%Q in
  w <- truediv (ZQ (threads_per_cell * cells_per_block)) 32 ;;
  let warps_per_block := floor w in
  b <- (if Qlt_le_dec shared_usage 48
        then floordiv_float 96 shared_usage else Ok 0%Q) ;;
  let blocks_per_sm := pymin b 32 in
  Ok (blocks_per_sm * ZQ warps_per_block)%Q.

(** The local [wasted_work] of [get_work_efficiency], after both
    statements that assign it. *)
Definition wasted_work self (threads_per_cell t1_r t2_r : Z)
  : result Z :=
  a1 <- mod_ t1_r threads_per_cell ;;
  a2 <- floordiv (nquad self) t1_r ;;
  a3 <- mod_ (nquad self) t1_r ;;
  a4 <- mod_ a3 threads_per_cell ;;
  let wasted_work := nbasis self * (a1 * a2 + a4) in
  b1 <- mod_ t2_r threads_per_cell ;;
  b2 <- floordiv (nbasis self) t2_r ;;
  b3 <- mod_ (nbasis self) t2_r ;;
  b4 <- mod_ b3 threads_per_cell ;;
  Ok (wasted_work + nquad self * (b1 * b2 + b4)).

(** The local [warp_mismatch_factor] of [get_work_efficiency]. *)
Definition warp_mismatch_factor (threads_in_block : Z) : result Q :=
  r <- mod_ threads_in_block WARP_SIZE ;;
  truediv (ZQ threads_in_block)
          (ZQ (threads_in_block + (WARP_SIZE - r))).

(** [AutoTiler.get_work_efficiency]. *)
Definition get_work_efficiency self
    (tiling_config : TilingConfiguration) : result Q :=
  let cells_per_block := ncells_per_block tiling_config in
  let threads_per_cell := nthreads_per_cell tiling_config in
  let t1_r := matvec1_row_tile_length tiling_config in
  let t2_r := matvec2_row_tile_length tiling_config in
  ww <- wasted_work self threads_per_cell t1_r t2_r ;;
  wasted_work_fraction <-
    truediv (ZQ ww) (ZQ (2 * nquad self * nbasis self)) ;;
  let threads_in_block := threads_per_cell * cells_per_block in
  wmf <- warp_mismatch_factor threads_in_block ;;
  Ok (wmf * (1 - wasted_work_fraction))%Q.

(** [AutoTiler.actual_warps_per_sm]. *)
Definition actual_warps_per_sm self
    (tiling_config : TilingConfiguration) : result Q :=
  t <- theoretical_warps_per_sm self tiling_config ;;
  e <- get_work_efficiency self tiling_config ;;
  Ok (t * e)%Q.

(** [AutoTiler.estimated_exec_time] (memoisation leaves the value
    unchanged and is not modelled). *)
Definition estimated_exec_time self
    (tiling_config : TilingConfiguration) : result pyfloat :=
  let n_c := ncells_per_block tiling_config in
  let n_t := nthreads_per_cell tiling_config in
  let t1_r := matvec1_row_tile_length tiling_config in
  let t1_c := matvec1_col_tile_length tiling_config in
  let t2_r := matvec2_row_tile_length tiling_config in
  let t2_c := matvec2_col_tile_length tiling_config in
  n_w <- actual_warps_per_sm self tiling_config ;;
  if Qeq_bool n_w 0 then Ok PInf
  else
    n_lb <- get_local_barriers self t1_r t1_c t2_r t2_c ;;
    n_blocks <- truediv (n_w * 32)%Q (ZQ (n_t * n_c)) ;;
    t <- truediv (ZQ n_lb) n_blocks ;;
    Ok (Fin t).

(** ** AutoTiler: the candidate search *)

(** A [for] loop over a list whose body can raise, threading the
    loop-carried value. *)
Fixpoint for_each {A S : Type} (l : list A) (body : A -> S -> result S)
    (s : S) : result S :=
  match l with
  | [] => Ok s
  | x :: l' => s' <- body x s ;; for_each l' body s'
  end.

(** [[f(x) for x in l]] where [f] can raise. *)
Fixpoint map_result {A B : Type} (f : A -> result B) (l : list A)
  : result (list B) :=
  match l with
  | [] => Ok []
  | x :: l' => y <- f x ;; ys <- map_result f l' ;; Ok (y :: ys)
  end.

(** Stable insertion into a list sorted by key: the new element goes in
    front of the first element whose key is not strictly smaller. *)
Fixpoint insert_by {K A : Type} (ltb : K -> K -> bool) (x : K * A)
    (l : list (K * A)) : list (K * A) :=
  match l with
  | [] => [x]
  | y :: l' => if ltb (fst y) (fst x) then y :: insert_by ltb x l'
               else x :: y :: l'
  end.

Fixpoint sort_keyed {K A : Type} (ltb : K -> K -> bool)
    (l : list (K * A)) : list (K * A) :=
  match l with
  | [] => []
  | x :: l' => insert_by ltb x (sort_keyed ltb l')
  end.

(** [l.sort(key=key)]: the keys are computed first, one per element and
    in order; the list is then stably sorted on them with [<]. *)
Definition list_sort {K A : Type} (ltb : K -> K -> bool)
    (key : A -> result K) (l : list A) : result (list A) :=
  ks <- map_result key l ;;
  Ok (map snd (sort_keyed ltb (combine ks l))).

(** [l[:n]]. *)
Definition slice_to {A : Type} (n : Z) (l : list A) : list A :=
  if n <? 0 then firstn (Z.to_nat (Z.of_nat (length l) + n)) l
  else firstn (Z.to_nat n) l.

(** The dict [threads_to_cells], in insertion (and so iteration) order. *)
Definition threads_to_cells : list (Z * list Z) :=
  [ (9, [7]); (8, [4; 8; 16]); (7, [9]); (4, [8; 16]); (3, [21]);
    (2, [16; 32; 64]); (1, [32; 64]) ].

(** [TilingConfiguration(cells, threads, *tile, False, False, True, True,
    False, False)]. *)
Definition candidate_config (cells threads : Z) (tile : Tile)
  : result TilingConfiguration :=
  let '(t1_r, t1_c, t2_r, t2_c) := tile in
  TilingConfiguration__init__ cells threads t1_r t1_c t2_r t2_c
    false false true true false false.

(** The staging flags every candidate of the search is built with. *)
Definition search_flags : list bool :=
  [false; false; true; true; false; false].

(** The filter of the tile enumeration:
    [abs(t1_r*t1_c-t2_r*t2_c)/max(t1_r*t1_c, t2_c*t2_r) < 0.2]. *)
Definition footprints_close (t1_r t1_c t2_r t2_c : Z) : result bool :=
  r <- truediv (ZQ (Z.abs (t1_r * t1_c - t2_r * t2_c)))
               (ZQ (pymax (t1_r * t1_c) (t2_c * t2_r))) ;;
  Ok (if Qlt_le_dec r (2 # 10) then true else false).

(** A tile the enumeration can produce: four positive lengths, cut
    from positive extents. *)
Definition tile_ok self (T : Tile) : Prop :=
  let '(t1_r, t1_c, t2_r, t2_c) := T in
  0 < t1_r /\ 0 < t1_c /\ 0 < t2_r /\ 0 < t2_c /\
  0 < nquad self /\ 0 < nbasis self.

(** A configuration the cost model is defined on. *)
Definition config_ok self (c : TilingConfiguration) : Prop :=
  all_dimensions_positive c /\ 0 < nquad self /\ 0 < nbasis self.

(** The four nested loops that fill [tiles]. *)
Definition enumerate_tiles self : result (list Tile) :=
  sb <- ceil_sqrt (nbasis self) ;;
  for_each (range 1 (sb + 1)) (fun i tiles =>
    t1_c <- ceil_div (nbasis self) i ;;
    sq <- ceil_sqrt (nquad self) ;;
    for_each (range 1 (sq + 1)) (fun j tiles =>
      t1_r <- ceil_div (nquad self) j ;;
      sb' <- ceil_sqrt (nbasis self) ;;
      for_each (range 1 (sb' + 1)) (fun k tiles =>
        t2_r <- ceil_div (nbasis self) k ;;
        sq' <- ceil_sqrt (nquad self) ;;
        for_each (range 1 (sq' + 1)) (fun l tiles =>
          t2_c <- ceil_div (nquad self) l ;;
          close <- footprints_close t1_r t1_c t2_r t2_c ;;
          Ok (if close then tiles ++ [(t1_r, t1_c, t2_r, t2_c)]
              else tiles)) tiles) tiles) tiles) [].

(** The innermost loop of the parameter search: the choice of
    [best_cells] for one tile and one thread count. *)
Definition choose_best_cells self (tile : Tile) (threads : Z)
    (cells_options : list Z) : result Z :=
  for_each cells_options (fun cells best_cells =>
    c1 <- candidate_config cells threads tile ;;
    e1 <- estimated_exec_time self c1 ;;
    c2 <- candidate_config best_cells threads tile ;;
    e2 <- estimated_exec_time self c2 ;;
    Ok (if flt_ltb e1 e2 then cells else best_cells)) 10000.

(** The two outer loops that fill [params]. *)
Definition enumerate_params self (tiles : list Tile)
  : result (list TilingConfiguration) :=
  for_each tiles (fun tile params =>
    for_each threads_to_cells (fun '(threads, cells_options) params =>
      best_cells <- choose_best_cells self tile threads cells_options ;;
      if best_cells =? 10000 then Ok params
      else c <- candidate_config best_cells threads tile ;;
           Ok (params ++ [c])) params) [].

(** [AutoTiler.get_candiate_configs]. *)
Definition get_candiate_configs self
  : result (list TilingConfiguration) :=
  tiles <- enumerate_tiles self ;;
  (* sort by least sync-ed config first *)
  tiles <- list_sort Z.ltb
             (fun T => let '(t1_r, t1_c, t2_r, t2_c) := T in
                       get_local_barriers self t1_r t1_c t2_r t2_c)
             tiles ;;
  params <- enumerate_params self tiles ;;
  params <- list_sort flt_ltb (estimated_exec_time self) params ;;
  Ok (slice_to (num_candidate_knls self) params).

End CostModel.

(** A tuner for a kernel with three basis functions and six quadrature
    points. *)
Definition tiler_3_6 : AutoTiler unit :=
  {| fem_program := tt; num_candidate_knls := 5; nbasis := 3; nquad := 6;
     num_const_matrices := 1; num_func_eval_vars := 1 |}.

(** Nine threads per cell, seven cells per block, one tile per matvec. *)
Definition config_9_7 : TilingConfiguration :=
  mkTilingConfiguration 7 9 6 3 3 6 false false true true false false.

(** Three threads per cell on 21 cells; one thread on one cell; two
    threads per cell on 64 cells. *)
Definition config_3_21 : TilingConfiguration :=
  mkTilingConfiguration 21 3 6 3 3 6 false false true true false false.

Definition config_1_1 : TilingConfiguration :=
  mkTilingConfiguration 1 1 6 3 3 6 false false true true false false.

Definition config_2_64 : TilingConfiguration :=
  mkTilingConfiguration 64 2 6 3 3 6 false false true true false false.

(** ** The loop-kernel data that the transformation reads directly *)

Inductive AddressSpace : Type := PRIVATE | LOCAL | GLOBAL.

Definition AddressSpace_eqb (a b : AddressSpace) : bool :=
  match a, b with
  | PRIVATE, PRIVATE | LOCAL, LOCAL | GLOBAL, GLOBAL => true
  | _, _ => false
  end.

Record DType : Type := mkDType { dtype_name : string; itemsize : Z }.

Record Instruction : Type := mkInstruction {
  insn_id : string;
  insn_tags : list string;
  insn_is_noop : bool;               (* isinstance(insn, lp.NoOpInstruction) *)
  insn_assignee_name : string;       (* insn.assignee.name *)
  read_dependency_names : list string;
  write_dependency_names : list string
}.

Record TemporaryVariable : Type := mkTemporaryVariable {
  tv_name : string;
  tv_dtype : DType;
  tv_shape : list Z;
  tv_layout : string;      (* dim_tags, offset, dim_names, order, alignment *)
  tv_address_space : AddressSpace;
  tv_read_only : bool;
  tv_initializer : option (list Q)   (* entries in flattened order *)
}.

Record ArrayArg : Type := mkArrayArg {
  arg_name : string;
  arg_dtype : DType;
  arg_shape : list Z;
  arg_layout : string;
  arg_address_space : AddressSpace;
  arg_is_output_only : bool
}.

(** [_make_tv_array_arg]. *)
Definition _make_tv_array_arg (tv : TemporaryVariable) : result ArrayArg :=
  if AddressSpace_eqb (tv_address_space tv) PRIVATE then Raise AssertionError
  else Ok {| arg_name := tv_name tv;
             arg_dtype := tv_dtype tv;
             arg_shape := tv_shape tv;
             arg_layout := tv_layout tv;
             arg_address_space := tv_address_space tv;
             arg_is_output_only := negb (tv_read_only tv) |}.


(** [KernelMetadata], with the field types its constructor asserts. *)
Record KernelMetadata : Type := mkKernelMetadata {
  quad_iname : string;
  inputDoFs : list string;
  coords : string;
  outputDoF : string;
  outputDoF_init_iname : string;
  quad_iname_in_quad_stage : string;
  quad_iname_in_basis_stage : string;
  doF_inames_in_quad_stage : list string;
  doF_iname_in_basis_stage : string;
  scatter_iname : string;
  md_nquad : Z;
  n_inputDoFs : list Z;
  n_outputDoF : Z
}.

(** Sets of names, as lists without repetition. *)
Definition name_in (x : string) (l : list string) : bool :=
  existsb (String.eqb x) l.

Definition set_of (l : list string) : list string :=
  nodup string_dec l.

Definition set_union_all (ls : list (list string)) : list string :=
  set_of (concat ls).

Definition set_inter (a b : list string) : list string :=
  filter (fun x => name_in x b) a.

Definition has_tag (t : string) (insn : Instruction) : bool :=
  name_in t (insn_tags insn).

(** The names a function leaves free are looked up in the globals of
    the module when they are read; a name the module does not bind
    raises [NameError].  The globals are split by the type the name is
    used at. *)
Record Globals : Type := mkGlobals {
  str_globals : string -> option string;
  int_globals : string -> option Z
}.

Definition global_str (g : Globals) (name : string) : result string :=
  match str_globals g name with
  | Some v => Ok v
  | None => Raise (NameError name)
  end.

Definition global_int (g : Globals) (name : string) : result Z :=
  match int_globals g name with
  | Some v => Ok v
  | None => Raise (NameError name)
  end.

(** The module binds [lp], [np], [cuda], [ceil], [sqrt], [floor], its
    imports, its own classes and functions and [WARP_SIZE]: none of the
    names that [tiled_transform] reads without assigning. *)
Definition module_globals : Globals :=
  {| str_globals := fun _ => None; int_globals := fun _ => None |}.

(** ** tiled_transform *)

(** Arguments of a loopy call. *)
Inductive pyarg (CallablesTable : Type) : Type :=
| Str (s : string)
| Int (z : Z)
| Bool (b : bool)
| Names (l : list string)
| Space (a : AddressSpace)
| PyNone
| Callables (c : CallablesTable)
| Kw (name : string) (v : pyarg CallablesTable).

Arguments Str {CallablesTable} s.
Arguments Int {CallablesTable} z.
Arguments Bool {CallablesTable} b.
Arguments Names {CallablesTable} l.
Arguments Space {CallablesTable} a.
Arguments PyNone {CallablesTable}.
Arguments Callables {CallablesTable} c.
Arguments Kw {CallablesTable} name v.

(** A loopy program: the arguments of its root kernel, the root kernel
    and the callables table. *)
Record Program (LoopKernel CallablesTable : Type) : Type := mkProgram {
  prog_name : string;
  prog_args : list ArrayArg;
  root_kernel : LoopKernel;
  callables_table : CallablesTable
}.

Arguments mkProgram {LoopKernel CallablesTable}.
Arguments prog_name {LoopKernel CallablesTable}.
Arguments prog_args {LoopKernel CallablesTable}.
Arguments root_kernel {LoopKernel CallablesTable}.
Arguments callables_table {LoopKernel CallablesTable}.

Definition DevicePtr : Type := nat.

(** An entry of the argument tuple of a launch: the two ints of the
    launch range, or a device allocation. *)
Inductive LaunchArg : Type :=
| IntArg (z : Z)
| PtrArg (p : DevicePtr).

(** The loop kernel and the callables table are loopy's; the
    transformation reads a kernel through the accessors below and
    rewrites it through loopy's functions, any of which may raise. *)
Class Loopy : Type := {
  LoopKernel : Type;
  CallablesTable : Type;
  Expr : Type;
  instructions : LoopKernel -> list Instruction;
  (** [kernel.temporary_variables.values()], in dict order. *)
  temporary_variables : LoopKernel -> list TemporaryVariable;
  kernel_args : LoopKernel -> list ArrayArg;
  (** [kernel.copy(temporary_variables=...)],
      [kernel.copy(args=..., temporary_variables=...)] and
      [kernel.copy(loop_priority=frozenset())]. *)
  copy_temporary_variables :
    LoopKernel -> list TemporaryVariable -> LoopKernel;
  copy_args_temporary_variables :
    LoopKernel -> list ArrayArg -> list TemporaryVariable -> LoopKernel;
  copy_empty_loop_priority : LoopKernel -> LoopKernel;
  (** A loopy transformation, by the name it is called under. *)
  lp : string -> list (pyarg CallablesTable) -> LoopKernel ->
       result LoopKernel;
  (** The unique-name generators of a kernel: the kernel the generator
      was made from, the names it has handed out, the requested prefix. *)
  fresh_var_name : LoopKernel -> list string -> string -> string;
  fresh_insn_id : LoopKernel -> list string -> string -> string;
  (** [kernel.get_written_variables()]. *)
  get_written_variables : LoopKernel -> list string;
  (** [lp.generate_code_v2(program).device_code()]. *)
  generate_device_code : Program LoopKernel CallablesTable -> result string;
  get_grid_size_upper_bounds_as_exprs :
    Program LoopKernel CallablesTable -> result (list Expr * list Expr);
  (** [int(evaluate(expr, {"start": start, "end": end}))]. *)
  evaluate : Expr -> LaunchArg -> LaunchArg -> result Z
}.

(** What the driver is asked to do, in order. *)
Inductive Event (CudaFunction : Type) : Type :=
| MemAlloc (nbytes : Z) (p : DevicePtr)
| MemcpyDtoD (src : LaunchArg) (dest : DevicePtr) (size : Z)
| MemcpyHtoD (src : list Q) (dest : DevicePtr)
| PreparedCall (f : CudaFunction) (grid block : list Z)
               (args : list LaunchArg).

Arguments MemAlloc {CudaFunction} nbytes p.
Arguments MemcpyDtoD {CudaFunction} src dest size.
Arguments MemcpyHtoD {CudaFunction} src dest.
Arguments PreparedCall {CudaFunction} f grid block args.

(** The device-to-device copies and the launches among the requests. *)
Definition is_memcpy_dtod {F : Type} (e : Event F) : bool :=
  match e with
  | MemcpyDtoD _ _ _ => true
  | _ => false
  end.

Definition launch_args {F : Type} (e : Event F) : option (list LaunchArg) :=
  match e with
  | PreparedCall _ _ _ a => Some a
  | _ => None
  end.

Definition launches {F : Type} (tr : list (Event F)) : list (list LaunchArg) :=
  flat_map (fun e => match launch_args e with
                     | Some a => [a]
                     | None => []
                     end) tr.

(** Compilation and timing are the CUDA driver's. *)
Class Cuda : Type := {
  CudaFunction : Type;
  (** [SourceModule(code).get_function(name)] and [function.prepare(fmt)]. *)
  SourceModule_get_function : string -> string -> result CudaFunction;
  prepare : CudaFunction -> string -> result unit;
  (** [start_evt.time_till(end_evt)] after a launch: whatever the device
      reports, given everything it has been asked to do so far. *)
  time_till : list (Event CudaFunction) -> Q
}.

Section Tiling.

Context {loopy : Loopy} {cuda : Cuda}.

(** The inference of the stage names (lines 105-257), which queries the
    kernel through loopy throughout; the transformation is modelled for
    whatever it returns or raises. *)
Variable work_which_should_be_done_by_passing_metadata :
  LoopKernel -> result (LoopKernel * KernelMetadata).

Definition NameGen : Type := (LoopKernel * list string)%type.

Definition vng (g : NameGen) (base : string) : string * NameGen :=
  let n := fresh_var_name (fst g) (snd g) base in (n, (fst g, n :: snd g)).

Definition ing (g : NameGen) (base : string) : string * NameGen :=
  let n := fresh_insn_id (fst g) (snd g) base in (n, (fst g, n :: snd g)).

(** [[vng(base) for _ in range(n)]]. *)
Fixpoint vng_many (g : NameGen) (base : string) (n : nat)
  : list string * NameGen :=
  match n with
  | O => ([], g)
  | S n' => let '(x, g1) := vng g base in
            let '(xs, g2) := vng_many g1 base n' in
            (x :: xs, g2)
  end.

(** [new_temps[eval_var] = new_temps[eval_var].copy(address_space=LOCAL)]. *)
Fixpoint set_local (name : string) (temps : list TemporaryVariable)
  : result (list TemporaryVariable) :=
  match temps with
  | [] => Raise KeyError
  | tv :: rest =>
      if String.eqb (tv_name tv) name then
        Ok ({| tv_name := tv_name tv; tv_dtype := tv_dtype tv;
               tv_shape := tv_shape tv; tv_layout := tv_layout tv;
               tv_address_space := LOCAL;
               tv_read_only := tv_read_only tv;
               tv_initializer := tv_initializer tv |} :: rest)
      else rest' <- set_local name rest ;; Ok (tv :: rest')
  end.

Definition has_initializer (tv : TemporaryVariable) : bool :=
  match tv_initializer tv with Some _ => true | None => false end.

Definition names_read_under (tag : string) (kernel : LoopKernel)
  : list string :=
  set_union_all (map read_dependency_names
                     (filter (has_tag tag) (instructions kernel))).

Definition names_written_under (tag : string) (kernel : LoopKernel)
  : list string :=
  set_union_all (map write_dependency_names
                     (filter (has_tag tag) (instructions kernel))).

(** Lines 287-307: privatize temps for function evals and make them
    LOCAL; duplicate the quadrature iname. *)
Definition privatize_function_evals (kernel : LoopKernel)
    (metadata : KernelMetadata) : result (LoopKernel * list string) :=
  let evaluation_variables :=
    set_inter (names_written_under "quad_wrap_up" kernel)
              (names_read_under "basis" kernel) in
  kernel <- lp "privatize_temporaries_with_inames"
              [Str (quad_iname metadata); Names evaluation_variables]
              kernel ;;
  new_temps <- for_each evaluation_variables set_local
                 (temporary_variables kernel) ;;
  let kernel := copy_temporary_variables kernel new_temps in
  kernel <- lp "duplicate_inames"
              [Str (quad_iname metadata); Str "tag:quadrature";
               Str (quad_iname_in_quad_stage metadata)] kernel ;;
  kernel <- lp "duplicate_inames"
              [Str (quad_iname metadata); Str "tag:basis";
               Str (quad_iname_in_basis_stage metadata)] kernel ;;
  Ok (kernel, evaluation_variables).

(** Lines 309-319: change address space of constants to '__global'. *)
Definition globalize_constants (kernel : LoopKernel)
  : result (LoopKernel * list TemporaryVariable * list (list Q)) :=
  let old_temps := temporary_variables kernel in
  let args_to_make_global :=
    flat_map (fun tv => match tv_initializer tv with
                        | Some a => [a]
                        | None => []
                        end) old_temps in
  let new_temps := filter (fun tv => negb (has_initializer tv)) old_temps in
  new_args <- map_result _make_tv_array_arg
                (filter has_initializer old_temps) ;;
  Ok (copy_args_temporary_variables kernel
        (kernel_args kernel ++ new_args) new_temps,
      old_temps, args_to_make_global).

(** Lines 321-348: fuse domains, drop unused axes and no-ops, realize
    CUDA blocks. *)
Definition realize_blocks (kernel : LoopKernel) (nc : Z)
    (evaluation_variables : list string) (metadata : KernelMetadata)
  : result LoopKernel :=
  kernel <- lp "fuse_loop_domains" [] kernel ;;
  kernel <- lp "remove_unused_axes_in_temporaries" [] kernel ;;
  let noop_insns :=
    set_of (map insn_id (filter insn_is_noop (instructions kernel))) in
  kernel <- lp "remove_instructions" [Names noop_insns] kernel ;;
  kernel <- lp "split_iname"
              [Str "n"; Int nc; Kw "outer_iname" (Str "iblock");
               Kw "inner_iname" (Str "icell")] kernel ;;
  kernel <- lp "privatize_temporaries_with_inames"
              [Str "icell"; Kw "only_var_names" (Names evaluation_variables)]
              kernel ;;
  lp "rename_iname"
     [Str (scatter_iname metadata);
      Str (doF_iname_in_basis_stage metadata); Bool true] kernel.

(** Lines 381-404: prefetch of the input DoFs. *)
Definition prefetch_inputs (globals : Globals) (kernel : LoopKernel)
    (callables_table : CallablesTable) (tiling_config : TilingConfiguration)
    (input_basis_coeff_temp basis_iname_in_quad_redn : string)
  : result LoopKernel :=
  let nt := nthreads_per_cell tiling_config in
  if load_input_to_shared tiling_config then
    kernel <- lp "privatize_temporaries_with_inames"
                [Str "icell";
                 Kw "only_var_names" (Names [input_basis_coeff_temp])]
                kernel ;;
    kernel <- lp "assignment_to_subst" [Str input_basis_coeff_temp] kernel ;;
    let input_prcmpt_iname := "input_basis_prcmpt" in
    let '(sweep_inames, outer_inames) :=
      if tiled_prefetch_of_inputs tiling_config
      then ([(basis_iname_in_quad_redn ++ "_inner")%string; "icell"],
            "iblock,icoltile_matvec1,irowtile_matvec1")
      else (["icoltile_matvec1";
             (basis_iname_in_quad_redn ++ "_inner")%string; "icell"],
            "iblock") in
    input_basis_coeff_subst <- global_str globals "input_basis_coeff_subst" ;;
    kernel <- lp "precompute_for_single_kernel"
                [Callables callables_table;
                 Kw "subst_use" (Str input_basis_coeff_subst);
                 Kw "sweep_inames" (Names sweep_inames);
                 Kw "precompute_outer_inames" (Str outer_inames);
                 Kw "precompute_inames" (Names [input_prcmpt_iname; "icell"]);
                 Kw "temporary_address_space" (Space LOCAL);
                 Kw "default_tag" PyNone] kernel ;;
    lp "split_iname"
       [Str input_prcmpt_iname; Int nt; Kw "inner_tag" (Str "l.0")] kernel
  else Ok kernel.

(** One of the two prefetch blocks of lines 418-486: fetch every
    constant matrix read under [redn_tag] into a LOCAL temporary, then
    join and split the prefetch inames. *)
Definition prefetch_matrices_for (kernel : LoopKernel)
    (callables_table : CallablesTable) (gv gi : NameGen)
    (const_matrices_names sweep_inames : list string)
    (redn_tag temp_base insn_base new_iname fetch_outer_inames : string)
    (nc nt : Z)
  : result (LoopKernel * list string * list string * NameGen * NameGen) :=
  let const_matrices :=
    set_inter const_matrices_names (names_read_under redn_tag kernel) in
  let '(temp_names, gv) := vng_many gv temp_base (length const_matrices) in
  let '(prefetch_inames, gv) := vng_many gv "iprftch" 2 in
  '(kernel, prefetch_insns, gi) <-
    for_each (combine temp_names const_matrices)
      (fun '(temp_name, var_name) '(kernel, prefetch_insns, gi) =>
         let '(insn, gi) := ing gi insn_base in
         kernel <- lp "add_prefetch_for_single_kernel"
                     [Callables callables_table;
                      Kw "var_name" (Str var_name);
                      Kw "sweep_inames" (Names sweep_inames);
                      Kw "temporary_address_space" (Space LOCAL);
                      Kw "dim_arg_names" (Names prefetch_inames);
                      Kw "temporary_name" (Str temp_name);
                      Kw "compute_insn_id" (Str insn);
                      Kw "fetch_outer_inames" (Str fetch_outer_inames);
                      Kw "default_tag" PyNone;
                      Kw "within" (Str ("tag:" ++ redn_tag)%string)]
                     kernel ;;
         Ok (kernel, prefetch_insns ++ [insn], gi))
      (kernel, [], gi) ;;
  kernel <- lp "join_inames"
              [Names prefetch_inames; Kw "new_iname" (Str new_iname)]
              kernel ;;
  kernel <- lp "split_iname"
              [Str new_iname; Int (nc * nt); Kw "outer_tag" (Str "ilp")]
              kernel ;;
  kernel <- lp "split_iname"
              [Str (new_iname ++ "_inner")%string; Int nt;
               Kw "inner_tag" (Str "l.0"); Kw "outer_tag" (Str "l.1")]
              kernel ;;
  Ok (kernel, temp_names, prefetch_insns, gv, gi).

(** Lines 406-526: prefetch of the constant matrices. *)
Definition prefetch_matrices (kernel : LoopKernel)
    (callables_table : CallablesTable) (tiling_config : TilingConfiguration)
    (metadata : KernelMetadata) (old_temps : list TemporaryVariable)
    (basis_iname_in_quad_redn basis_iname_in_basis_redn : string)
  : result LoopKernel :=
  let nc := ncells_per_block tiling_config in
  let nt := nthreads_per_cell tiling_config in
  let t1_r := matvec1_row_tile_length tiling_config in
  let t1_c := matvec1_col_tile_length tiling_config in
  let t2_r := matvec2_row_tile_length tiling_config in
  let t2_c := matvec2_col_tile_length tiling_config in
  if load_mats_to_shared tiling_config then
    let const_matrices_names :=
      set_of (map tv_name
                (filter (fun tv => has_initializer tv
                                   && (1 <? Z.of_nat (length (tv_shape tv))))
                        old_temps)) in
    let gv : NameGen := (kernel, []) in
    let gi : NameGen := (kernel, []) in
    '(kernel, quad_temp_names, quad_prefetch_insns, gv, gi) <-
      prefetch_matrices_for kernel callables_table gv gi
        const_matrices_names
        [(quad_iname_in_quad_stage metadata ++ "_inner")%string;
         (basis_iname_in_quad_redn ++ "_inner")%string]
        "quad_redn" "quad_cnst_mtrix_prftch" "quad_prftch_insn"
        "quad_prftch_iname" "iblock,icoltile_matvec1,irowtile_matvec1"
        nc nt ;;
    '(kernel, basis_temp_names, basis_prefetch_insns, gv, gi) <-
      prefetch_matrices_for kernel callables_table gv gi
        const_matrices_names
        [(basis_iname_in_basis_redn ++ "_inner")%string;
         (quad_iname_in_basis_stage metadata ++ "_inner")%string]
        "basis_redn" "basis_cnst_mtrix_prftch" "basis_prftch_insn"
        "basis_prftch_iname" "iblock,icoltile_matvec2,irowtile_matvec2"
        nc nt ;;
    (* using the same variable for both the prefetch shared mems *)
    kernel <- for_each (quad_temp_names ++ basis_temp_names)
                (fun var_name kernel =>
                   lp "flatten_variable" [Str var_name] kernel) kernel ;;
    kernel <- for_each (combine quad_temp_names basis_temp_names)
                (fun '(quad_temp_name, basis_temp_name) kernel =>
                   if t1_r * t1_c <=? t2_r * t2_c
                   then lp "absorb_temporary_into"
                           [Str basis_temp_name; Str quad_temp_name] kernel
                   else lp "absorb_temporary_into"
                           [Str quad_temp_name; Str basis_temp_name] kernel)
                kernel ;;
    (* adding dependency between the prefetch instructions *)
    kernel <- lp "add_dependency"
                [Str (String.concat " or "
                        (map (fun insn_id => ("id:" ++ insn_id)%string)
                             basis_prefetch_insns));
                 Str "tag:quadrature"] kernel ;;
    kernel <- lp "add_dependency"
                [Str "tag:quad_redn"; Str "id:quad_prftch_insn*"] kernel ;;
    kernel <- lp "add_dependency"
                [Str "tag:basis_redn"; Str "id:basis_prftch_insn*"] kernel ;;
    kernel <- lp "remove_dependency"
                [Str "tag:quad_redn"; Str "tag:quad_redn"] kernel ;;
    kernel <- lp "remove_dependency"
                [Str "tag:basis_redn"; Str "tag:basis_redn"] kernel ;;
    lp "add_dependency"
       [Str "tag:quad_wrap_up"; Str "tag:quad_redn"] kernel
  else Ok kernel.

(** Lines 530-564: prefetch of the quadrature weights. *)
Definition prefetch_quad_weights (kernel : LoopKernel)
    (callables_table : CallablesTable) (tiling_config : TilingConfiguration)
    (metadata : KernelMetadata) (old_temps : list TemporaryVariable)
  : result LoopKernel :=
  let nc := ncells_per_block tiling_config in
  let nt := nthreads_per_cell tiling_config in
  if load_quad_weights_to_shared tiling_config then
    quad_weights <-
      match filter (fun tv => has_initializer tv
                              && (Z.of_nat (length (tv_shape tv)) =? 1))
                   old_temps with
      | [tv] => Ok (tv_name tv)
      | _ => Raise ValueError
      end ;;
    let '(quad_weight_prefetch_insn, _) :=
      ing (kernel, []) "quad_wt_prftch_insn" in
    let '(quad_weight_prefetch_iname, _) := vng (kernel, []) "iprtftch" in
    let '(sweep_inames, fetch_outer_inames) :=
      if tiled_prefetch_of_quad_weights tiling_config
      then (Str (quad_iname_in_quad_stage metadata ++ "_inner")%string,
            "irowtile_matvec1, iblock")
      else (Names ["irowtile_matvec1";
                   (quad_iname_in_quad_stage metadata ++ "_inner")%string],
            "iblock") in
    kernel <- lp "add_prefetch_for_single_kernel"
                [Callables callables_table;
                 Kw "var_name" (Str quad_weights);
                 Kw "sweep_inames" sweep_inames;
                 Kw "temporary_address_space" (Space LOCAL);
                 Kw "dim_arg_names" (Names [quad_weight_prefetch_iname]);
                 Kw "temporary_name" (Str "cnst_quad_weight_prftch");
                 Kw "compute_insn_id" (Str quad_weight_prefetch_insn);
                 Kw "fetch_outer_inames" (Str fetch_outer_inames);
                 Kw "default_tag" PyNone;
                 Kw "within" (Str "tag:quad_wrap_up")] kernel ;;
    kernel <- lp "split_iname"
                [Str quad_weight_prefetch_iname; Int (nc * nt);
                 Kw "outer_tag" (Str "ilp")] kernel ;;
    lp "split_iname"
       [Str (quad_weight_prefetch_iname ++ "_inner")%string; Int nt;
        Kw "outer_tag" (Str "l.1"); Kw "inner_tag" (Str "l.0")] kernel
  else Ok kernel.

(** Lines 584-629: the column splits of the wrap-up and scatter
    instructions, the micro-optimisation check and the binding to the
    hardware axes.  They follow the [raise] of line 582. *)
Definition split_columns_and_bind (globals : Globals) (kernel : LoopKernel)
    (tiling_config : TilingConfiguration) (metadata : KernelMetadata)
    (args_to_make_global : list (list Q))
    (basis_iname_in_basis_redn output_basis_coeff_temp : string)
  : result (LoopKernel * list (list Q)) :=
  let nt := nthreads_per_cell tiling_config in
  let t1_c := matvec1_col_tile_length tiling_config in
  let t2_c := matvec2_col_tile_length tiling_config in
  let quad_inner_outer :=
    (quad_iname_in_quad_stage metadata ++ "_inner_outer")%string in
  let basis_inner_outer :=
    (basis_iname_in_basis_redn ++ "_inner_outer")%string in
  nbasis <- global_int globals "nbasis" ;;
  kernel <-
    (if t1_c <? nbasis then
       let only_var_names :=
         map insn_assignee_name
             (filter (has_tag "quad_init") (instructions kernel)) in
       kernel <- lp "privatize_temporaries_with_inames"
                   [Str quad_inner_outer;
                    Kw "only_var_names" (Names only_var_names)] kernel ;;
       kernel <- lp "duplicate_inames"
                   [Names [quad_inner_outer];
                    Kw "within" (Str "tag:quad_wrap_up")] kernel ;;
       lp "duplicate_inames"
          [Names [quad_inner_outer]; Str "tag:quad_init"] kernel
     else
       lp "add_inames_to_insn"
          [Str "icoltile_matvec1"; Str "tag:quad_wrap_up or tag:quad_init"]
          kernel) ;;
  nquad <- global_int globals "nquad" ;;
  kernel <-
    (if t2_c <? nquad then
       kernel <- lp "privatize_temporaries_with_inames"
                   [Str basis_inner_outer;
                    Kw "only_var_names" (Names [output_basis_coeff_temp])]
                   kernel ;;
       kernel <- lp "duplicate_inames"
                   [Names [basis_inner_outer];
                    Kw "within" (Str "tag:scatter")] kernel ;;
       lp "duplicate_inames"
          [Names [basis_inner_outer];
           Kw "within" (Str ("tag:gather and writes:"
                             ++ output_basis_coeff_temp)%string)] kernel
     else
       lp "add_inames_to_insn"
          [Str "icoltile_matvec2";
           Str ("tag:scatter or (tag:gather and writes:"
                ++ output_basis_coeff_temp ++ ")")%string] kernel) ;;
  kernel <-
    (if (nt =? 1) && negb (load_mats_to_shared tiling_config)
     then Raise RuntimeError else Ok kernel) ;;
  kernel <- lp "tag_inames" [Str "icell:l.1, iblock:g.0"] kernel ;;
  kernel <- lp "remove_unused_inames" [] kernel ;;
  let kernel := copy_empty_loop_priority kernel in
  Ok (kernel, args_to_make_global).

(** The body of [tiled_transform] (lines 260-629), over the globals of
    the module.  The [assert isinstance(tiling_config,
    TilingConfiguration)] is the type of the last argument. *)
Definition tiled_transform_in (globals : Globals) (kernel : LoopKernel)
    (callables_table : CallablesTable) (tiling_config : TilingConfiguration)
  : result (LoopKernel * list (list Q)) :=
  let nc := ncells_per_block tiling_config in
  let nt := nthreads_per_cell tiling_config in
  let t1_r := matvec1_row_tile_length tiling_config in
  let t1_c := matvec1_col_tile_length tiling_config in
  let t2_r := matvec2_row_tile_length tiling_config in
  let t2_c := matvec2_col_tile_length tiling_config in
  (* inferring variables *)
  '(kernel, metadata) <-
    work_which_should_be_done_by_passing_metadata kernel ;;
  '(kernel, evaluation_variables) <-
    privatize_function_evals kernel metadata ;;
  '(kernel, old_temps, args_to_make_global) <- globalize_constants kernel ;;
  kernel <- realize_blocks kernel nc evaluation_variables metadata ;;
  (* line 349 *)
  input_basis_coeff_temp <- global_str globals "input_basis_coeff_temp" ;;
  basis_iname_in_basis_redn <- global_str globals "basis_iname_in_basis_redn" ;;
  kernel <- lp "rename_iname"
              [Str input_basis_coeff_temp; Str basis_iname_in_basis_redn;
               Bool true] kernel ;;
  kernel <- lp "remove_unnecessary_deps" [] kernel ;;
  output_basis_coeff_temp <- global_str globals "output_basis_coeff_temp" ;;
  kernel <- lp "remove_axis" [Str output_basis_coeff_temp; Int 0] kernel ;;
  kernel <- lp "add_dependency"
              [Str ("writes:" ++ output_basis_coeff_temp)%string;
               Str "tag:quad_wrap_up"] kernel ;;
  kernel <-
    (if load_coordinates_to_shared tiling_config then
       coords_temp <- global_str globals "coords_temp" ;;
       kernel <- lp "privatize_temporaries_with_inames"
                   [Str "icell"; Names [coords_temp]] kernel ;;
       kernel <- lp "assignment_to_subst" [Str coords_temp] kernel ;;
       Raise (NotImplementedError
                "This might be only useful for high order meshes.")
     else Ok kernel) ;;
  (* splitting for tiles in matvec1 *)
  kernel <- lp "split_iname"
              [Str (quad_iname_in_quad_stage metadata); Int t1_r;
               Kw "outer_iname" (Str "irowtile_matvec1")] kernel ;;
  basis_iname_in_quad_redn <- global_str globals "basis_iname_in_quad_redn" ;;
  kernel <- lp "split_iname"
              [Str basis_iname_in_quad_redn; Int t1_c;
               Kw "outer_iname" (Str "icoltile_matvec1")] kernel ;;
  (* splitting for tiles in matvec2 *)
  kernel <- lp "split_iname"
              [Str basis_iname_in_basis_redn; Int t2_r;
               Kw "outer_iname" (Str "irowtile_matvec2")] kernel ;;
  kernel <- lp "split_iname"
              [Str (quad_iname_in_basis_stage metadata); Int t2_c;
               Kw "outer_iname" (Str "icoltile_matvec2")] kernel ;;
  (* prefetch wizardry *)
  kernel <- prefetch_inputs globals kernel callables_table tiling_config
              input_basis_coeff_temp basis_iname_in_quad_redn ;;
  kernel <- prefetch_matrices kernel callables_table tiling_config metadata
              old_temps basis_iname_in_quad_redn basis_iname_in_basis_redn ;;
  kernel <- prefetch_quad_weights kernel callables_table tiling_config
              metadata old_temps ;;
  (* divide matvec1-tile's work across threads *)
  kernel <- lp "split_iname"
              [Str (quad_iname_in_quad_stage metadata ++ "_inner")%string;
               Int nt; Kw "inner_tag" (Str "l.0");
               Kw "outer_tag" (Str "ilp")] kernel ;;
  (* divide matvec2-tile's work across threads *)
  kernel <- lp "split_iname"
              [Str (basis_iname_in_basis_redn ++ "_inner")%string;
               Int nt; Kw "inner_tag" (Str "l.0");
               Kw "outer_tag" (Str "ilp")] kernel ;;
  (* line 582 *)
  _ <- (Raise (NotImplementedError
          "Developer wants to focus on other features now.. hahahaaha. sob sob sob")
        : result unit) ;;
  split_columns_and_bind globals kernel tiling_config metadata
    args_to_make_global
    basis_iname_in_basis_redn output_basis_coeff_temp.

(** [tiled_transform]. *)
Definition tiled_transform (kernel : LoopKernel)
    (callables_table : CallablesTable) (tiling_config : TilingConfiguration)
  : result (LoopKernel * list (list Q)) :=
  tiled_transform_in module_globals kernel callables_table tiling_config.

(** ** AutoTiler.__call__: the tuning loop *)

(** [program.with_root_kernel(kernel)]. *)
Definition with_root_kernel (p : Program LoopKernel CallablesTable)
    (kernel : LoopKernel) : Program LoopKernel CallablesTable :=
  {| prog_name := prog_name p; prog_args := prog_args p;
     root_kernel := kernel; callables_table := callables_table p |}.

(** The driver state: the next fresh allocation, the requests made so
    far, and the memo table of [convert_numpy_arrays_to_cuda_mems]. *)
Record Device : Type := mkDevice {
  next_ptr : DevicePtr;
  trace : list (Event CudaFunction);
  memo : list (list Q * DevicePtr)
}.

(** Computations that use the driver and can raise; the driver state
    survives an exception. *)
Definition M (A : Type) : Type := Device -> result A * Device.

Definition retM {A : Type} (a : A) : M A := fun d => (Ok a, d).

Definition bindM {A B : Type} (m : M A) (k : A -> M B) : M B :=
  fun d => match m d with
           | (Ok a, d') => k a d'
           | (Raise e, d') => (Raise e, d')
           end.

Definition liftM {A : Type} (r : result A) : M A := fun d => (r, d).

Definition emit (e : Event CudaFunction) : M unit :=
  fun d => (Ok tt, {| next_ptr := next_ptr d; trace := trace d ++ [e];
                      memo := memo d |}).

(** [cuda.mem_alloc(nbytes)]. *)
Definition mem_alloc (nbytes : Z) : M DevicePtr :=
  fun d => (Ok (next_ptr d),
            {| next_ptr := S (next_ptr d);
               trace := trace d ++ [MemAlloc nbytes (next_ptr d)];
               memo := memo d |}).

(** [cuda.memcpy_dtod] and [cuda.memcpy_htod]. *)
Definition memcpy_dtod (src : LaunchArg) (dest : DevicePtr) (size : Z)
  : M unit := emit (MemcpyDtoD src dest size).
Definition memcpy_htod (src : list Q) (dest : DevicePtr) : M unit :=
  emit (MemcpyHtoD src dest).

Notation "x <~ m ;; k" := (bindM m (fun x => k))
  (at level 61, m at next level, right associativity).
Notation "' pat <~ m ;; k" :=
  (bindM m (fun x => match x with pat => k end))
  (at level 61, pat pattern, m at next level, right associativity).

(** A [for] loop whose body uses the driver. *)
Fixpoint for_eachM {A S : Type} (l : list A) (body : A -> S -> M S)
    (s : S) : M S :=
  match l with
  | [] => retM s
  | x :: l' => s' <~ body x s ;; for_eachM l' body s'
  end.

(** [l[i]] for [i >= 0]. *)
Definition index {A : Type} (l : list A) (i : nat) : result A :=
  match nth_error l i with
  | Some a => Ok a
  | None => Raise IndexError
  end.

(** [enumerate(l)]. *)
Definition enumerate {A : Type} (l : list A) : list (nat * A) :=
  combine (seq 0 (length l)) l.

(** [np.prod(shape)]. *)
Definition np_prod (shape : list Z) : Z := fold_left Z.mul shape 1.

(** Lines 862-871, the body of the loop over the program arguments: an
    argument the kernel writes is replaced by a copy; the others are
    passed as they are. *)
Definition copy_arg (self : AutoTiler (Program LoopKernel CallablesTable))
    (args : list LaunchArg) (argshapes : list (list Z))
    (entry : nat * ArrayArg) (copied_args : list LaunchArg)
  : M (list LaunchArg) :=
  let '(i, arg) := entry in
  if name_in (arg_name arg)
       (get_written_variables (root_kernel (fem_program self)))
  then
    (* arg is written during kernel execution => make a copy *)
    shape <~ liftM (index argshapes i) ;;
    arg_gpu <~ mem_alloc (np_prod shape * itemsize (arg_dtype arg)) ;;
    src <~ liftM (index args (i + 2)) ;;
    shape <~ liftM (index argshapes i) ;;
    _ <~ memcpy_dtod src arg_gpu
           (np_prod shape * itemsize (arg_dtype arg)) ;;
    retM (copied_args ++ [PtrArg arg_gpu])
  else
    (* arg is read only => pass the same arg to the knl *)
    a <~ liftM (index args (i + 2)) ;;
    retM (copied_args ++ [a]).

(** Lines 860-871: the argument tuple handed to every launch. *)
Definition copy_written_args
    (self : AutoTiler (Program LoopKernel CallablesTable))
    (args : list LaunchArg) (argshapes : list (list Z))
  : M (list LaunchArg) :=
  for_eachM (enumerate (skipn 2 (prog_args (fem_program self))))
    (copy_arg self args argshapes) (firstn 2 args).

Definition tuple_eqb (a b : list Q) : bool :=
  (length a =? length b)%nat
  && forallb (fun '(x, y) => Qeq_bool x y) (combine a b).

Definition remember (ary : list Q) (p : DevicePtr) : M unit :=
  fun d => (Ok tt, {| next_ptr := next_ptr d; trace := trace d;
                      memo := (ary, p) :: memo d |}).

(** [AutoTiler.convert_numpy_arrays_to_cuda_mems], memoised on its
    argument; the array holds doubles. *)
Definition convert_numpy_arrays_to_cuda_mems (ary : list Q) : M DevicePtr :=
  fun d =>
    match find (fun entry => tuple_eqb (fst entry) ary) (memo d) with
    | Some (_, p) => (Ok p, d)
    | None =>
        (ary_gpu <~ mem_alloc (8 * Z.of_nat (length ary)) ;;
         _ <~ memcpy_htod ary ary_gpu ;;
         _ <~ remember ary ary_gpu ;;
         retM ary_gpu) d
    end.

(** [tuple(int(evaluate(lens[i], {"start": args[0], "end": args[1]}))
    if i < len(lens) else 1 for i in range(n))]. *)
Definition launch_dims (lens : list Expr) (n : nat) (args : list LaunchArg)
  : result (list Z) :=
  map_result
    (fun i => if (i <? length lens)%nat
              then e <- index lens i ;;
                   start <- index args 0 ;;
                   stop <- index args 1 ;;
                   evaluate e start stop
              else Ok 1)
    (seq 0 n).

Definition nrounds : nat := 15.
Definition nwarmup : nat := 5.

(** [np.mean] of a list of floats (here always of the
    [nrounds - nwarmup] samples kept). *)
Definition np_mean (l : list Q) : Q :=
  (fold_left Qplus l 0 / ZQ (Z.of_nat (length l)))%Q.

(** ["P"*n]. *)
Fixpoint repeat_string (s : string) (n : nat) : string :=
  match n with
  | O => EmptyString
  | S n' => (s ++ repeat_string s n')%string
  end.

(** Lines 893-905: the measurement rounds of one candidate. *)
Definition measure (executable_knl : CudaFunction) (grid block : list Z)
    (launch_args : list LaunchArg) : M Q :=
  runtimes <~ for_eachM (seq 0 nrounds)
                (fun _ runtimes =>
                   _ <~ emit (PreparedCall executable_knl grid block
                                           launch_args) ;;
                   t <~ (fun d => (Ok (time_till (trace d)), d)) ;;
                   retM (runtimes ++ [(t / 1000)%Q]))
                [] ;;
  retM (np_mean (skipn nwarmup runtimes)).

(** Lines 876-912: one iteration of the loop over the candidates. *)
Definition try_candidate
    (transform : LoopKernel -> CallablesTable -> TilingConfiguration ->
                 result (LoopKernel * list (list Q)))
    (self : AutoTiler (Program LoopKernel CallablesTable)) (args copied_args : list LaunchArg)
    (tiling_config : TilingConfiguration)
    (best : pyfloat * option TilingConfiguration)
  : M (pyfloat * option TilingConfiguration) :=
  let '(best_performing_time, best_performing_config) := best in
  '(kernel, extra_args) <~
    liftM (transform (root_kernel (fem_program self))
                     (callables_table (fem_program self)) tiling_config) ;;
  let kernel := with_root_kernel (fem_program self) kernel in
  code <~ liftM (generate_device_code kernel) ;;
  '(glens, llens) <~ liftM (get_grid_size_upper_bounds_as_exprs kernel) ;;
  grid <~ liftM (launch_dims glens 2 args) ;;
  block <~ liftM (launch_dims llens 3 args) ;;
  executable_knl <~
    liftM (SourceModule_get_function code (prog_name kernel)) ;;
  _ <~ liftM (prepare executable_knl
                (repeat_string "i" 2
                 ++ repeat_string "P" (length (skipn 2 args))
                 ++ repeat_string "P" (length extra_args))%string) ;;
  extra_args <~ for_eachM extra_args
                  (fun arg converted =>
                     p <~ convert_numpy_arrays_to_cuda_mems arg ;;
                     retM (converted ++ [PtrArg p]))
                  [] ;;
  exec_time <~ measure executable_knl grid block
                 (copied_args ++ extra_args) ;;
  retM (if flt_ltb (Fin exec_time) best_performing_time
        then (Fin exec_time, Some tiling_config)
        else (best_performing_time, best_performing_config)).

(** [AutoTiler.__call__], over the transformation it imports. *)
Definition tune_with
    (transform : LoopKernel -> CallablesTable -> TilingConfiguration ->
                 result (LoopKernel * list (list Q)))
    (self : AutoTiler (Program LoopKernel CallablesTable)) (args : list LaunchArg)
    (argshapes : list (list Z)) : M (LoopKernel * list (list Q)) :=
  copied_args <~ copy_written_args self args argshapes ;;
  candidates <~ liftM (get_candiate_configs self) ;;
  '(_, best_performing_config) <~
    for_eachM candidates (try_candidate transform self args copied_args)
      (PInf, None) ;;
  match best_performing_config with
  | Some c =>
      liftM (transform (root_kernel (fem_program self))
                       (callables_table (fem_program self)) c)
  | None =>
      (* tiled_transform(..., None): the isinstance assertion fails *)
      liftM (Raise AssertionError)
  end.

(** [AutoTiler.__call__]. *)
Definition AutoTiler__call__ (self : AutoTiler (Program LoopKernel CallablesTable))
    (args : list LaunchArg) (argshapes : list (list Z))
  : M (LoopKernel * list (list Q)) :=
  tune_with tiled_transform self args argshapes.

(** *** What a run asks of the driver *)

(** A computation appends requests to the trace, all of which satisfy
    [R], and leaves the earlier ones as they are. *)
Definition emits {A : Type} (R : Event CudaFunction -> Prop) (m : M A)
  : Prop :=
  forall d r d', m d = (r, d') ->
    exists new, trace d' = trace d ++ new /\ Forall R new.

(** [arg.name in self.fem_program.root_kernel.get_written_variables()]. *)
Definition written (self : AutoTiler (Program LoopKernel CallablesTable))
    (arg : ArrayArg) : bool :=
  name_in (arg_name arg)
          (get_written_variables (root_kernel (fem_program self))).

(** The entry [a] of the launch tuple that stands for the program
    argument number [i + 2]: the caller's own entry if the kernel only
    reads it; otherwise a pointer allocated during the run, into which
    the caller's entry was copied. *)
Definition copied_entry (self : AutoTiler (Program LoopKernel CallablesTable))
    (args : list LaunchArg) (first_fresh : DevicePtr)
    (new : list (Event CudaFunction)) (entry : nat * ArrayArg)
    (a : LaunchArg) : Prop :=
  if written self (snd entry) then
    exists p src size,
      a = PtrArg p /\ (first_fresh <= p)%nat /\
      index args (fst entry + 2) = Ok src /\
      In (MemAlloc size p) new /\ In (MemcpyDtoD src p size) new
  else index args (fst entry + 2) = Ok a.

(** A request that is not a device-to-device copy and, if it is a
    launch, passes [copied_args] followed by further arguments. *)
Definition launch_with (copied_args : list LaunchArg)
    (e : Event CudaFunction) : Prop :=
  is_memcpy_dtod e = false /\
  forall a, launch_args e = Some a -> exists extra, a = copied_args ++ extra.

End Tiling.

(** The number of doubles one block keeps in shared memory, as
    [theoretical_warps_per_sm] counts them before the conversion to
    KB. *)
Definition shared_doubles {Program : Type} (self : AutoTiler Program)
    (tiling_config : TilingConfiguration) : Z :=
  num_const_matrices self
  * pymax (matvec1_row_tile_length tiling_config
           * matvec1_col_tile_length tiling_config)
          (matvec2_row_tile_length tiling_config
           * matvec2_col_tile_length tiling_config)
  + nquad self
  + num_func_eval_vars self * nquad self * ncells_per_block tiling_config.

(** A tile as the enumeration cuts it: each length is an extent divided
    by a divisor between 1 and the ceiling of the square root of that
    extent, rounded up, and the two footprints pass the filter. *)
Definition tile_enumerated {Program : Type} (self : AutoTiler Program)
    (T : Tile) : Prop :=
  exists i j k l,
    1 <= i <= Z.sqrt_up (nbasis self) /\ 1 <= j <= Z.sqrt_up (nquad self) /\
    1 <= k <= Z.sqrt_up (nbasis self) /\ 1 <= l <= Z.sqrt_up (nquad self) /\
    T = (ceiling_quotient (nquad self) j, ceiling_quotient (nbasis self) i,
         ceiling_quotient (nbasis self) k, ceiling_quotient (nquad self) l) /\
    (let '(t1_r, t1_c, t2_r, t2_c) := T in
     footprints_close t1_r t1_c t2_r t2_c) = Ok true.

(** The same tuner with another number of candidates asked for. *)
Definition with_num_candidate_knls {Program : Type}
    (self : AutoTiler Program) (n : Z) : AutoTiler Program :=
  {| fem_program := fem_program self; num_candidate_knls := n;
     nbasis := nbasis self; nquad := nquad self;
     num_const_matrices := num_const_matrices self;
     num_func_eval_vars := num_func_eval_vars self |}.

(** ** The efficiency in binary64

    The expressions of [get_work_efficiency] with Python's [/]
    evaluated in IEEE binary64, as the interpreter does, for operands
    that are non-negative machine-size ints and divisors that are not
    zero.  They are used to check the rational model at the inputs
    where it is compared with the specification. *)

Module Binary64.

Definition of_int (z : Z) : float := PrimFloat.of_uint63 (Uint63.of_Z z).

Definition warp_fill_ratio (threads_in_block : Z) : float :=
  (of_int threads_in_block
   / of_int (threads_in_block
             + (WARP_SIZE - threads_in_block mod WARP_SIZE)))%float.

Definition work_efficiency {Program : Type} (self : AutoTiler Program)
    (tiling_config : TilingConfiguration) : float :=
  let cells_per_block := ncells_per_block tiling_config in
  let threads_per_cell := nthreads_per_cell tiling_config in
  let t1_r := matvec1_row_tile_length tiling_config in
  let t2_r := matvec2_row_tile_length tiling_config in
  let wasted_work :=
    nbasis self * ((t1_r mod threads_per_cell) * (nquad self / t1_r)
                   + (nquad self mod t1_r) mod threads_per_cell)
    + nquad self * ((t2_r mod threads_per_cell) * (nbasis self / t2_r)
                    + (nbasis self mod t2_r) mod threads_per_cell) in
  let wasted_work_fraction :=
    (of_int wasted_work / of_int (2 * nquad self * nbasis self))%float in
  (warp_fill_ratio (threads_per_cell * cells_per_block)
   * (1 - wasted_work_fraction))%float.

End Binary64.

(** ** A loopy and a driver to run the model on *)

(** The quadrature weights of a six-point rule, as a constant
    temporary. *)
Definition weights_temporary : TemporaryVariable :=
  {| tv_name := "form_w"; tv_dtype := mkDType "float64" 8;
     tv_shape := [6]; tv_layout := "C"; tv_address_space := GLOBAL;
     tv_read_only := true;
     tv_initializer := Some [1#6; 1#6; 1#6; 1#6; 1#6; 1#6]%Q |}.

(** A kernel reduced to the names it writes, with the weights as its
    only temporary; every loopy call succeeds and returns the kernel it
    was given. *)
Definition null_loopy : Loopy := {|
  LoopKernel := list string;
  CallablesTable := unit;
  Expr := Z;
  instructions := fun _ => [];
  temporary_variables := fun _ => [weights_temporary];
  kernel_args := fun _ => [];
  copy_temporary_variables := fun k _ => k;
  copy_args_temporary_variables := fun k _ _ => k;
  copy_empty_loop_priority := fun k => k;
  lp := fun _ _ k => Ok k;
  fresh_var_name := fun _ _ base => base;
  fresh_insn_id := fun _ _ base => base;
  get_written_variables := fun k => k;
  generate_device_code := fun p => Ok (prog_name p);
  get_grid_size_upper_bounds_as_exprs := fun _ => Ok ([1], [1]);
  evaluate := fun e _ _ => Ok e
|}.

(** A driver whose compiled function is the kernel name and whose every
    launch takes one millisecond. *)
Definition null_cuda : Cuda := {|
  CudaFunction := string;
  SourceModule_get_function := fun _ name => Ok name;
  prepare := fun _ _ => Ok tt;
  time_till := fun _ => 1%Q
|}.

Definition null_metadata : KernelMetadata :=
  {| quad_iname := "form_ip"; inputDoFs := ["t0"]; coords := "t1";
     outputDoF := "t2"; outputDoF_init_iname := "i0";
     quad_iname_in_quad_stage := "form_ip_quad";
     quad_iname_in_basis_stage := "form_ip_basis";
     doF_inames_in_quad_stage := ["form_i"];
     doF_iname_in_basis_stage := "form_j"; scatter_iname := "i1";
     md_nquad := 6; n_inputDoFs := [3]; n_outputDoF := 3 |}.

(** Globals that bind every name, a string to itself and an int to 3. *)
Definition bound_globals : Globals :=
  {| str_globals := fun name => Some name; int_globals := fun _ => Some 3 |}.

(** A stage inference that succeeds. *)
Definition null_inference (k : list string)
  : result (list string * KernelMetadata) := Ok (k, null_metadata).

(** A program with a launch range, a buffer the kernel only reads and
    a buffer it writes, and the call that tunes it. *)
Definition demo_program : Program (list string) unit :=
  {| prog_name := "knl";
     prog_args :=
       [ mkArrayArg "start" (mkDType "int32" 4) [] "C" GLOBAL false;
         mkArrayArg "end" (mkDType "int32" 4) [] "C" GLOBAL false;
         mkArrayArg "coords" (mkDType "float64" 8) [10; 3] "C" GLOBAL false;
         mkArrayArg "out" (mkDType "float64" 8) [10; 3] "C" GLOBAL false ];
     root_kernel := ["out"];
     callables_table := tt |}.

Definition demo_tuner : AutoTiler (Program (list string) unit) :=
  {| fem_program := demo_program; num_candidate_knls := 5;
     nbasis := 3; nquad := 6;
     num_const_matrices := 1; num_func_eval_vars := 1 |}.

Definition demo_args : list LaunchArg :=
  [IntArg 0; IntArg 10; PtrArg 100%nat; PtrArg 101%nat].

Definition demo_argshapes : list (list Z) := [[10; 3]; [10; 3]].

Definition demo_device : @Device null_cuda :=
  {| next_ptr := 102%nat; trace := []; memo := [] |}.

(** A transformation that returns, with the kernel unchanged and no
    extra arguments. *)
Definition identity_transform (k : list string) (c : unit)
    (cfg : TilingConfiguration) : result (list string * list (list Q)) :=
  Ok (k, []).

(** The tuning loop over [identity_transform], and [AutoTiler.__call__]
    itself, on the program above. *)
Definition demo_run :=
  @tune_with null_loopy null_cuda identity_transform
    demo_tuner demo_args demo_argshapes demo_device.

Definition demo_call :=
  @AutoTiler__call__ null_loopy null_cuda null_inference
    demo_tuner demo_args demo_argshapes demo_device.

(** What the specification asks of a run over a shortlist of
    [ncandidates]: a fresh copy of each of the [nwritten] written
    buffers for every candidate. *)
Definition fresh_copy_per_candidate {F : Type} (ncandidates nwritten : nat)
    (tr : list (Event F)) : Prop :=
  length (filter is_memcpy_dtod tr) = (ncandidates * nwritten)%nat.

(** ** The copy of the written arguments: which entries can be built *)


(** ** tiled_transform: the temporaries made LOCAL *)

(** [tv.copy(address_space=lp.AddressSpace.LOCAL)]. *)
Definition copy_address_space_LOCAL (tv : TemporaryVariable)
  : TemporaryVariable :=
  {| tv_name := tv_name tv; tv_dtype := tv_dtype tv;
     tv_shape := tv_shape tv; tv_layout := tv_layout tv;
     tv_address_space := LOCAL;
     tv_read_only := tv_read_only tv;
     tv_initializer := tv_initializer tv |}.

(** ** The stage inference: tagging the stages of the kernel *)

Module StageInference.

(** What the sets of the tagging loop hold: the names of inames, and the
    booleans that line 171 collects. *)
Inductive atom : Type :=
| AStr (s : string)
| ABool (b : bool).

(** [==] on them: a string is never equal to a boolean. *)
Definition atom_eqb (a b : atom) : bool :=
  match a, b with
  | AStr s, AStr t => String.eqb s t
  | ABool x, ABool y => Bool.eqb x y
  | _, _ => false
  end.

Definition atom_in (x : atom) (l : list atom) : bool :=
  existsb (atom_eqb x) l.

(** [set(l)], [a & b] and the truth value of a set. *)
Fixpoint atom_set (l : list atom) : list atom :=
  match l with
  | [] => []
  | x :: l' => if atom_in x l' then atom_set l' else x :: atom_set l'
  end.

Definition atom_inter (a b : list atom) : list atom :=
  filter (fun x => atom_in x b) a.

Definition nonempty {A : Type} (l : list A) : bool :=
  match l with
  | [] => false
  | _ :: _ => true
  end.

(** An instruction as the inference reads it: the fields above and the
    inames it is nested in. *)
Record Insn : Type := mkInsn {
  insn : Instruction;
  within_inames : list string
}.

(** [insn.copy(tags=insn.tags | frozenset([tag]))]. *)
Definition with_tag (i : Insn) (tag : string) : Insn :=
  {| insn :=
       {| insn_id := insn_id (insn i);
          insn_tags := set_of (insn_tags (insn i) ++ [tag]);
          insn_is_noop := insn_is_noop (insn i);
          insn_assignee_name := insn_assignee_name (insn i);
          read_dependency_names := read_dependency_names (insn i);
          write_dependency_names := write_dependency_names (insn i) |};
     within_inames := within_inames i |}.

(** Line 171: [set([iname.startswith('form_i') for iname in
    kernel.all_inames()])]. *)
Definition doF_inames_in_quad_stage (all_inames : list string)
  : list atom :=
  atom_set (map (fun iname => ABool (String.prefix "form_i" iname))
                all_inames).

(** Lines 179-183: the flags of the loop. *)
Record Stages : Type := mkStages {
  done_with_jacobi_eval : bool;
  done_with_quad_init : bool;
  done_with_quad_reduction : bool;
  done_with_quad_wrap_up : bool;
  done_with_basis_reduction : bool
}.

Definition no_stage_done : Stages := mkStages false false false false false.

(** Lines 186-222, the body of the loop over the instructions: [inl]
    where the body goes on to the next block, [inr] where it appends
    the tagged instruction and continues with the next instruction. *)
Definition tag_insn (quad_iname : string)
    (doF_inames_in_quad_stage : list atom)
    (state : Stages * list Insn) (i : Insn) : Stages * list Insn :=
  let '(s, new_insns) := state in
  let in_dof_loop :=
    nonempty (atom_inter doF_inames_in_quad_stage
                         (map AStr (within_inames i))) in
  match (if negb (done_with_jacobi_eval s) then
           if name_in quad_iname (within_inames i) then
             inl (mkStages true (done_with_quad_init s)
                    (done_with_quad_reduction s) (done_with_quad_wrap_up s)
                    (done_with_basis_reduction s))
           else inr (s, new_insns ++ [with_tag i "jacobi_eval"])
         else inl s) with
  | inr next => next
  | inl s =>
  match (if negb (done_with_quad_init s) then
           if in_dof_loop then
             inl (mkStages (done_with_jacobi_eval s) true
                    (done_with_quad_reduction s) (done_with_quad_wrap_up s)
                    (done_with_basis_reduction s))
           else inr (s, new_insns ++ [with_tag i "quad_init"])
         else inl s) with
  | inr next => next
  | inl s =>
  match (if negb (done_with_quad_reduction s) then
           if in_dof_loop then
             inr (s, new_insns ++ [with_tag i "quad_redn"])
           else
             inl (mkStages (done_with_jacobi_eval s) (done_with_quad_init s)
                    true (done_with_quad_wrap_up s)
                    (done_with_basis_reduction s))
         else inl s) with
  | inr next => next
  | inl s =>
  match (if negb (done_with_quad_wrap_up s) then
           if name_in "basis" (insn_tags (insn i)) then
             inl (mkStages (done_with_jacobi_eval s) (done_with_quad_init s)
                    (done_with_quad_reduction s) true
                    (done_with_basis_reduction s))
           else inr (s, new_insns ++ [with_tag i "quad_wrap_up"])
         else inl s) with
  | inr next => next
  | inl s =>
  match (if negb (done_with_basis_reduction s) then
           if negb (name_in quad_iname (within_inames i)) then
             inl (mkStages (done_with_jacobi_eval s) (done_with_quad_init s)
                    (done_with_quad_reduction s) (done_with_quad_wrap_up s)
                    true)
           else inr (s, new_insns ++ [with_tag i "basis_redn"])
         else inl s) with
  | inr next => next
  | inl s => (s, new_insns ++ [i])
  end end end end end.

(** Lines 177-222. *)
Definition tag_stages (quad_iname : string)
    (doF_inames_in_quad_stage : list atom) (instructions : list Insn)
  : Stages * list Insn :=
  fold_left (tag_insn quad_iname doF_inames_in_quad_stage) instructions
            (no_stage_done, []).

(** Lines 171-226: the instructions of the kernel that goes on to the
    metadata, given [kernel.all_inames()], the quadrature iname of line
    111 and [kernel.instructions]. *)
Definition tagged_instructions (all_inames : list string)
    (quad_iname : string) (instructions : list Insn)
  : result (list Insn) :=
  let '(s, new_insns) :=
    tag_stages quad_iname (doF_inames_in_quad_stage all_inames)
               instructions in
  if done_with_basis_reduction s then Ok new_insns
  else Raise AssertionError.

(** *** KernelMetadata.__init__ *)

(** The values of the keyword arguments, by their Python type. *)
#[warnings="-register-all"] Inductive pyvalue : Type :=
| VStr (s : string)
| VInt (z : Z)
| VBool (b : bool)
| VList (l : list pyvalue)
| VSet (l : list pyvalue).

Inductive pytype : Type := Tstr | Tint | Tlist.

(** [isinstance(v, t)]; a [bool] is an [int]. *)
Definition isinstance (v : pyvalue) (t : pytype) : bool :=
  match t, v with
  | Tstr, VStr _ => true
  | Tint, VInt _ => true
  | Tint, VBool _ => true
  | Tlist, VList _ => true
  | _, _ => false
  end.

(** [kwargs[key]] of a dict given by its items. *)
Fixpoint getitem (kwargs : list (string * pyvalue)) (key : string)
  : result pyvalue :=
  match kwargs with
  | [] => Raise KeyError
  | (k, v) :: rest => if String.eqb k key then Ok v else getitem rest key
  end.

Definition assert_ (b : bool) : result unit :=
  if b then Ok tt else Raise AssertionError.

(** [assert isinstance(kwargs[key], t)]. *)
Definition assert_isinstance (kwargs : list (string * pyvalue))
    (key : string) (t : pytype) : result unit :=
  v <- getitem kwargs key ;;
  assert_ (isinstance v t).

(** Lines 85-102; the record keeps the keyword arguments as its
    fields. *)
Definition KernelMetadata__init__ (kwargs : list (string * pyvalue))
  : result (list (string * pyvalue)) :=
  _ <- assert_isinstance kwargs "quad_iname" Tstr ;;
  _ <- assert_isinstance kwargs "inputDoFs" Tlist ;;
  _ <- assert_isinstance kwargs "coords" Tstr ;;
  _ <- assert_isinstance kwargs "outputDoF" Tstr ;;
  _ <- assert_isinstance kwargs "outputDoF_init_iname" Tstr ;;
  _ <- assert_isinstance kwargs "quad_iname_in_quad_stage" Tstr ;;
  _ <- assert_isinstance kwargs "quad_iname_in_basis_stage" Tstr ;;
  _ <- assert_isinstance kwargs "doF_inames_in_quad_stage" Tlist ;;
  _ <- assert_isinstance kwargs "doF_iname_in_basis_stage" Tstr ;;
  _ <- assert_isinstance kwargs "scatter_iname" Tstr ;;
  _ <- assert_isinstance kwargs "nquad" Tint ;;
  _ <- assert_isinstance kwargs "n_inputDoFs" Tlist ;;
  _ <- assert_isinstance kwargs "n_outputDoF" Tint ;;
  _ <- assert_ (length kwargs =? 13)%nat ;;
  Ok kwargs.

(** The keywords the constructor asks for, with the types it asserts. *)
Definition KernelMetadata_fields : list (string * pytype) :=
  [("quad_iname", Tstr); ("inputDoFs", Tlist); ("coords", Tstr);
   ("outputDoF", Tstr); ("outputDoF_init_iname", Tstr);
   ("quad_iname_in_quad_stage", Tstr); ("quad_iname_in_basis_stage", Tstr);
   ("doF_inames_in_quad_stage", Tlist); ("doF_iname_in_basis_stage", Tstr);
   ("scatter_iname", Tstr); ("nquad", Tint); ("n_inputDoFs", Tlist);
   ("n_outputDoF", Tint)].

Definition atom_value (a : atom) : pyvalue :=
  match a with
  | AStr s => VStr s
  | ABool b => VBool b
  end.

(** [kwargs[key] = v]. *)
Fixpoint setitem (kwargs : list (string * pyvalue)) (key : string)
    (v : pyvalue) : list (string * pyvalue) :=
  match kwargs with
  | [] => [(key, v)]
  | (k, x) :: rest =>
      if String.eqb k key then (k, v) :: rest
      else (k, x) :: setitem rest key v
  end.

(** Lines 243-257: the keyword arguments that the inference passes,
    from the values it has computed; [doF_inames_in_quad_stage] is the
    set of line 171. *)
Definition metadata_kwargs (quad_iname : string) (inputDoFs : list string)
    (coords outputDoF : string) (doF_inames_in_quad_stage : list atom)
    (outputDoF_init_iname scatter_iname doF_iname_in_basis_stage : string)
    (nquad : Z) (n_inputDoFs : list Z) (n_outputDoF : Z)
  : list (string * pyvalue) :=
  [("quad_iname", VStr quad_iname);
   ("inputDoFs", VList (map VStr inputDoFs));
   ("coords", VStr coords);
   ("outputDoF", VStr outputDoF);
   ("quad_iname_in_basis_stage", VStr (quad_iname ++ "_basis")%string);
   ("quad_iname_in_quad_stage", VStr (quad_iname ++ "_quad")%string);
   ("doF_inames_in_quad_stage",
    VSet (map atom_value doF_inames_in_quad_stage));
   ("outputDoF_init_iname", VStr outputDoF_init_iname);
   ("scatter_iname", VStr scatter_iname);
   ("doF_iname_in_basis_stage", VStr doF_iname_in_basis_stage);
   ("nquad", VInt nquad);
   ("n_inputDoFs", VList (map VInt n_inputDoFs));
   ("n_outputDoF", VInt n_outputDoF)].

End StageInference.

(** ** AutoTiler: the cached counts *)

(** Some instruction of the kernel that carries the tag reads, or
    writes, the name. *)
Definition read_under {loopy : Loopy} (tag : string) (kernel : LoopKernel)
    (x : string) : Prop :=
  exists insn, In insn (instructions kernel) /\ has_tag tag insn = true /\
               In x (read_dependency_names insn).

Definition written_under {loopy : Loopy} (tag : string)
    (kernel : LoopKernel) (x : string) : Prop :=
  exists insn, In insn (instructions kernel) /\ has_tag tag insn = true /\
               In x (write_dependency_names insn).

Module CachedProperties.

(** What the loop of [num_const_matrices] collects in one of its two
    sets, the one for [tag], starting from [acc]. *)
Definition collected (tag : string) (const_matrices : list string)
    (l : list Instruction) (acc : list string) : list string :=
  fold_left (fun acc insn =>
               if has_tag tag insn
               then set_of (acc ++ set_inter (read_dependency_names insn)
                                             const_matrices)
               else acc) l acc.

Section Counts.

Context {loopy : Loopy}.

(** [tv.initializer.shape] of a temporary with an initializer. *)
Variable initializer_shape : TemporaryVariable -> list Z.

(** Lines 672-674. *)
Definition const_matrices (kernel : LoopKernel) : list string :=
  set_of (map tv_name
              (filter (fun tv => has_initializer tv
                                 && (length (initializer_shape tv) =? 2)%nat)
                      (temporary_variables kernel))).

(** Lines 676-682, the body of the loop; [s.update(t)] is the union. *)
Definition collect_const_matrices (const_matrices : list string)
    (sets : list string * list string) (insn : Instruction)
  : list string * list string :=
  let '(const_matrices_in_quad, const_matrices_in_basis) := sets in
  let const_matrices_in_quad :=
    if has_tag "quadrature" insn
    then set_of (const_matrices_in_quad
                 ++ set_inter (read_dependency_names insn) const_matrices)
    else const_matrices_in_quad in
  let const_matrices_in_basis :=
    if has_tag "basis" insn
    then set_of (const_matrices_in_basis
                 ++ set_inter (read_dependency_names insn) const_matrices)
    else const_matrices_in_basis in
  (const_matrices_in_quad, const_matrices_in_basis).

(** [AutoTiler.num_const_matrices]. *)
Definition num_const_matrices
    (self_fem_program : Program LoopKernel CallablesTable) : Z :=
  let kernel := root_kernel self_fem_program in
  let '(const_matrices_in_quad, const_matrices_in_basis) :=
    fold_left (collect_const_matrices (const_matrices kernel))
              (instructions kernel) ([], []) in
  Z.max (Z.of_nat (length const_matrices_in_quad))
        (Z.of_nat (length const_matrices_in_basis)).

(** [AutoTiler.num_func_eval_vars]. *)
Definition num_func_eval_vars
    (self_fem_program : Program LoopKernel CallablesTable) : Z :=
  let kernel := root_kernel self_fem_program in
  let evaluation_variables :=
    set_inter (names_written_under "quadrature" kernel)
              (names_read_under "basis" kernel) in
  Z.of_nat (length evaluation_variables).

End Counts.

End CachedProperties.

(** * Properties *)

(** ** The error monad *)

Lemma bind_Ok {A B : Type} (m : result A) (k : A -> result B) (b : B) :
  Py.bind m k = Ok b -> exists a, m = Ok a /\ k a = Ok b.
Proof.
  destruct m as [a|e]; simpl; intros H.
  - exists a; split; [reflexivity | exact H].
  - discriminate.
Qed.

Ltac inv_bind H :=
  let a := fresh "v" in
  let Ha := fresh "Hv" in
  apply bind_Ok in H; destruct H as [a [Ha H]].

(** ** Integer ceiling of a quotient *)

Lemma ceiling_quotient_least (a b : Z) :
  0 < b ->
  a <= ceiling_quotient a b * b /\
  forall k, a <= k * b -> ceiling_quotient a b <= k.
Proof.
  intros Hb. unfold ceiling_quotient.
  pose proof (Z.div_mod (a + b - 1) b ltac:(lia)) as Hdm.
  pose proof (Z.mod_pos_bound (a + b - 1) b Hb) as Hm.
  split.
  - nia.
  - intros k Hk.
    apply Z.lt_succ_r. apply Z.div_lt_upper_bound; [lia|]. nia.
Qed.

Lemma ZQ_div_pos (a : Z) (p : positive) :
  (ZQ a / ZQ (Zpos p) == a # p)%Q.
Proof. unfold ZQ. symmetry. apply Qmake_Qdiv. Qed.

Lemma ceil_ZQ_div (a b : Z) :
  0 < b -> ceil (ZQ a / ZQ b) = ceiling_quotient a b.
Proof.
  intros Hb. destruct b as [|p|p]; try lia.
  unfold ceil. rewrite (Qceiling_comp _ _ (ZQ_div_pos a p)).
  unfold Qceiling, Qfloor, Qopp, ceiling_quotient; simpl.
  pose proof (Z.div_mod (- a) (Zpos p) ltac:(lia)) as H1.
  pose proof (Z.mod_pos_bound (- a) (Zpos p) ltac:(lia)) as H2.
  apply Z.div_unique with (r := Z.pos p - 1 - (- a) mod Z.pos p).
  - left. lia.
  - nia.
Qed.

Lemma Qeq_bool_ZQ_nonzero (b : Z) : b <> 0 -> Qeq_bool (ZQ b) 0 = false.
Proof.
  intros Hb. destruct (Qeq_bool (ZQ b) 0) eqn:E; [|reflexivity].
  apply Qeq_bool_eq in E. unfold ZQ, Qeq in E. simpl in E. lia.
Qed.

Lemma ceil_div_pos (a b : Z) :
  0 < b -> ceil_div a b = Ok (ceiling_quotient a b).
Proof.
  intros Hb. unfold ceil_div, truediv.
  rewrite Qeq_bool_ZQ_nonzero by lia. simpl.
  now rewrite ceil_ZQ_div.
Qed.

Lemma ceiling_quotient_nonneg (a b : Z) :
  0 <= a -> 0 < b -> 0 <= ceiling_quotient a b.
Proof.
  intros Ha Hb. unfold ceiling_quotient. apply Z.div_pos; lia.
Qed.

Lemma ceiling_quotient_pos (a b : Z) :
  0 < a -> 0 < b -> 0 < ceiling_quotient a b.
Proof.
  intros Ha Hb. unfold ceiling_quotient.
  apply Z.div_str_pos. lia.
Qed.

Lemma ceiling_quotient_antitone (a b b' : Z) :
  0 <= a -> 0 < b -> b <= b' ->
  ceiling_quotient a b' <= ceiling_quotient a b.
Proof.
  intros Ha Hb Hbb'.
  destruct (ceiling_quotient_least a b Hb) as [H1 _].
  destruct (ceiling_quotient_least a b' ltac:(lia)) as [_ H2].
  apply H2.
  pose proof (ceiling_quotient_nonneg a b Ha Hb). nia.
Qed.

(** ** get_local_barriers *)

Section LocalBarriers.

Context {Program : Type}.
Implicit Type self : AutoTiler Program.

Lemma get_local_barriers_pos self (t1_r t1_c t2_r t2_c : Z) :
  0 < t1_r -> 0 < t1_c -> 0 < t2_r -> 0 < t2_c ->
  get_local_barriers self t1_r t1_c t2_r t2_c
  = Ok (localBarriers self (t1_r, t1_c, t2_r, t2_c)).
Proof.
  intros H1 H2 H3 H4. unfold get_local_barriers.
  rewrite !ceil_div_pos by assumption. reflexivity.
Qed.

(** C4: for positive tile lengths, [get_local_barriers] returns
    ceil(nQuad/t1_r)*ceil(nBasis/t1_c) + ceil(nBasis/t2_r)*ceil(nQuad/t2_c),
    each ceiling being the least integer that reaches the quotient; for
    nQuad=6, nBasis=3 and the tile 6, 3, 3, 6 this is 2. *)
Theorem get_local_barriers_formula self (t1_r t1_c t2_r t2_c : Z) :
  0 < t1_r -> 0 < t1_c -> 0 < t2_r -> 0 < t2_c ->
  get_local_barriers self t1_r t1_c t2_r t2_c
  = Ok (ceiling_quotient (nquad self) t1_r * ceiling_quotient (nbasis self) t1_c
        + ceiling_quotient (nbasis self) t2_r
          * ceiling_quotient (nquad self) t2_c)
  /\ (nquad self = 6 -> nbasis self = 3 ->
      get_local_barriers self 6 3 3 6 = Ok 2).
Proof.
  intros H1 H2 H3 H4. split.
  - now rewrite get_local_barriers_pos.
  - intros Hq Hb. rewrite get_local_barriers_pos by lia.
    unfold localBarriers. rewrite Hq, Hb. reflexivity.
Qed.

Lemma localBarriers_antitone self (a b c d a' b' c' d' : Z) :
  0 <= nquad self -> 0 <= nbasis self ->
  0 < a -> 0 < b -> 0 < c -> 0 < d ->
  a <= a' -> b <= b' -> c <= c' -> d <= d' ->
  no_more_barriers self (a, b, c, d) (a', b', c', d').
Proof.
  intros Hq Hb Ha Hb0 Hc Hd Haa Hbb Hcc Hdd.
  exists (localBarriers self (a, b, c, d)),
         (localBarriers self (a', b', c', d')).
  rewrite !get_local_barriers_pos by lia.
  split; [reflexivity | split; [reflexivity|]].
  unfold localBarriers.
  pose proof (ceiling_quotient_antitone (nquad self) a a' Hq Ha Haa).
  pose proof (ceiling_quotient_antitone (nbasis self) b b' Hb Hb0 Hbb).
  pose proof (ceiling_quotient_antitone (nbasis self) c c' Hb Hc Hcc).
  pose proof (ceiling_quotient_antitone (nquad self) d d' Hq Hd Hdd).
  pose proof (ceiling_quotient_nonneg (nquad self) a' Hq ltac:(lia)).
  pose proof (ceiling_quotient_nonneg (nbasis self) b' Hb ltac:(lia)).
  pose proof (ceiling_quotient_nonneg (nbasis self) c' Hb ltac:(lia)).
  pose proof (ceiling_quotient_nonneg (nquad self) d' Hq ltac:(lia)).
  apply Z.add_le_mono; apply Z.mul_le_mono_nonneg; lia.
Qed.

(** C7: for loop extents nQuad, nBasis >= 0 and positive tile lengths,
    enlarging any one of t1_r, t1_c, t2_r, t2_c while the other three are
    kept never increases the value [get_local_barriers] returns. *)
Theorem get_local_barriers_nonincreasing self (t1_r t1_c t2_r t2_c t' : Z) :
  0 <= nquad self -> 0 <= nbasis self ->
  0 < t1_r -> 0 < t1_c -> 0 < t2_r -> 0 < t2_c ->
  (t1_r <= t' ->
   no_more_barriers self (t1_r, t1_c, t2_r, t2_c) (t', t1_c, t2_r, t2_c)) /\
  (t1_c <= t' ->
   no_more_barriers self (t1_r, t1_c, t2_r, t2_c) (t1_r, t', t2_r, t2_c)) /\
  (t2_r <= t' ->
   no_more_barriers self (t1_r, t1_c, t2_r, t2_c) (t1_r, t1_c, t', t2_c)) /\
  (t2_c <= t' ->
   no_more_barriers self (t1_r, t1_c, t2_r, t2_c) (t1_r, t1_c, t2_r, t')).
Proof.
  intros Hq Hb H1 H2 H3 H4.
  repeat split; intros Hle; apply localBarriers_antitone; lia.
Qed.

End LocalBarriers.

Lemma get_local_barriers_formula_witness :
  get_local_barriers tiler_3_6 6 3 3 6
  = Ok (ceiling_quotient 6 6 * ceiling_quotient 3 3
        + ceiling_quotient 3 3 * ceiling_quotient 6 6)
  /\ get_local_barriers tiler_3_6 6 3 3 6 = Ok 2.
Proof.
  destruct (get_local_barriers_formula tiler_3_6 6 3 3 6
              ltac:(lia) ltac:(lia) ltac:(lia) ltac:(lia)) as [H1 H2].
  split; [exact H1 | apply H2; reflexivity].
Defined.

Lemma get_local_barriers_nonincreasing_witness :
  no_more_barriers tiler_3_6 (2, 1, 1, 2) (3, 1, 1, 2) /\
  no_more_barriers tiler_3_6 (2, 1, 1, 2) (2, 3, 1, 2) /\
  no_more_barriers tiler_3_6 (2, 1, 1, 2) (2, 1, 3, 2) /\
  no_more_barriers tiler_3_6 (2, 1, 1, 2) (2, 1, 1, 3).
Proof.
  destruct (get_local_barriers_nonincreasing tiler_3_6 2 1 1 2 3
              ltac:(simpl; lia) ltac:(simpl; lia)
              ltac:(lia) ltac:(lia) ltac:(lia) ltac:(lia))
    as [H1 [H2 [H3 H4]]].
  repeat split; [apply H1 | apply H2 | apply H3 | apply H4]; lia.
Defined.

(** ** get_work_efficiency *)

Lemma truediv_ZQ (a b : Z) :
  b <> 0 -> truediv (ZQ a) (ZQ b) = Ok (ZQ a / ZQ b)%Q.
Proof.
  intros Hb. unfold truediv. now rewrite Qeq_bool_ZQ_nonzero.
Qed.

Lemma ZQ_pos (b : Z) : 0 < b -> (0 < ZQ b)%Q.
Proof. intros H. unfold ZQ, Qlt; simpl. lia. Qed.

Lemma ZQ_nonneg (a : Z) : 0 <= a -> (0 <= ZQ a)%Q.
Proof. intros H. unfold ZQ, Qle; simpl. lia. Qed.

Lemma ZQ_le (a b : Z) : a <= b -> (ZQ a <= ZQ b)%Q.
Proof. intros H. unfold ZQ, Qle; simpl. lia. Qed.

Lemma ZQ_lt (a b : Z) : a < b -> (ZQ a < ZQ b)%Q.
Proof. intros H. unfold ZQ, Qlt; simpl. lia. Qed.

Lemma ZQ_div_bounds (a b : Z) :
  0 <= a <= b -> 0 < b -> (0 <= ZQ a / ZQ b <= 1)%Q.
Proof.
  intros [Ha Hab] Hb. split.
  - apply Qle_shift_div_l; [now apply ZQ_pos|].
    rewrite Qmult_0_l. now apply ZQ_nonneg.
  - apply Qle_shift_div_r; [now apply ZQ_pos|].
    rewrite Qmult_1_l. now apply ZQ_le.
Qed.

Lemma ZQ_div_lt_1 (a b : Z) :
  0 <= a < b -> (ZQ a / ZQ b < 1)%Q.
Proof.
  intros [Ha Hab].
  apply Qlt_shift_div_r.
  - apply ZQ_pos. lia.
  - rewrite Qmult_1_l. now apply ZQ_lt.
Qed.

Lemma mod__ok (a b : Z) : b <> 0 -> mod_ a b = Ok (a mod b).
Proof. intros H. unfold mod_. destruct (Z.eqb_spec b 0); [lia|reflexivity]. Qed.

Lemma floordiv_ok (a b : Z) : b <> 0 -> floordiv a b = Ok (a / b).
Proof.
  intros H. unfold floordiv. destruct (Z.eqb_spec b 0); [lia|reflexivity].
Qed.

(** The lanes counted as wasted on one matvec never exceed its extent. *)
Lemma wasted_lanes_bounds (n t p : Z) :
  0 <= n -> 0 < t -> 0 < p ->
  0 <= (t mod p) * (n / t) + (n mod t) mod p <= n.
Proof.
  intros Hn Ht Hp.
  pose proof (Z.mod_pos_bound t p Hp) as H1.
  pose proof (Z.mod_le t p ltac:(lia) Hp) as H2.
  pose proof (Z.mod_pos_bound n t Ht) as H3.
  pose proof (Z.mod_pos_bound (n mod t) p Hp) as H4.
  pose proof (Z.mod_le (n mod t) p ltac:(lia) Hp) as H5.
  pose proof (Z.div_pos n t Hn Ht) as H6.
  pose proof (Z.div_mod n t ltac:(lia)) as H7.
  split; nia.
Qed.

Section WorkEfficiency.

Context {Program : Type}.
Implicit Type self : AutoTiler Program.

Lemma wasted_work_bounds self (threads_per_cell t1_r t2_r : Z) :
  0 <= nquad self -> 0 <= nbasis self ->
  0 < threads_per_cell -> 0 < t1_r -> 0 < t2_r ->
  exists ww, wasted_work self threads_per_cell t1_r t2_r = Ok ww /\
             0 <= ww <= 2 * nquad self * nbasis self.
Proof.
  intros Hq Hb Hp H1 H2. unfold wasted_work.
  repeat (rewrite ?mod__ok, ?floordiv_ok by lia; cbn [Py.bind]).
  eexists; split; [reflexivity|].
  pose proof (wasted_lanes_bounds (nquad self) t1_r threads_per_cell Hq H1 Hp).
  pose proof (wasted_lanes_bounds (nbasis self) t2_r threads_per_cell Hb H2 Hp).
  nia.
Qed.

End WorkEfficiency.

Lemma warp_mismatch_factor_bounds (threads_in_block : Z) :
  0 < threads_in_block ->
  exists f, warp_mismatch_factor threads_in_block = Ok f /\
            (0 < f)%Q /\ (f < 1)%Q.
Proof.
  intros HT. unfold warp_mismatch_factor, WARP_SIZE.
  rewrite mod__ok by lia. cbn [Py.bind].
  pose proof (Z.mod_pos_bound threads_in_block 32 ltac:(lia)) as Hm.
  rewrite truediv_ZQ by lia.
  eexists; split; [reflexivity|]. split.
  - apply Qlt_shift_div_l.
    + apply ZQ_pos. lia.
    + rewrite Qmult_0_l. now apply ZQ_pos.
  - apply ZQ_div_lt_1. lia.
Qed.

(** C5 (the code at the input of the claim): with 32 threads per cell
    and one cell per block, the warp-fill ratio that
    [get_work_efficiency] computes is 32/(32+32) = 1/2, not 1. *)
Theorem warp_mismatch_factor_32_1 :
  exists f, warp_mismatch_factor (32 * 1) = Ok f /\
            (f == 1 # 2)%Q /\ ~ (f == 1)%Q.
Proof.
  eexists. split; [vm_compute; reflexivity|].
  split; [reflexivity|]. unfold Qeq; simpl. lia.
Qed.

(** The same value in binary64. *)
Lemma binary64_warp_fill_32_1 :
  Binary64.warp_fill_ratio (32 * 1) = 0.5%float.
Proof. vm_compute. reflexivity. Qed.

Section WorkEfficiencyBounds.

Context {Program : Type}.
Implicit Type self : AutoTiler Program.

Lemma get_work_efficiency_value self (cfg : TilingConfiguration) :
  0 < nquad self -> 0 < nbasis self -> all_dimensions_positive cfg ->
  exists ww f,
    wasted_work self (nthreads_per_cell cfg) (matvec1_row_tile_length cfg)
                (matvec2_row_tile_length cfg) = Ok ww /\
    0 <= ww <= 2 * nquad self * nbasis self /\
    warp_mismatch_factor (nthreads_per_cell cfg * ncells_per_block cfg) = Ok f /\
    (0 < f)%Q /\ (f < 1)%Q /\
    get_work_efficiency self cfg
    = Ok (f * (1 - ZQ ww / ZQ (2 * nquad self * nbasis self)))%Q.
Proof.
  intros Hq Hb (Hc & Ht & H1 & _ & H2 & _).
  destruct (wasted_work_bounds self (nthreads_per_cell cfg)
              (matvec1_row_tile_length cfg) (matvec2_row_tile_length cfg))
    as [ww [Hww Hbnd]]; try lia.
  destruct (warp_mismatch_factor_bounds
              (nthreads_per_cell cfg * ncells_per_block cfg))
    as [f [Hf [Hf0 Hf1]]]; [nia|].
  exists ww, f. repeat split; try assumption; try lia.
  unfold get_work_efficiency. rewrite Hww. cbn [Py.bind].
  rewrite truediv_ZQ by nia. cbn [Py.bind].
  rewrite Hf. reflexivity.
Qed.

(** C6, amended: for nQuad, nBasis > 0 and a configuration whose six
    integer fields are positive, [get_work_efficiency] returns a value
    that is at least 0 and at most 1. *)
Theorem get_work_efficiency_bounds self (cfg : TilingConfiguration) :
  0 < nquad self -> 0 < nbasis self -> all_dimensions_positive cfg ->
  exists e, get_work_efficiency self cfg = Ok e /\ (0 <= e)%Q /\ (e <= 1)%Q.
Proof.
  intros Hq Hb Hcfg.
  destruct (get_work_efficiency_value self cfg Hq Hb Hcfg)
    as (ww & f & _ & Hbnd & _ & Hf0 & Hf1 & He).
  eexists; split; [exact He|].
  destruct (ZQ_div_bounds ww (2 * nquad self * nbasis self) Hbnd ltac:(nia))
    as [Hw0 Hw1].
  set (w := (ZQ ww / ZQ (2 * nquad self * nbasis self))%Q) in *.
  split; nra.
Qed.

End WorkEfficiencyBounds.

(** C6, as stated, fails: with nQuad=6, nBasis=3, nine threads per cell,
    seven cells per block and the tile 6, 3, 3, 6 every lane counts as
    wasted and the efficiency is 0. *)
Lemma get_work_efficiency_can_be_zero :
  all_dimensions_positive config_9_7 /\
  1 <= nthreads_per_cell config_9_7 /\ 1 <= ncells_per_block config_9_7 /\
  exists e, get_work_efficiency tiler_3_6 config_9_7 = Ok e /\
            (e == 0)%Q /\ ~ (0 < e)%Q.
Proof.
  split; [unfold all_dimensions_positive; simpl; lia|].
  split; [simpl; lia|]. split; [simpl; lia|].
  eexists. split; [vm_compute; reflexivity|].
  split; [reflexivity|]. unfold Qlt; simpl. lia.
Qed.

(** The same value in binary64. *)
Lemma binary64_work_efficiency_zero :
  Binary64.work_efficiency tiler_3_6 config_9_7 = 0%float.
Proof. vm_compute. reflexivity. Qed.

Lemma get_work_efficiency_bounds_witness :
  exists e, get_work_efficiency tiler_3_6 config_9_7 = Ok e /\
            (0 <= e)%Q /\ (e <= 1)%Q.
Proof.
  apply (get_work_efficiency_bounds tiler_3_6 config_9_7).
  - simpl; lia.
  - simpl; lia.
  - unfold all_dimensions_positive; simpl; lia.
Defined.

(** ** TilingConfiguration *)

(** C2, as stated, fails: a configuration whose integer fields are zero
    or negative is constructed without an error. *)
Lemma TilingConfiguration_accepts_nonpositive :
  exists c,
    TilingConfiguration__init__ 0 (-1) 0 0 0 0
      false false false false false false = Ok c /\
    ~ all_dimensions_positive c.
Proof.
  eexists. split; [reflexivity|].
  unfold all_dimensions_positive; simpl. lia.
Qed.

(** C2, amended: constructing a TilingConfiguration never fails and
    checks nothing; the twelve arguments are stored as given, the tile
    lengths under the names matvec1_row_tile_length,
    matvec1_col_tile_length, matvec2_row_tile_length and
    matvec2_col_tile_length. *)
Theorem TilingConfiguration_init_stores
    (nc nt t1_r t1_c t2_r t2_c : Z) (f1 f2 f3 f4 f5 f6 : bool) :
  exists c,
    TilingConfiguration__init__ nc nt t1_r t1_c t2_r t2_c f1 f2 f3 f4 f5 f6
    = Ok c /\
    ncells_per_block c = nc /\ nthreads_per_cell c = nt /\
    tile_of c = (t1_r, t1_c, t2_r, t2_c) /\
    staging_flags c = [f1; f2; f3; f4; f5; f6].
Proof.
  eexists. split; [reflexivity|]. repeat split.
Qed.

(** ** estimated_exec_time *)

Section ExecTime.

Context {Program : Type}.
Implicit Type self : AutoTiler Program.

Lemma Qeq_bool_false_neq (x y : Q) : Qeq_bool x y = false -> ~ (x == y)%Q.
Proof.
  intros H E. apply Qeq_eq_bool in E. congruence.
Qed.

Lemma Qeq_bool_neq_false (x y : Q) : ~ (x == y)%Q -> Qeq_bool x y = false.
Proof.
  intros H. destruct (Qeq_bool x y) eqn:E; [|reflexivity].
  apply Qeq_bool_eq in E. contradiction.
Qed.

Lemma shared_usage_positive self (cfg : TilingConfiguration) :
  0 < nquad self -> 0 <= num_const_matrices self ->
  0 <= num_func_eval_vars self -> all_dimensions_positive cfg ->
  0 < num_const_matrices self
      * pymax (matvec1_row_tile_length cfg * matvec1_col_tile_length cfg)
              (matvec2_row_tile_length cfg * matvec2_col_tile_length cfg)
      + nquad self
      + num_func_eval_vars self * nquad self * ncells_per_block cfg.
Proof.
  intros Hq Hm Hf (Hc & Ht & H1 & H2 & H3 & H4).
  assert (0 <= pymax (matvec1_row_tile_length cfg * matvec1_col_tile_length cfg)
                     (matvec2_row_tile_length cfg * matvec2_col_tile_length cfg)).
  { unfold pymax. destruct (Z.ltb_spec
      (matvec1_row_tile_length cfg * matvec1_col_tile_length cfg)
      (matvec2_row_tile_length cfg * matvec2_col_tile_length cfg)); nia. }
  nia.
Qed.

Lemma theoretical_warps_per_sm_returns self (cfg : TilingConfiguration) :
  0 < nquad self -> 0 <= num_const_matrices self ->
  0 <= num_func_eval_vars self -> all_dimensions_positive cfg ->
  exists w, theoretical_warps_per_sm self cfg = Ok w.
Proof.
  intros Hq Hm Hf Hcfg.
  pose proof (shared_usage_positive self cfg Hq Hm Hf Hcfg) as Hs.
  unfold theoretical_warps_per_sm.
  set (su := num_const_matrices self * _ + nquad self + _) in *.
  unfold truediv at 1. change (Qeq_bool 32 0) with false. cbn [Py.bind].
  destruct (Qlt_le_dec (ZQ su * (8 # 1000)) 48).
  - unfold floordiv_float. rewrite Qeq_bool_neq_false.
    + cbn [Py.bind]. eexists; reflexivity.
    + intros E. pose proof (ZQ_pos su Hs). nra.
  - cbn [Py.bind]. eexists; reflexivity.
Qed.

Lemma exec_time_quotient (n_w : Q) (n_lb d : Z) :
  ~ (n_w == 0)%Q -> 0 < d ->
  (n_blocks <- truediv (n_w * 32)%Q (ZQ d) ;;
   t <- truediv (ZQ n_lb) n_blocks ;; Ok (Fin t))
  = Ok (Fin (ZQ n_lb / ((n_w * 32) / ZQ d))%Q).
Proof.
  intros E Hd0.
  unfold truediv at 1. rewrite Qeq_bool_ZQ_nonzero by lia.
  cbn [Py.bind]. unfold truediv.
  rewrite Qeq_bool_neq_false; [reflexivity|].
  intros E0. apply E.
  assert (Hd : (0 < ZQ d)%Q) by (now apply ZQ_pos).
  assert (Hm32 : (n_w * 32 == 0)%Q).
  { transitivity (ZQ d * (n_w * 32 / ZQ d))%Q.
    - symmetry. apply Qmult_div_r. lra.
    - rewrite E0. ring. }
  lra.
Qed.

(** C8: for nQuad, nBasis > 0 and a configuration whose six integer
    fields are positive, [estimated_exec_time] returns infinity when the
    effective occupancy n_w (theoretical warps per SM times work
    efficiency) is zero, and otherwise the finite value
    n_lb / ((n_w * 32) / (n_t * n_c)), n_lb being the local-barrier
    count; so it returns infinity exactly when n_w is zero. *)
Theorem estimated_exec_time_cases self (cfg : TilingConfiguration) :
  0 < nquad self -> 0 < nbasis self ->
  0 <= num_const_matrices self -> 0 <= num_func_eval_vars self ->
  all_dimensions_positive cfg ->
  exists tw eff n_lb,
    theoretical_warps_per_sm self cfg = Ok tw /\
    get_work_efficiency self cfg = Ok eff /\
    get_local_barriers self
      (matvec1_row_tile_length cfg) (matvec1_col_tile_length cfg)
      (matvec2_row_tile_length cfg) (matvec2_col_tile_length cfg) = Ok n_lb /\
    (((tw * eff == 0)%Q /\ estimated_exec_time self cfg = Ok PInf)
     \/
     (~ (tw * eff == 0)%Q /\
      estimated_exec_time self cfg
      = Ok (Fin (ZQ n_lb
                 / ((tw * eff * 32)
                    / ZQ (nthreads_per_cell cfg * ncells_per_block cfg)))%Q))).
Proof.
  intros Hq Hb Hm Hf Hcfg.
  destruct (theoretical_warps_per_sm_returns self cfg Hq Hm Hf Hcfg)
    as [tw Htw].
  destruct (get_work_efficiency_value self cfg Hq Hb Hcfg)
    as (ww & f & _ & _ & _ & _ & _ & Heff).
  set (eff := (f * (1 - ZQ ww / ZQ (2 * nquad self * nbasis self)))%Q) in *.
  pose proof Hcfg as (Hc & Ht & H1 & H2 & H3 & H4).
  exists tw, eff, (localBarriers self (tile_of cfg)).
  split; [exact Htw|]. split; [exact Heff|].
  split; [now apply get_local_barriers_pos|].
  unfold estimated_exec_time, actual_warps_per_sm.
  rewrite Htw, Heff. cbn [Py.bind].
  destruct (Qeq_bool (tw * eff) 0) eqn:E.
  - left. split; [now apply Qeq_bool_eq | reflexivity].
  - right. apply Qeq_bool_false_neq in E. split; [exact E|].
    rewrite get_local_barriers_pos by assumption. cbn [Py.bind].
    apply exec_time_quotient; [exact E | nia].
Qed.

End ExecTime.

Lemma estimated_exec_time_cases_witness :
  exists tw eff n_lb,
    theoretical_warps_per_sm tiler_3_6 config_9_7 = Ok tw /\
    get_work_efficiency tiler_3_6 config_9_7 = Ok eff /\
    get_local_barriers tiler_3_6 6 3 3 6 = Ok n_lb /\
    (((tw * eff == 0)%Q /\ estimated_exec_time tiler_3_6 config_9_7 = Ok PInf)
     \/
     (~ (tw * eff == 0)%Q /\
      estimated_exec_time tiler_3_6 config_9_7
      = Ok (Fin (ZQ n_lb / ((tw * eff * 32) / ZQ (9 * 7)))%Q))).
Proof.
  apply (estimated_exec_time_cases tiler_3_6 config_9_7).
  - simpl; lia.
  - simpl; lia.
  - simpl; lia.
  - simpl; lia.
  - unfold all_dimensions_positive; simpl; lia.
Defined.

(** ** Loops, comprehensions and sorting *)

Section Loops.

Context {A S : Type}.
Variable P : S -> Prop.
Variable body : A -> S -> result S.

Lemma for_each_preserves (l : list A) :
  (forall x s s', In x l -> P s -> body x s = Ok s' -> P s') ->
  forall s s', P s -> for_each l body s = Ok s' -> P s'.
Proof.
  induction l as [|x l IH]; intros Hstep s s' Hs Hrun; simpl in Hrun.
  - now inversion Hrun; subst.
  - inv_bind Hrun.
    apply (IH (fun y t t' Hy => Hstep y t t' (or_intror Hy)) v s'); auto.
    apply (Hstep x s v); auto. now left.
Qed.

Lemma for_each_returns (l : list A) :
  (forall x s, In x l -> P s -> exists s', body x s = Ok s' /\ P s') ->
  forall s, P s -> exists s', for_each l body s = Ok s' /\ P s'.
Proof.
  induction l as [|x l IH]; intros Hstep s Hs; simpl.
  - exists s. now split.
  - destruct (Hstep x s (or_introl eq_refl) Hs) as [s1 [H1 Hs1]].
    rewrite H1. cbn [Py.bind].
    apply IH; auto. intros y t Hy. apply Hstep. now right.
Qed.

End Loops.

Section MapResult.

Context {A B : Type}.
Variable f : A -> result B.

Lemma map_result_Forall2 (l : list A) (ks : list B) :
  map_result f l = Ok ks -> Forall2 (fun x k => f x = Ok k) l ks.
Proof.
  revert ks. induction l as [|x l IH]; intros ks H; simpl in H.
  - inversion H; subst. constructor.
  - inv_bind H. inv_bind H. inversion H; subst.
    constructor; auto.
Qed.

Lemma Forall2_map_result (l : list A) (ks : list B) :
  Forall2 (fun x k => f x = Ok k) l ks -> map_result f l = Ok ks.
Proof.
  induction 1 as [|x k l ks Hx _ IH]; simpl.
  - reflexivity.
  - rewrite Hx. cbn [Py.bind]. rewrite IH. reflexivity.
Qed.

Lemma map_result_returns (l : list A) :
  Forall (fun x => exists k, f x = Ok k) l -> exists ks, map_result f l = Ok ks.
Proof.
  induction 1 as [|x l [k Hk] _ [ks IH]]; simpl.
  - eexists; reflexivity.
  - rewrite Hk. cbn [Py.bind]. rewrite IH. eexists; reflexivity.
Qed.

Lemma Forall2_combine_keys (l : list A) (ks : list B) :
  Forall2 (fun x k => f x = Ok k) l ks ->
  Forall (fun p => f (snd p) = Ok (fst p)) (combine ks l) /\
  map snd (combine ks l) = l.
Proof.
  induction 1 as [|x k l ks Hx _ [IH1 IH2]]; simpl.
  - split; [constructor | reflexivity].
  - split; [constructor; auto | now rewrite IH2].
Qed.

Lemma keyed_map_result (s : list (B * A)) :
  Forall (fun p => f (snd p) = Ok (fst p)) s ->
  map_result f (map snd s) = Ok (map fst s).
Proof.
  induction 1 as [|p s Hp _ IH]; simpl.
  - reflexivity.
  - rewrite Hp. cbn [Py.bind]. rewrite IH. reflexivity.
Qed.

End MapResult.

Section StableSort.

Context {K A : Type}.
Variable ltb : K -> K -> bool.
Variable le : K -> K -> Prop.
Hypothesis ltb_true_le : forall a b, ltb a b = true -> le a b.
Hypothesis ltb_false_le : forall a b, ltb a b = false -> le b a.

Let key_le (p q : K * A) : Prop := le (fst p) (fst q).

Lemma insert_by_perm (x : K * A) (l : list (K * A)) :
  Permutation (insert_by ltb x l) (x :: l).
Proof.
  induction l as [|y l IH]; simpl.
  - apply Permutation_refl.
  - destruct (ltb (fst y) (fst x)).
    + eapply perm_trans; [apply perm_skip, IH | apply perm_swap].
    + apply Permutation_refl.
Qed.

Lemma sort_keyed_perm (l : list (K * A)) :
  Permutation (sort_keyed ltb l) l.
Proof.
  induction l as [|x l IH]; simpl.
  - apply perm_nil.
  - eapply perm_trans; [apply insert_by_perm | apply perm_skip, IH].
Qed.

Lemma insert_by_sorted (x : K * A) (l : list (K * A)) :
  Sorted key_le l -> Sorted key_le (insert_by ltb x l).
Proof.
  induction 1 as [|y l Hl IH Hhd]; simpl.
  - repeat constructor.
  - destruct (ltb (fst y) (fst x)) eqn:E.
    + constructor; [exact IH|].
      destruct l as [|z l]; simpl.
      * constructor. now apply ltb_true_le.
      * destruct (ltb (fst z) (fst x)).
        -- constructor. now inversion Hhd.
        -- constructor. now apply ltb_true_le.
    + constructor.
      * now constructor.
      * constructor. now apply ltb_false_le.
Qed.

Lemma sort_keyed_sorted (l : list (K * A)) :
  Sorted key_le (sort_keyed ltb l).
Proof.
  induction l as [|x l IH]; simpl.
  - constructor.
  - now apply insert_by_sorted.
Qed.

Lemma sorted_keys (s : list (K * A)) :
  Sorted key_le s -> Sorted le (map fst s).
Proof.
  induction 1 as [|p s Hs IH Hhd]; simpl.
  - constructor.
  - constructor; [exact IH|].
    destruct Hhd; simpl; constructor; assumption.
Qed.

(** A list sorted in place with [key] is a rearrangement of the list it
    was, every key is defined on it, and the keys ascend. *)
Lemma list_sort_sorted (key : A -> result K) (l l' : list A) :
  list_sort ltb key l = Ok l' ->
  Permutation l' l /\
  exists ks', map_result key l' = Ok ks' /\ Sorted le ks'.
Proof.
  unfold list_sort. intros H. inv_bind H. inversion H; subst; clear H.
  apply map_result_Forall2 in Hv.
  destruct (Forall2_combine_keys key l v Hv) as [Hall Hsnd].
  pose proof (sort_keyed_perm (combine v l)) as Hperm.
  split.
  - rewrite <- Hsnd at 2. now apply Permutation_map.
  - exists (map fst (sort_keyed ltb (combine v l))). split.
    + apply keyed_map_result.
      eapply Permutation_Forall; [apply Permutation_sym, Hperm | exact Hall].
    + apply sorted_keys, sort_keyed_sorted.
Qed.

Lemma list_sort_returns (key : A -> result K) (l : list A) :
  Forall (fun x => exists k, key x = Ok k) l ->
  exists l', list_sort ltb key l = Ok l'.
Proof.
  intros H. destruct (map_result_returns key l H) as [ks Hks].
  unfold list_sort. rewrite Hks. cbn [Py.bind]. eexists; reflexivity.
Qed.

End StableSort.

Lemma flt_ltb_true_le (a b : pyfloat) : flt_ltb a b = true -> flt_le a b.
Proof.
  destruct a as [x|], b as [y|]; simpl; try discriminate; auto.
  destruct (Qlt_le_dec x y); [intros _; lra | discriminate].
Qed.

Lemma flt_ltb_false_le (a b : pyfloat) : flt_ltb a b = false -> flt_le b a.
Proof.
  destruct a as [x|], b as [y|]; simpl; try discriminate; auto.
  destruct (Qlt_le_dec x y); [discriminate | auto].
Qed.

Lemma flt_le_trans (a b c : pyfloat) : flt_le a b -> flt_le b c -> flt_le a c.
Proof.
  destruct a as [x|], b as [y|], c as [z|]; simpl; auto; try tauto.
  intros; lra.
Qed.

Lemma In_firstn_In {A : Type} (n : nat) (l : list A) (x : A) :
  In x (firstn n l) -> In x l.
Proof.
  revert n. induction l as [|y l IH]; intros [|m]; simpl; try tauto.
  intros [H|H]; [now left | right; eauto].
Qed.

Lemma StronglySorted_firstn {A : Type} (R : A -> A -> Prop) (n : nat)
    (l : list A) :
  StronglySorted R l -> StronglySorted R (firstn n l).
Proof.
  intros H. revert n.
  induction H as [|x l Hl IH Hx]; intros [|m]; simpl; try constructor.
  - apply IH.
  - apply Forall_forall. intros y Hy.
    apply In_firstn_In in Hy. rewrite Forall_forall in Hx. auto.
Qed.

Lemma map_result_firstn {A B : Type} (f : A -> result B) (n : nat)
    (l : list A) (ks : list B) :
  map_result f l = Ok ks -> map_result f (firstn n l) = Ok (firstn n ks).
Proof.
  intros H. apply Forall2_map_result. apply map_result_Forall2 in H.
  revert n. induction H; intros [|m]; simpl; constructor; auto.
Qed.

Lemma slice_to_firstn {A : Type} (n : Z) (l : list A) :
  exists m, slice_to n l = firstn m l /\ (0 <= n -> Z.of_nat m = n).
Proof.
  unfold slice_to. destruct (Z.ltb_spec n 0).
  - eexists; split; [reflexivity | lia].
  - exists (Z.to_nat n). split; [reflexivity | lia].
Qed.

(** ** get_candiate_configs *)

Section CandidateSearch.

Context {Program : Type}.
Implicit Type self : AutoTiler Program.

Lemma candidate_config_flags (cells threads : Z) (tile : Tile)
    (c : TilingConfiguration) :
  candidate_config cells threads tile = Ok c ->
  staging_flags c = search_flags /\
  ncells_per_block c = cells /\ nthreads_per_cell c = threads /\
  tile_of c = tile.
Proof.
  destruct tile as [[[t1_r t1_c] t2_r] t2_c]. unfold candidate_config.
  intros H. inversion H; subst. repeat split.
Qed.

Lemma enumerate_params_flags self (tiles : list Tile)
    (params : list TilingConfiguration) :
  enumerate_params self tiles = Ok params ->
  Forall (fun c => staging_flags c = search_flags) params.
Proof.
  unfold enumerate_params.
  apply (for_each_preserves
           (Forall (fun c => staging_flags c = search_flags))); [|constructor].
  intros tile ps ps' _ Hps.
  apply (for_each_preserves
           (Forall (fun c => staging_flags c = search_flags))); [|exact Hps].
  intros [threads cells_options] qs qs' _ Hqs Hbody.
  inv_bind Hbody. destruct (v =? 10000).
  - now inversion Hbody; subst.
  - inv_bind Hbody. inversion Hbody; subst.
    apply Forall_app. split; [exact Hqs|].
    constructor; [|constructor].
    now apply candidate_config_flags in Hv0.
Qed.

Lemma get_candiate_configs_inv self (cands : list TilingConfiguration) :
  get_candiate_configs self = Ok cands ->
  exists tiles params sorted,
    enumerate_params self tiles = Ok params /\
    list_sort flt_ltb (estimated_exec_time self) params = Ok sorted /\
    cands = slice_to (num_candidate_knls self) sorted.
Proof.
  unfold get_candiate_configs. intros H.
  inv_bind H. inv_bind H. inv_bind H. inv_bind H.
  inversion H; subst. eauto 6.
Qed.

(** C10: every configuration that [get_candiate_configs] returns has
    the staging flags False, False, True, True, False, False (coordinates,
    input, matrices, quadrature weights, tiled input prefetch, tiled
    weight prefetch): the search varies only the cell and thread counts
    and the four tile lengths. *)
Theorem get_candiate_configs_flags self (cands : list TilingConfiguration)
    (c : TilingConfiguration) :
  get_candiate_configs self = Ok cands ->
  In c cands ->
  staging_flags c = [false; false; true; true; false; false] /\
  candidate_config (ncells_per_block c) (nthreads_per_cell c) (tile_of c)
  = Ok c.
Proof.
  intros Hrun Hin.
  destruct (get_candiate_configs_inv self cands Hrun)
    as (tiles & params & sorted & Hparams & Hsort & ->).
  apply enumerate_params_flags in Hparams.
  destruct (list_sort_sorted flt_ltb flt_le flt_ltb_true_le flt_ltb_false_le
              _ _ _ Hsort) as [Hperm _].
  destruct (slice_to_firstn (num_candidate_knls self) sorted) as [m [Hm _]].
  rewrite Hm in Hin. apply In_firstn_In in Hin.
  assert (Hc : staging_flags c = search_flags).
  { eapply Permutation_Forall in Hparams; [|apply Permutation_sym, Hperm].
    rewrite Forall_forall in Hparams. now apply Hparams. }
  split; [exact Hc|].
  destruct c; unfold staging_flags, search_flags in Hc; simpl in *.
  inversion Hc; subst. reflexivity.
Qed.

Lemma get_candiate_configs_sorted_prefix self
    (cands : list TilingConfiguration) :
  get_candiate_configs self = Ok cands ->
  0 <= num_candidate_knls self ->
  Z.of_nat (length cands) <= num_candidate_knls self /\
  exists times,
    map_result (estimated_exec_time self) cands = Ok times /\
    StronglySorted flt_le times.
Proof.
  intros Hrun HN.
  destruct (get_candiate_configs_inv self cands Hrun)
    as (tiles & params & sorted & _ & Hsort & ->).
  destruct (list_sort_sorted flt_ltb flt_le flt_ltb_true_le flt_ltb_false_le
              _ _ _ Hsort) as [_ [ks [Hks Hsorted]]].
  destruct (slice_to_firstn (num_candidate_knls self) sorted) as [m [Hm Hmn]].
  rewrite Hm. split.
  - pose proof (firstn_le_length m sorted). specialize (Hmn HN). lia.
  - exists (firstn m ks). split.
    + now apply map_result_firstn.
    + apply StronglySorted_firstn. apply Sorted_StronglySorted; auto.
      intros x y z. apply flt_le_trans.
Qed.

End CandidateSearch.

(** ** The search returns *)

Lemma In_range (lo hi i : Z) : In i (range lo hi) -> lo <= i < hi.
Proof.
  unfold range. rewrite in_map_iff. intros [k [<- Hk]].
  apply in_seq in Hk. lia.
Qed.

Lemma ceil_sqrt_nonneg (n : Z) : 0 <= n -> ceil_sqrt n = Ok (Z.sqrt_up n).
Proof.
  intros H. unfold ceil_sqrt. destruct (Z.ltb_spec n 0); [lia|reflexivity].
Qed.

Lemma sqrt_up_pos_inv (n : Z) : 0 < Z.sqrt_up n -> 0 < n.
Proof.
  intros H. destruct (Z_lt_le_dec 0 n) as [Hn|Hn]; [exact Hn|].
  rewrite Z.sqrt_up_eqn0 in H by exact Hn. lia.
Qed.

Lemma threads_to_cells_positive :
  Forall (fun entry => 0 < fst entry /\ Forall (fun c => 0 < c) (snd entry))
         threads_to_cells.
Proof.
  unfold threads_to_cells.
  repeat (constructor; simpl; try lia).
Qed.

Section SearchReturns.

Context {Program : Type}.
Implicit Type self : AutoTiler Program.

Lemma estimated_exec_time_returns self (cfg : TilingConfiguration) :
  0 <= num_const_matrices self -> 0 <= num_func_eval_vars self ->
  config_ok self cfg ->
  exists t, estimated_exec_time self cfg = Ok t.
Proof.
  intros Hm Hf [Hcfg [Hq Hb]].
  destruct (theoretical_warps_per_sm_returns self cfg Hq Hm Hf Hcfg)
    as [tw Htw].
  destruct (get_work_efficiency_value self cfg Hq Hb Hcfg)
    as (ww & f & _ & _ & _ & _ & _ & Heff).
  pose proof Hcfg as (Hc & Ht & H1 & H2 & H3 & H4).
  unfold estimated_exec_time, actual_warps_per_sm.
  rewrite Htw, Heff. cbn [Py.bind].
  destruct (Qeq_bool _ 0) eqn:E.
  - eexists; reflexivity.
  - apply Qeq_bool_false_neq in E.
    rewrite get_local_barriers_pos by assumption. cbn [Py.bind].
    rewrite exec_time_quotient; [eexists; reflexivity | exact E | nia].
Qed.

Lemma candidate_config_ok self (cells threads : Z) (tile : Tile) :
  0 < cells -> 0 < threads -> tile_ok self tile ->
  exists c, candidate_config cells threads tile = Ok c /\ config_ok self c.
Proof.
  destruct tile as [[[t1_r t1_c] t2_r] t2_c].
  intros Hc Ht (H1 & H2 & H3 & H4 & Hq & Hb).
  eexists. split; [reflexivity|].
  unfold config_ok, all_dimensions_positive; simpl. lia.
Qed.

Lemma footprints_close_returns (t1_r t1_c t2_r t2_c : Z) :
  0 < t1_r -> 0 < t1_c -> 0 < t2_r -> 0 < t2_c ->
  exists b, footprints_close t1_r t1_c t2_r t2_c = Ok b.
Proof.
  intros H1 H2 H3 H4. unfold footprints_close.
  rewrite truediv_ZQ.
  - cbn [Py.bind]. eexists; reflexivity.
  - unfold pymax. destruct (Z.ltb_spec (t1_r * t1_c) (t2_c * t2_r)); nia.
Qed.

Lemma enumerate_tiles_returns self :
  0 <= nquad self -> 0 <= nbasis self ->
  exists tiles, enumerate_tiles self = Ok tiles /\
                Forall (tile_ok self) tiles.
Proof.
  intros Hq Hb. unfold enumerate_tiles.
  rewrite ?(ceil_sqrt_nonneg _ Hb), ?(ceil_sqrt_nonneg _ Hq). cbn [Py.bind].
  apply (for_each_returns (Forall (tile_ok self))); [|constructor].
  intros i tiles Hi Htiles. apply In_range in Hi.
  assert (Hb' : 0 < nbasis self) by (apply sqrt_up_pos_inv; lia).
  rewrite ceil_div_pos by lia. cbn [Py.bind].
  apply (for_each_returns (Forall (tile_ok self))); [|exact Htiles].
  clear tiles Htiles. intros j tiles Hj Htiles. apply In_range in Hj.
  assert (Hq' : 0 < nquad self) by (apply sqrt_up_pos_inv; lia).
  rewrite ceil_div_pos by lia. cbn [Py.bind].
  apply (for_each_returns (Forall (tile_ok self))); [|exact Htiles].
  clear tiles Htiles. intros k tiles Hk Htiles. apply In_range in Hk.
  rewrite ceil_div_pos by lia. cbn [Py.bind].
  apply (for_each_returns (Forall (tile_ok self))); [|exact Htiles].
  clear tiles Htiles. intros l tiles Hl Htiles. apply In_range in Hl.
  rewrite ceil_div_pos by lia. cbn [Py.bind].
  pose proof (ceiling_quotient_pos (nbasis self) i Hb' ltac:(lia)) as P1.
  pose proof (ceiling_quotient_pos (nquad self) j Hq' ltac:(lia)) as P2.
  pose proof (ceiling_quotient_pos (nbasis self) k Hb' ltac:(lia)) as P3.
  pose proof (ceiling_quotient_pos (nquad self) l Hq' ltac:(lia)) as P4.
  destruct (footprints_close_returns _ _ _ _ P2 P1 P3 P4) as [b Hclose].
  rewrite Hclose. cbn [Py.bind].
  eexists. split; [reflexivity|].
  destruct b; [|exact Htiles].
  apply Forall_app. split; [exact Htiles|].
  constructor; [|constructor]. unfold tile_ok. lia.
Qed.

Lemma choose_best_cells_returns self (tile : Tile) (threads : Z)
    (cells_options : list Z) :
  0 <= num_const_matrices self -> 0 <= num_func_eval_vars self ->
  tile_ok self tile -> 0 < threads ->
  Forall (fun c => 0 < c) cells_options ->
  exists best, choose_best_cells self tile threads cells_options = Ok best /\
               0 < best.
Proof.
  intros Hm Hf Htile Ht Hcells. unfold choose_best_cells.
  apply (for_each_returns (fun b => 0 < b)); [|lia].
  intros cells best Hin Hbest.
  rewrite Forall_forall in Hcells. specialize (Hcells cells Hin).
  destruct (candidate_config_ok self cells threads tile Hcells Ht Htile)
    as [c1 [Hc1 Hok1]].
  destruct (candidate_config_ok self best threads tile Hbest Ht Htile)
    as [c2 [Hc2 Hok2]].
  destruct (estimated_exec_time_returns self c1 Hm Hf Hok1) as [e1 He1].
  destruct (estimated_exec_time_returns self c2 Hm Hf Hok2) as [e2 He2].
  rewrite Hc1. cbn [Py.bind]. rewrite He1. cbn [Py.bind].
  rewrite Hc2. cbn [Py.bind]. rewrite He2. cbn [Py.bind].
  eexists. split; [reflexivity|]. destruct (flt_ltb e1 e2); assumption.
Qed.

Lemma enumerate_params_returns self (tiles : list Tile) :
  0 <= num_const_matrices self -> 0 <= num_func_eval_vars self ->
  Forall (tile_ok self) tiles ->
  exists params, enumerate_params self tiles = Ok params /\
                 Forall (config_ok self) params.
Proof.
  intros Hm Hf Htiles. unfold enumerate_params.
  apply (for_each_returns (Forall (config_ok self))); [|constructor].
  intros tile params Hin Hparams.
  rewrite Forall_forall in Htiles. specialize (Htiles tile Hin).
  apply (for_each_returns (Forall (config_ok self))); [|exact Hparams].
  clear params Hparams. intros [threads cells_options] params Hentry Hparams.
  pose proof threads_to_cells_positive as Htab.
  rewrite Forall_forall in Htab. destruct (Htab _ Hentry) as [Ht Hcells].
  simpl in Ht, Hcells.
  destruct (choose_best_cells_returns self tile threads cells_options
              Hm Hf Htiles Ht Hcells) as [best [Hbest Hpos]].
  rewrite Hbest. cbn [Py.bind].
  destruct (best =? 10000).
  - eexists. split; [reflexivity | exact Hparams].
  - destruct (candidate_config_ok self best threads tile Hpos Ht Htiles)
      as [c [Hc Hok]].
    rewrite Hc. cbn [Py.bind].
    eexists. split; [reflexivity|].
    apply Forall_app. split; [exact Hparams | constructor; auto].
Qed.

Lemma get_candiate_configs_returns self :
  0 <= nquad self -> 0 <= nbasis self ->
  0 <= num_const_matrices self -> 0 <= num_func_eval_vars self ->
  exists cands, get_candiate_configs self = Ok cands.
Proof.
  intros Hq Hb Hm Hf. unfold get_candiate_configs.
  destruct (enumerate_tiles_returns self Hq Hb) as [tiles [Htiles Hok]].
  rewrite Htiles. cbn [Py.bind].
  match goal with
  | |- context [list_sort Z.ltb ?key tiles] =>
      destruct (list_sort_returns Z.ltb key tiles) as [sorted_tiles Hsorted]
  end.
  { eapply Forall_impl; [|exact Hok].
    intros [[[t1_r t1_c] t2_r] t2_c] (H1 & H2 & H3 & H4 & _).
    rewrite get_local_barriers_pos by assumption. eexists; reflexivity. }
  rewrite Hsorted. cbn [Py.bind].
  assert (Hok' : Forall (tile_ok self) sorted_tiles).
  { destruct (list_sort_sorted Z.ltb Z.le
                (fun a b H => Z.lt_le_incl _ _ (proj1 (Z.ltb_lt a b) H))
                (fun a b H => proj1 (Z.ltb_ge a b) H)
                _ _ _ Hsorted) as [Hperm _].
    eapply Permutation_Forall; [apply Permutation_sym, Hperm | exact Hok]. }
  destruct (enumerate_params_returns self sorted_tiles Hm Hf Hok')
    as [params [Hparams Hpok]].
  rewrite Hparams. cbn [Py.bind].
  destruct (list_sort_returns flt_ltb (estimated_exec_time self) params)
    as [sorted Hs].
  { eapply Forall_impl; [|exact Hpok].
    intros c Hc. now apply estimated_exec_time_returns. }
  rewrite Hs. cbn [Py.bind]. eexists; reflexivity.
Qed.

(** C9: for loop extents nQuad, nBasis >= 0 and N = num_candidate_knls
    >= 0, [get_candiate_configs] returns a list of at most N
    configurations on which [estimated_exec_time] is defined and
    ascending. *)
Theorem get_candiate_configs_sorted self :
  0 <= nquad self -> 0 <= nbasis self ->
  0 <= num_const_matrices self -> 0 <= num_func_eval_vars self ->
  0 <= num_candidate_knls self ->
  exists cands times,
    get_candiate_configs self = Ok cands /\
    Z.of_nat (length cands) <= num_candidate_knls self /\
    map_result (estimated_exec_time self) cands = Ok times /\
    StronglySorted flt_le times.
Proof.
  intros Hq Hb Hm Hf HN.
  destruct (get_candiate_configs_returns self Hq Hb Hm Hf) as [cands Hrun].
  destruct (get_candiate_configs_sorted_prefix self cands Hrun HN)
    as [Hlen [times [Htimes Hsorted]]].
  exists cands, times. auto.
Qed.

End SearchReturns.

Lemma get_candiate_configs_sorted_witness :
  exists cands times,
    get_candiate_configs tiler_3_6 = Ok cands /\
    Z.of_nat (length cands) <= 5 /\
    map_result (estimated_exec_time tiler_3_6) cands = Ok times /\
    StronglySorted flt_le times.
Proof.
  apply (get_candiate_configs_sorted tiler_3_6); simpl; lia.
Defined.

Lemma get_candiate_configs_flags_witness :
  exists cands c,
    get_candiate_configs tiler_3_6 = Ok cands /\ In c cands /\
    staging_flags c = [false; false; true; true; false; false] /\
    candidate_config (ncells_per_block c) (nthreads_per_cell c) (tile_of c)
    = Ok c.
Proof.
  destruct (get_candiate_configs tiler_3_6) as [cands|e] eqn:Hrun;
    [|vm_compute in Hrun; discriminate].
  destruct cands as [|c cands]; [vm_compute in Hrun; discriminate|].
  exists (c :: cands), c. split; [reflexivity|].
  split; [now left|].
  apply (get_candiate_configs_flags tiler_3_6 (c :: cands) c Hrun).
  now left.
Defined.

(** ** tiled_transform *)

Section TransformFacts.

Context {loopy : Loopy}.
Variable infer : LoopKernel -> result (LoopKernel * KernelMetadata).

(** One statement of the body: it raises, or the run goes on. *)
Ltac next_statement :=
  lazymatch goal with
  | |- exists e, Raise _ = Raise e => eexists; reflexivity
  | |- exists e, Py.bind (Raise _) _ = Raise e => eexists; reflexivity
  | |- exists e, Py.bind (if ?b then _ else _) _ = Raise e =>
      destruct b; cbn [Py.bind]
  | |- exists e, Py.bind ?m _ = Raise e =>
      let v := fresh "v" in
      destruct m as [v|]; cbn [Py.bind];
      [ try (destruct v as [v ?]); try (destruct v as [v ?]) | ]
  end.

(** Whatever the module binds the free names to, the body never gets
    past the [raise] of line 582. *)
Lemma tiled_transform_in_raises (globals : Globals) (kernel : LoopKernel)
    (callables_table : CallablesTable) (tiling_config : TilingConfiguration) :
  exists e,
    tiled_transform_in infer globals kernel callables_table tiling_config
    = Raise e.
Proof.
  unfold tiled_transform_in. repeat next_statement.
Qed.

(** C1, amended: on no input does [tiled_transform] complete normally
    and return a pair; whatever the kernel, the callables table, the
    configuration and the behaviour of the loopy calls, its outcome is
    an exception. *)
Theorem tiled_transform_raises (kernel : LoopKernel)
    (callables_table : CallablesTable) (tiling_config : TilingConfiguration) :
  exists e,
    tiled_transform infer kernel callables_table tiling_config = Raise e.
Proof.
  unfold tiled_transform.
  destruct (tiled_transform_in_raises module_globals kernel callables_table
              tiling_config) as [e He].
  exists e. exact He.
Qed.


End TransformFacts.

(** With every free name bound and every loopy call succeeding, the
    body stops at the [raise] of line 582. *)
Lemma tiled_transform_in_stops_at_raise :
  @tiled_transform_in null_loopy null_inference bound_globals
     ["out"] tt config_9_7
  = Raise (NotImplementedError
      "Developer wants to focus on other features now.. hahahaaha. sob sob sob").
Proof. vm_compute. reflexivity. Qed.

(** C1, as stated, fails: on a kernel on which every loopy call
    succeeds, [tiled_transform] ends in a NameError and returns no
    pair. *)
Lemma tiled_transform_does_not_return :
  @tiled_transform null_loopy null_inference ["out"] tt config_9_7
  = Raise (NameError "input_basis_coeff_temp") /\
  ~ exists r,
      @tiled_transform null_loopy null_inference ["out"] tt config_9_7 = Ok r.
Proof.
  assert (H : @tiled_transform null_loopy null_inference ["out"] tt config_9_7
              = Raise (NameError "input_basis_coeff_temp"))
    by (vm_compute; reflexivity).
  split; [exact H|]. intros [r Hr]. rewrite H in Hr. discriminate.
Qed.

(** ** AutoTiler.__call__ *)

Section TuningFacts.

Context {loopy : Loopy} {cuda : Cuda}.
Implicit Type self : AutoTiler (Program LoopKernel CallablesTable).
Implicit Type R : Event CudaFunction -> Prop.

Lemma emits_retM {A : Type} R (a : A) : emits R (retM a).
Proof.
  intros d r d' H. inversion H; subst.
  exists []. rewrite app_nil_r. auto.
Qed.

Lemma emits_liftM {A : Type} R (m : result A) : emits R (liftM m).
Proof.
  intros d r d' H. inversion H; subst.
  exists []. rewrite app_nil_r. auto.
Qed.

Lemma emits_bindM {A B : Type} R (m : M A) (k : A -> M B) :
  emits R m -> (forall a, emits R (k a)) -> emits R (bindM m k).
Proof.
  intros Hm Hk d r d' H. unfold bindM in H.
  destruct (m d) as [[a|e] d1] eqn:E.
  - destruct (Hm _ _ _ E) as [n1 [T1 F1]].
    destruct (Hk a _ _ _ H) as [n2 [T2 F2]].
    exists (n1 ++ n2). rewrite T2, T1, app_assoc.
    split; [reflexivity | now apply Forall_app].
  - inversion H; subst. exact (Hm _ _ _ E).
Qed.

Lemma emits_for_eachM {A S : Type} R (body : A -> S -> M S) (l : list A) :
  (forall x s, emits R (body x s)) -> forall s, emits R (for_eachM l body s).
Proof.
  intros Hbody. induction l as [|x l IH]; intros s; simpl.
  - apply emits_retM.
  - apply emits_bindM; auto.
Qed.

Lemma emits_emit R (e : Event CudaFunction) : R e -> emits R (emit e).
Proof.
  intros He d r d' H. inversion H; subst. simpl. eauto.
Qed.

Lemma emits_mem_alloc R (nbytes : Z) :
  (forall p, R (MemAlloc nbytes p)) -> emits R (mem_alloc nbytes).
Proof.
  intros He d r d' H. inversion H; subst. simpl. eauto.
Qed.

Lemma emits_remember R (ary : list Q) (p : DevicePtr) :
  emits R (remember ary p).
Proof.
  intros d r d' H. inversion H; subst. simpl.
  exists []. rewrite app_nil_r. auto.
Qed.

Ltac emits_step :=
  first
    [ apply emits_retM
    | apply emits_liftM
    | apply emits_remember
    | apply emits_bindM; [| intros ?] ].

Lemma emits_convert R (ary : list Q) :
  (forall n p, R (MemAlloc n p)) -> (forall a p, R (MemcpyHtoD a p)) ->
  emits R (convert_numpy_arrays_to_cuda_mems ary).
Proof.
  intros Halloc Hcopy d r d' H.
  unfold convert_numpy_arrays_to_cuda_mems in H.
  destruct (find _ (memo d)) as [[k p]|].
  - inversion H; subst. exists []. rewrite app_nil_r. auto.
  - revert d r d' H.
    match goal with
    | |- forall d r d', ?m d = (r, d') -> _ => change (emits R m)
    end.
    repeat emits_step.
    + now apply emits_mem_alloc.
    + now apply emits_emit.
Qed.

Lemma emits_measure R (f : CudaFunction) (grid block : list Z)
    (launch_args : list LaunchArg) :
  R (PreparedCall f grid block launch_args) ->
  emits R (measure f grid block launch_args).
Proof.
  intros HR. unfold measure.
  apply emits_bindM; [|intros; apply emits_retM].
  apply emits_for_eachM. intros _ runtimes.
  apply emits_bindM; [now apply emits_emit | intros _].
  apply emits_bindM; [|intros; apply emits_retM].
  intros d r d' H. inversion H; subst.
  exists []. rewrite app_nil_r. auto.
Qed.

Section Candidates.

Variable transform :
  LoopKernel -> CallablesTable -> TilingConfiguration ->
  result (LoopKernel * list (list Q)).

(** The loop over the candidates makes no device-to-device copy, and
    every launch in it passes the tuple built before the loop. *)
Lemma emits_try_candidate self (args copied_args : list LaunchArg)
    (tiling_config : TilingConfiguration)
    (best : pyfloat * option TilingConfiguration) :
  emits (launch_with copied_args)
        (try_candidate transform self args copied_args tiling_config best).
Proof.
  unfold try_candidate. destruct best as [best_time best_config].
  apply emits_bindM; [apply emits_liftM | intros [kernel extra_args]].
  apply emits_bindM; [apply emits_liftM | intros code].
  apply emits_bindM; [apply emits_liftM | intros [glens llens]].
  apply emits_bindM; [apply emits_liftM | intros grid].
  apply emits_bindM; [apply emits_liftM | intros block].
  apply emits_bindM; [apply emits_liftM | intros executable_knl].
  apply emits_bindM; [apply emits_liftM | intros _].
  apply emits_bindM; [| intros converted].
  - apply emits_for_eachM. intros arg acc.
    apply emits_bindM; [|intros; apply emits_retM].
    apply emits_convert; intros; split; simpl; auto; discriminate.
  - apply emits_bindM; [|intros; apply emits_retM].
    apply emits_measure. split; [reflexivity|].
    simpl. intros a Ha. inversion Ha; subst. eauto.
Qed.

Lemma emits_copy_arg self (args : list LaunchArg) (argshapes : list (list Z))
    (entry : nat * ArrayArg) (acc : list LaunchArg) :
  emits (fun e => launch_args e = None)
        (copy_arg self args argshapes entry acc).
Proof.
  unfold copy_arg. destruct entry as [i arg].
  destruct (name_in _ _).
  - repeat emits_step.
    + now apply emits_mem_alloc.
    + now apply emits_emit.
  - repeat emits_step.
Qed.

End Candidates.

Lemma copied_entry_weaken self (args : list LaunchArg) (p0 p0' : DevicePtr)
    (new new' : list (Event CudaFunction)) (entry : nat * ArrayArg)
    (a : LaunchArg) :
  (p0' <= p0)%nat -> incl new new' ->
  copied_entry self args p0 new entry a ->
  copied_entry self args p0' new' entry a.
Proof.
  intros Hp Hincl. unfold copied_entry.
  destruct (written self (snd entry)); [|auto].
  intros (p & src & size & Ha & Hfresh & Hsrc & Halloc & Hcopy).
  exists p, src, size. repeat split; auto. lia.
Qed.

(** The copy loop: one allocation and one copy per written argument,
    one entry of the tuple per argument. *)
Lemma copy_loop_spec self (args : list LaunchArg) (argshapes : list (list Z))
    (l : list ArrayArg) :
  forall (s : nat) (acc : list LaunchArg) (d : Device)
         (copied : list LaunchArg) (d' : Device),
    for_eachM (combine (seq s (length l)) l) (copy_arg self args argshapes)
              acc d = (Ok copied, d') ->
    exists new tail,
      trace d' = trace d ++ new /\ (next_ptr d <= next_ptr d')%nat /\
      copied = acc ++ tail /\
      length (filter is_memcpy_dtod new) = length (filter (written self) l) /\
      Forall2 (copied_entry self args (next_ptr d) new)
              (combine (seq s (length l)) l) tail.
Proof.
  induction l as [|arg l IH]; intros s acc d copied d' H;
    cbn [for_eachM combine seq length] in H.
  - inversion H; subst. exists [], []. rewrite !app_nil_r.
    repeat split; auto.
  - unfold bindM in H at 1.
    destruct (copy_arg self args argshapes (s, arg) acc d)
      as [[acc1|e] d1] eqn:E; [|discriminate].
    destruct (IH (S s) acc1 d1 copied d' H)
      as (new' & tail' & T & N & C & L & F).
    unfold copy_arg in E. fold (written self arg) in E.
    destruct (written self arg) eqn:W.
    + unfold bindM, liftM, mem_alloc, memcpy_dtod, emit, retM in E.
      destruct (index argshapes s) as [shape|]; [|discriminate].
      destruct (index args (s + 2)) as [src|] eqn:Hsrc; [|discriminate].
      inversion E; subst; clear E. cbn [next_ptr trace] in *.
      set (size := np_prod shape * itemsize (arg_dtype arg)) in *.
      exists ([MemAlloc size (next_ptr d);
               MemcpyDtoD src (next_ptr d) size] ++ new'),
             (PtrArg (next_ptr d) :: tail').
      split; [rewrite T, <- !app_assoc; reflexivity|].
      split; [lia|].
      split; [rewrite <- app_assoc; reflexivity|].
      split; [cbn [app filter is_memcpy_dtod length]; rewrite W;
              cbn [length]; now f_equal|].
      cbn [length seq combine]. constructor.
      * unfold copied_entry. cbn [fst snd]. rewrite W.
        exists (next_ptr d), src, size.
        repeat split; auto; simpl; auto.
      * eapply Forall2_impl; [|exact F].
        intros entry a. apply copied_entry_weaken; [lia|].
        intros e He. simpl. auto.
    + unfold bindM, liftM, retM in E.
      destruct (index args (s + 2)) as [a0|] eqn:Hsrc; [|discriminate].
      inversion E; subst; clear E.
      exists new', (a0 :: tail').
      split; [exact T|]. split; [exact N|].
      split; [rewrite <- app_assoc; reflexivity|].
      split; [cbn [filter]; rewrite W; exact L|].
      cbn [length seq combine]. constructor; [|exact F].
      unfold copied_entry. cbn [fst snd]. rewrite W. exact Hsrc.
Qed.

Section Tune.

Variable transform :
  LoopKernel -> CallablesTable -> TilingConfiguration ->
  result (LoopKernel * list (list Q)).

(** C3, amended: [AutoTiler.__call__] copies every device buffer the
    kernel writes once per call, before the loop over the candidates;
    the loop itself copies no buffer, and every launch of every
    candidate is passed the same tuple, in which a written buffer is
    replaced by that one copy and a read-only buffer is the caller's
    own. *)
Theorem tune_copies_once self (args : list LaunchArg)
    (argshapes : list (list Z)) (d0 : Device)
    (r : result (LoopKernel * list (list Q))) (d2 : Device) :
  tune_with transform self args argshapes d0 = (r, d2) ->
  exists rc d1 later,
    copy_written_args self args argshapes d0 = (rc, d1) /\
    trace d2 = trace d1 ++ later /\
    match rc with
    | Raise e => r = Raise e /\ later = []
    | Ok copied_args =>
        exists first tail,
          trace d1 = trace d0 ++ first /\
          Forall (fun e => launch_args e = None) first /\
          length (filter is_memcpy_dtod first)
          = length (filter (written self)
                           (skipn 2 (prog_args (fem_program self)))) /\
          copied_args = firstn 2 args ++ tail /\
          Forall2 (copied_entry self args (next_ptr d0) first)
                  (enumerate (skipn 2 (prog_args (fem_program self)))) tail /\
          Forall (launch_with copied_args) later
    end.
Proof.
  intros H. unfold tune_with in H. unfold bindM in H at 1.
  destruct (copy_written_args self args argshapes d0) as [rc d1] eqn:Hcopy.
  exists rc, d1. destruct rc as [copied_args|e].
  - match type of H with
    | ?m d1 = _ =>
        assert (Hrest : emits (launch_with copied_args) m)
    end.
    { apply emits_bindM; [apply emits_liftM | intros candidates].
      apply emits_bindM.
      - apply emits_for_eachM. intros cfg best.
        apply emits_try_candidate.
      - intros [best_time [c|]]; apply emits_liftM. }
    destruct (Hrest _ _ _ H) as [later [Hlater Hall]].
    exists later. split; [reflexivity|]. split; [exact Hlater|].
    pose proof Hcopy as Hcopy'.
    unfold copy_written_args, enumerate in Hcopy'.
    apply copy_loop_spec in Hcopy'.
    destruct Hcopy' as (first & tail & T & _ & C & L & F).
    exists first, tail. repeat split; auto.
    assert (Hquiet : emits (fun e => launch_args e = None)
                           (copy_written_args self args argshapes)).
    { unfold copy_written_args. apply emits_for_eachM.
      intros entry acc. apply emits_copy_arg. }
    destruct (Hquiet _ _ _ Hcopy) as [first' [T' Hnone]].
    rewrite T in T'. apply app_inv_head in T'. now subst.
  - inversion H; subst. exists []. rewrite app_nil_r. auto.
Qed.

End Tune.

End TuningFacts.

(** C3, as stated, fails: over a shortlist of five candidates the one
    written buffer is copied once, not five times; with a transformation
    that returns, all 75 launches are passed that one copy, and
    [AutoTiler.__call__] itself stops at the first candidate after
    that one copy. *)
Lemma one_copy_for_all_candidates :
  (exists cands, get_candiate_configs demo_tuner = Ok cands /\
                 length cands = 5%nat) /\
  length (launches (trace (snd demo_run))) = 75%nat /\
  Forall (fun a => a = [IntArg 0; IntArg 10; PtrArg 100%nat; PtrArg 102%nat])
         (launches (trace (snd demo_run))) /\
  filter is_memcpy_dtod (trace (snd demo_run))
  = [MemcpyDtoD (PtrArg 101%nat) 102%nat 240] /\
  ~ fresh_copy_per_candidate 5 1 (trace (snd demo_run)) /\
  fst demo_call = Raise (NameError "input_basis_coeff_temp") /\
  trace (snd demo_call)
  = [MemAlloc 240 102%nat; MemcpyDtoD (PtrArg 101%nat) 102%nat 240] /\
  ~ fresh_copy_per_candidate 5 1 (trace (snd demo_call)).
Proof.
  split.
  { eexists. split; [vm_compute; reflexivity | reflexivity]. }
  split; [vm_compute; reflexivity|].
  split; [vm_compute; repeat constructor|].
  split; [vm_compute; reflexivity|].
  split; [unfold fresh_copy_per_candidate; vm_compute; discriminate|].
  split; [vm_compute; reflexivity|].
  split; [vm_compute; reflexivity|].
  unfold fresh_copy_per_candidate; vm_compute; discriminate.
Qed.

Lemma tune_copies_once_witness :
  exists rc d1 later,
    @copy_written_args null_loopy null_cuda demo_tuner demo_args
       demo_argshapes demo_device = (rc, d1) /\
    trace (snd demo_run) = trace d1 ++ later /\
    match rc with
    | Raise e => fst demo_run = Raise e /\ later = []
    | Ok copied_args =>
        exists first tail,
          trace d1 = trace demo_device ++ first /\
          Forall (fun e => launch_args e = None) first /\
          length (filter is_memcpy_dtod first)
          = length (filter (@written null_loopy demo_tuner)
                           (skipn 2 (prog_args (fem_program demo_tuner)))) /\
          copied_args = firstn 2 demo_args ++ tail /\
          Forall2 (@copied_entry null_loopy null_cuda demo_tuner demo_args
                                (next_ptr demo_device)
                                first)
                  (enumerate (skipn 2 (prog_args (fem_program demo_tuner))))
                  tail /\
          Forall (@launch_with null_cuda copied_args) later
    end.
Proof.
  apply (@tune_copies_once null_loopy null_cuda identity_transform
           demo_tuner demo_args demo_argshapes demo_device
           (fst demo_run) (snd demo_run)).
  vm_compute. reflexivity.
Defined.

(** * Further properties *)

(** ** The cost model: errors and bounds *)

Lemma ceil_div_zero (a : Z) : ceil_div a 0 = Raise ZeroDivisionError.
Proof. reflexivity. Qed.


Lemma ceiling_quotient_le_extent (a b : Z) :
  0 < a -> 0 < b -> 1 <= ceiling_quotient a b <= a.
Proof.
  intros Ha Hb. split.
  - pose proof (ceiling_quotient_pos a b Ha Hb). lia.
  - destruct (ceiling_quotient_least a b Hb) as [_ H]. apply H. nia.
Qed.

Lemma ceiling_quotient_one (a b : Z) :
  0 < a -> a <= b -> ceiling_quotient a b = 1.
Proof.
  intros Ha Hab.
  destruct (ceiling_quotient_least a b ltac:(lia)) as [_ H].
  pose proof (ceiling_quotient_pos a b Ha ltac:(lia)).
  specialize (H 1 ltac:(lia)). lia.
Qed.

Section BarrierFacts.

Context {Program : Type}.
Implicit Type self : AutoTiler Program.


(** X2: for positive extents and positive tile lengths the barrier
    count lies between 2 and 2 * nQuad * nBasis, and it is 2 as soon as
    each tile covers its whole extent. *)
Theorem get_local_barriers_range self (t1_r t1_c t2_r t2_c : Z) :
  0 < nquad self -> 0 < nbasis self ->
  0 < t1_r -> 0 < t1_c -> 0 < t2_r -> 0 < t2_c ->
  exists n,
    get_local_barriers self t1_r t1_c t2_r t2_c = Ok n /\
    2 <= n <= 2 * nquad self * nbasis self /\
    (nquad self <= t1_r -> nbasis self <= t1_c ->
     nbasis self <= t2_r -> nquad self <= t2_c -> n = 2).
Proof.
  intros Hq Hb H1 H2 H3 H4.
  rewrite get_local_barriers_pos by assumption.
  eexists. split; [reflexivity|]. unfold localBarriers.
  pose proof (ceiling_quotient_le_extent (nquad self) t1_r Hq H1).
  pose proof (ceiling_quotient_le_extent (nbasis self) t1_c Hb H2).
  pose proof (ceiling_quotient_le_extent (nbasis self) t2_r Hb H3).
  pose proof (ceiling_quotient_le_extent (nquad self) t2_c Hq H4).
  split; [nia|].
  intros G1 G2 G3 G4.
  rewrite !ceiling_quotient_one by assumption. reflexivity.
Qed.

End BarrierFacts.

Lemma get_local_barriers_range_witness :
  exists n,
    get_local_barriers tiler_3_6 2 3 3 6 = Ok n /\
    2 <= n <= 2 * 6 * 3 /\
    (6 <= 2 -> 3 <= 3 -> 3 <= 3 -> 6 <= 6 -> n = 2).
Proof.
  apply (get_local_barriers_range tiler_3_6 2 3 3 6); simpl; lia.
Defined.

Lemma floor_ZQ_div_32 (a : Z) : floor (ZQ a / 32) = a / 32.
Proof.
  unfold floor. change 32%Q with (ZQ 32).
  rewrite (Qfloor_comp _ _ (ZQ_div_pos a 32)). reflexivity.
Qed.

Lemma pymin_32_bounds (b : Q) : (0 <= b)%Q -> (0 <= pymin b 32 <= 32)%Q.
Proof.
  intros Hb. unfold pymin. destruct (Qlt_le_dec 32 b); lra.
Qed.

Section OccupancyFacts.

Context {Program : Type}.
Implicit Type self : AutoTiler Program.

(** The number of doubles a block keeps in shared memory. *)
Lemma theoretical_warps_per_sm_value self (cfg : TilingConfiguration) :
  0 < nquad self -> 0 <= num_const_matrices self ->
  0 <= num_func_eval_vars self -> all_dimensions_positive cfg ->
  exists blocks_per_sm,
    theoretical_warps_per_sm self cfg
    = Ok (blocks_per_sm
          * ZQ ((nthreads_per_cell cfg * ncells_per_block cfg) / 32))%Q /\
    (0 <= blocks_per_sm <= 32)%Q /\
    (6000 <= shared_doubles self cfg -> (blocks_per_sm == 0)%Q).
Proof.
  intros Hq Hm Hf Hcfg.
  pose proof (shared_usage_positive self cfg Hq Hm Hf Hcfg) as Hs.
  unfold theoretical_warps_per_sm, shared_doubles.
  set (su := num_const_matrices self * _ + nquad self + _) in *.
  unfold truediv at 1. change (Qeq_bool 32 0) with false. cbn [Py.bind].
  rewrite floor_ZQ_div_32.
  pose proof (ZQ_pos su Hs) as Hsu.
  destruct (Qlt_le_dec (ZQ su * (8 # 1000)) 48) as [Hlt|Hge].
  - unfold floordiv_float. rewrite Qeq_bool_neq_false by (intros E; nra).
    cbn [Py.bind]. eexists. split; [reflexivity|].
    assert (Hfl : (0 <= inject_Z (Qfloor (96 / (ZQ su * (8 # 1000)))))%Q).
    { change 0%Q with (inject_Z 0). rewrite <- Zle_Qle.
      apply Qfloor_resp_le with (x := 0%Q).
      apply Qle_shift_div_l; nra. }
    split; [now apply pymin_32_bounds|].
    intros H6. exfalso.
    apply ZQ_le in H6. change (ZQ 6000) with 6000%Q in H6. nra.
  - cbn [Py.bind]. eexists. split; [reflexivity|].
    split; [apply pymin_32_bounds; lra|].
    intros _. unfold pymin. destruct (Qlt_le_dec 32 0); [lra|reflexivity].
Qed.

Lemma wasted_work_value self (p t1 t2 : Z) :
  p <> 0 -> t1 <> 0 -> t2 <> 0 ->
  wasted_work self p t1 t2
  = Ok (nbasis self * ((t1 mod p) * (nquad self / t1)
                       + (nquad self mod t1) mod p)
        + nquad self * ((t2 mod p) * (nbasis self / t2)
                        + (nbasis self mod t2) mod p)).
Proof.
  intros Hp H1 H2. unfold wasted_work.
  repeat (rewrite ?mod__ok, ?floordiv_ok by assumption; cbn [Py.bind]).
  reflexivity.
Qed.

(** X3: when the thread count per cell divides both row tile lengths
    and both remainders of the extents, nothing is counted as wasted and
    the efficiency is the warp-fill ratio alone; one thread per cell is
    such a case. *)
Theorem get_work_efficiency_no_waste self (cfg : TilingConfiguration) :
  0 < nquad self -> 0 < nbasis self -> all_dimensions_positive cfg ->
  (nthreads_per_cell cfg | matvec1_row_tile_length cfg) ->
  (nthreads_per_cell cfg | matvec2_row_tile_length cfg) ->
  (nthreads_per_cell cfg | nquad self mod matvec1_row_tile_length cfg) ->
  (nthreads_per_cell cfg | nbasis self mod matvec2_row_tile_length cfg) ->
  exists e f,
    get_work_efficiency self cfg = Ok e /\
    warp_mismatch_factor (nthreads_per_cell cfg * ncells_per_block cfg)
    = Ok f /\
    (e == f)%Q.
Proof.
  intros Hq Hb Hcfg D1 D2 D3 D4.
  pose proof Hcfg as (Hc & Ht & H1 & _ & H2 & _).
  destruct (warp_mismatch_factor_bounds
              (nthreads_per_cell cfg * ncells_per_block cfg))
    as [f [Hf _]]; [nia|].
  unfold get_work_efficiency.
  rewrite wasted_work_value by lia. cbn [Py.bind].
  apply Z.mod_divide in D1, D2, D3, D4; try lia.
  rewrite D1, D2, D3, D4.
  replace (nbasis self * (0 * (nquad self / matvec1_row_tile_length cfg) + 0)
           + nquad self * (0 * (nbasis self / matvec2_row_tile_length cfg) + 0))
    with 0 by ring.
  rewrite truediv_ZQ by nia. cbn [Py.bind]. rewrite Hf. cbn [Py.bind].
  eexists; eexists. split; [reflexivity|]. split; [reflexivity|].
  unfold Qdiv. change (ZQ 0) with 0%Q. ring.
Qed.

(** X4: the efficiency never exceeds the warp-fill ratio, and the
    warp-fill ratio is always strictly below 1. *)
Theorem get_work_efficiency_below_warp_fill self (cfg : TilingConfiguration) :
  0 < nquad self -> 0 < nbasis self -> all_dimensions_positive cfg ->
  exists e f,
    get_work_efficiency self cfg = Ok e /\
    warp_mismatch_factor (nthreads_per_cell cfg * ncells_per_block cfg)
    = Ok f /\
    (e <= f)%Q /\ (f < 1)%Q.
Proof.
  intros Hq Hb Hcfg.
  destruct (get_work_efficiency_value self cfg Hq Hb Hcfg)
    as (ww & f & _ & Hbnd & Hf & Hf0 & Hf1 & He).
  eexists; exists f. split; [exact He|]. split; [exact Hf|].
  destruct (ZQ_div_bounds ww (2 * nquad self * nbasis self) Hbnd ltac:(nia))
    as [Hw0 Hw1].
  set (w := (ZQ ww / ZQ (2 * nquad self * nbasis self))%Q) in *.
  split; [nra | exact Hf1].
Qed.

(** X5: a configuration whose block has fewer than 32 threads, or whose
    shared-memory footprint reaches 6000 doubles (48 KB), has no
    resident warp and gets an infinite estimated time. *)
Theorem estimated_exec_time_not_viable self (cfg : TilingConfiguration) :
  0 < nquad self -> 0 < nbasis self ->
  0 <= num_const_matrices self -> 0 <= num_func_eval_vars self ->
  all_dimensions_positive cfg ->
  nthreads_per_cell cfg * ncells_per_block cfg < 32 \/
  6000 <= shared_doubles self cfg ->
  estimated_exec_time self cfg = Ok PInf.
Proof.
  intros Hq Hb Hm Hf Hcfg Hcase.
  destruct (theoretical_warps_per_sm_value self cfg Hq Hm Hf Hcfg)
    as (b & Htw & Hb32 & Hbig).
  destruct (get_work_efficiency_value self cfg Hq Hb Hcfg)
    as (ww & f & _ & _ & _ & _ & _ & Heff).
  pose proof Hcfg as (Hc & Ht & _).
  unfold estimated_exec_time, actual_warps_per_sm.
  rewrite Htw, Heff. cbn [Py.bind].
  match goal with
  | |- (if Qeq_bool ?x 0 then _ else _) = _ =>
      assert (Hz : (x == 0)%Q)
  end.
  { destruct Hcase as [Hsmall|Hlarge].
    - rewrite Z.div_small by nia. change (ZQ 0) with 0%Q. ring.
    - rewrite (Hbig Hlarge). ring. }
  apply Qeq_eq_bool in Hz. rewrite Hz. reflexivity.
Qed.

(** X6: a finite estimated time is strictly positive. *)
Theorem estimated_exec_time_positive self (cfg : TilingConfiguration)
    (t : Q) :
  0 < nquad self -> 0 < nbasis self ->
  0 <= num_const_matrices self -> 0 <= num_func_eval_vars self ->
  all_dimensions_positive cfg ->
  estimated_exec_time self cfg = Ok (Fin t) -> (0 < t)%Q.
Proof.
  intros Hq Hb Hm Hf Hcfg Hrun.
  destruct (theoretical_warps_per_sm_value self cfg Hq Hm Hf Hcfg)
    as (b & Htw & Hb32 & _).
  destruct (get_work_efficiency_value self cfg Hq Hb Hcfg)
    as (ww & f & _ & Hbnd & _ & Hf0 & Hf1 & Heff).
  pose proof Hcfg as (Hc & Ht & H1 & H2 & H3 & H4).
  unfold estimated_exec_time, actual_warps_per_sm in Hrun.
  rewrite Htw, Heff in Hrun. cbn [Py.bind] in Hrun.
  destruct (Qeq_bool _ 0) eqn:E in Hrun; [discriminate|].
  apply Qeq_bool_false_neq in E.
  rewrite get_local_barriers_pos in Hrun by assumption.
  cbn [Py.bind] in Hrun.
  rewrite exec_time_quotient in Hrun by (assumption || nia).
  injection Hrun as Hval. subst t.
  destruct (ZQ_div_bounds ww (2 * nquad self * nbasis self) Hbnd ltac:(nia))
    as [Hw0 Hw1].
  set (w := (ZQ ww / ZQ (2 * nquad self * nbasis self))%Q) in *.
  set (wpb := ZQ (nthreads_per_cell cfg * ncells_per_block cfg / 32)) in *.
  assert (Hwpb : (0 <= wpb)%Q).
  { apply ZQ_nonneg. apply Z.div_pos; nia. }
  set (n_w := (b * wpb * (f * (1 - w)))%Q) in *.
  assert (Hnw : (0 < n_w)%Q).
  { assert (0 <= n_w)%Q
      by (unfold n_w; repeat apply Qmult_le_0_compat; lra).
    destruct (Qlt_le_dec 0 n_w); [assumption|]. exfalso. apply E. lra. }
  assert (Hd : (0 < ZQ (nthreads_per_cell cfg * ncells_per_block cfg))%Q)
    by (apply ZQ_pos; nia).
  assert (Hlb : (0 < ZQ (localBarriers self
                    (matvec1_row_tile_length cfg, matvec1_col_tile_length cfg,
                     matvec2_row_tile_length cfg, matvec2_col_tile_length cfg)))%Q).
  { apply ZQ_pos. unfold localBarriers.
    pose proof (ceiling_quotient_pos (nquad self) _ Hq H1).
    pose proof (ceiling_quotient_pos (nbasis self) _ Hb H2).
    pose proof (ceiling_quotient_pos (nbasis self) _ Hb H3).
    pose proof (ceiling_quotient_pos (nquad self) _ Hq H4). nia. }
  apply Qlt_shift_div_l.
  - apply Qlt_shift_div_l; [exact Hd|].
    rewrite Qmult_0_l. change (0 < n_w * 32)%Q. lra.
  - rewrite Qmult_0_l. exact Hlb.
Qed.

End OccupancyFacts.

Lemma get_work_efficiency_no_waste_witness :
  exists e f,
    get_work_efficiency tiler_3_6 config_3_21 = Ok e /\
    warp_mismatch_factor (3 * 21) = Ok f /\ (e == f)%Q.
Proof.
  apply (get_work_efficiency_no_waste tiler_3_6 config_3_21).
  - simpl; lia.
  - simpl; lia.
  - unfold all_dimensions_positive; simpl; lia.
  - exists 2. reflexivity.
  - exists 1. reflexivity.
  - exists 0. reflexivity.
  - exists 0. reflexivity.
Defined.

Lemma get_work_efficiency_below_warp_fill_witness :
  exists e f,
    get_work_efficiency tiler_3_6 config_9_7 = Ok e /\
    warp_mismatch_factor (9 * 7) = Ok f /\ (e <= f)%Q /\ (f < 1)%Q.
Proof.
  apply (get_work_efficiency_below_warp_fill tiler_3_6 config_9_7).
  - simpl; lia.
  - simpl; lia.
  - unfold all_dimensions_positive; simpl; lia.
Defined.

Lemma estimated_exec_time_not_viable_witness :
  estimated_exec_time tiler_3_6 config_1_1 = Ok PInf.
Proof.
  apply (estimated_exec_time_not_viable tiler_3_6 config_1_1).
  - simpl; lia.
  - simpl; lia.
  - simpl; lia.
  - simpl; lia.
  - unfold all_dimensions_positive; simpl; lia.
  - left. simpl. lia.
Defined.

Lemma estimated_exec_time_positive_witness :
  (0 < 1474560 # 14254080)%Q.
Proof.
  apply (estimated_exec_time_positive tiler_3_6 config_2_64).
  - simpl; lia.
  - simpl; lia.
  - simpl; lia.
  - simpl; lia.
  - unfold all_dimensions_positive; simpl; lia.
  - vm_compute. reflexivity.
Defined.

(** ** The candidate search: edge cases and what the shortlist holds *)

Lemma slice_to_nil {A : Type} (n : Z) : slice_to n (@nil A) = [].
Proof.
  unfold slice_to. destruct (n <? 0); apply firstn_nil.
Qed.

Section ShortlistFacts.

Context {Program : Type}.
Implicit Type self : AutoTiler Program.

Lemma enumerate_tiles_empty self :
  nbasis self = 0 \/ (0 <= nbasis self /\ nquad self = 0) ->
  enumerate_tiles self = Ok [].
Proof.
  unfold enumerate_tiles. intros [H0|[Hb Hq]].
  - rewrite H0. reflexivity.
  - rewrite ?(ceil_sqrt_nonneg _ Hb). cbn [Py.bind].
    match goal with
    | |- for_each ?l ?body [] = Ok [] =>
        pose proof (for_each_returns
                      (fun tiles : list Tile => tiles = []) body l) as Hloop
    end.
    edestruct Hloop as [tiles [Hrun Htiles]];
      [ | reflexivity | subst tiles; exact Hrun ].
    intros i tiles Hi ->. apply In_range in Hi.
    rewrite ceil_div_pos by lia. cbn [Py.bind].
    rewrite Hq. cbn. eexists; split; reflexivity.
Qed.

(** X7: with no basis function, or with no quadrature point, the search
    returns the empty list. *)
Theorem get_candiate_configs_empty self :
  nbasis self = 0 \/ (0 <= nbasis self /\ nquad self = 0) ->
  get_candiate_configs self = Ok [].
Proof.
  intros H. unfold get_candiate_configs.
  rewrite (enumerate_tiles_empty self H). cbn.
  now rewrite slice_to_nil.
Qed.

(** X8: a negative number of basis functions, or a negative number of
    quadrature points next to a positive number of basis functions,
    makes the search raise ValueError (the square root of a negative
    number). *)
Theorem get_candiate_configs_negative_extent self :
  nbasis self < 0 \/ (0 < nbasis self /\ nquad self < 0) ->
  get_candiate_configs self = Raise ValueError.
Proof.
  intros H. unfold get_candiate_configs, enumerate_tiles.
  destruct H as [Hb|[Hb Hq]].
  - unfold ceil_sqrt at 1. destruct (Z.ltb_spec (nbasis self) 0); [|lia].
    reflexivity.
  - rewrite (ceil_sqrt_nonneg (nbasis self)) by lia. cbn [Py.bind].
    assert (Hs : 1 <= Z.sqrt_up (nbasis self)).
    { pose proof (Z.sqrt_up_pos (nbasis self)). lia. }
    unfold range.
    replace (Z.to_nat (Z.sqrt_up (nbasis self) + 1 - 1))
      with (S (Z.to_nat (Z.sqrt_up (nbasis self) - 1))) by lia.
    cbn [seq map for_each].
    rewrite ceil_div_pos by lia. cbn [Py.bind].
    unfold ceil_sqrt at 1. destruct (Z.ltb_spec (nquad self) 0); [|lia].
    reflexivity.
Qed.

End ShortlistFacts.

Lemma get_candiate_configs_empty_witness :
  get_candiate_configs (mkAutoTiler tt 5 3 0 1 1) = Ok [].
Proof.
  apply (get_candiate_configs_empty (mkAutoTiler tt 5 3 0 1 1)).
  right. simpl. lia.
Defined.

Lemma get_candiate_configs_negative_extent_witness :
  get_candiate_configs (mkAutoTiler tt 5 3 (-6) 1 1) = Raise ValueError.
Proof.
  apply (get_candiate_configs_negative_extent (mkAutoTiler tt 5 3 (-6) 1 1)).
  right. simpl. lia.
Defined.

Lemma sentinel_not_in_table (threads : Z) (opts : list Z) :
  In (threads, opts) threads_to_cells -> ~ In 10000 opts.
Proof.
  unfold threads_to_cells. simpl.
  intros H; repeat (destruct H as [H|H]; [inversion H; subst; simpl; lia|]).
  contradiction.
Qed.

Section ShortlistContents.

Context {Program : Type}.
Implicit Type self : AutoTiler Program.

(** The cell count kept for a tile and a thread count is the sentinel,
    or an option whose estimated time is finite. *)
Lemma choose_best_cells_choice self (tile : Tile) (threads : Z)
    (opts : list Z) (best : Z) :
  choose_best_cells self tile threads opts = Ok best ->
  best = 10000 \/
  (In best opts /\
   exists c t, candidate_config best threads tile = Ok c /\
               estimated_exec_time self c = Ok (Fin t)).
Proof.
  unfold choose_best_cells.
  apply (for_each_preserves
           (fun b => b = 10000 \/
              (In b opts /\
               exists c t, candidate_config b threads tile = Ok c /\
                           estimated_exec_time self c = Ok (Fin t))));
    [|now left].
  intros cells b b' Hin HP Hbody.
  inv_bind Hbody. inv_bind Hbody. inv_bind Hbody. inv_bind Hbody.
  inversion Hbody; subst b'; clear Hbody.
  destruct (flt_ltb v0 v2) eqn:E; [|exact HP].
  right. split; [exact Hin|].
  destruct v0 as [t|]; [|discriminate]. eauto.
Qed.

Lemma enumerate_params_elements self (tiles : list Tile)
    (params : list TilingConfiguration) :
  enumerate_params self tiles = Ok params ->
  Forall (fun c =>
            In (tile_of c) tiles /\
            (exists opts, In (nthreads_per_cell c, opts) threads_to_cells /\
                          In (ncells_per_block c) opts) /\
            exists t, estimated_exec_time self c = Ok (Fin t)) params.
Proof.
  unfold enumerate_params.
  match goal with
  | |- for_each _ _ _ = _ -> Forall ?P _ =>
      apply (for_each_preserves (Forall P)); [|constructor]
  end.
  intros tile ps ps' Htile Hps.
  match goal with
  | |- for_each _ _ _ = _ -> Forall ?P _ =>
      apply (for_each_preserves (Forall P)); [|exact Hps]
  end.
  intros [threads opts] qs qs' Hentry Hqs Hbody.
  inv_bind Hbody. destruct (Z.eqb_spec v 10000) as [|Hne].
  - now inversion Hbody; subst.
  - inv_bind Hbody. inversion Hbody; subst qs'; clear Hbody.
    apply Forall_app. split; [exact Hqs|]. constructor; [|constructor].
    destruct (choose_best_cells_choice _ _ _ _ _ Hv)
      as [|[Hin (c & t & Hc & Ht)]]; [contradiction|].
    rewrite Hv0 in Hc. inversion Hc; subst c; clear Hc.
    apply candidate_config_flags in Hv0.
    destruct Hv0 as (_ & Hcells & Hthreads & Htile').
    rewrite Hcells, Hthreads, Htile'.
    split; [exact Htile|]. split; [exists opts; split; assumption|].
    exists t. exact Ht.
Qed.

Lemma enumerate_tiles_elements self (tiles : list Tile) :
  enumerate_tiles self = Ok tiles -> Forall (tile_enumerated self) tiles.
Proof.
  unfold enumerate_tiles. intros H. inv_bind H.
  unfold ceil_sqrt in Hv. destruct (nbasis self <? 0); [discriminate|].
  inversion Hv; subst v; clear Hv. revert H.
  apply (for_each_preserves (Forall (tile_enumerated self))); [|constructor].
  intros i ts ts' Hi Hts Hbody. apply In_range in Hi.
  inv_bind Hbody. inv_bind Hbody.
  unfold ceil_sqrt in Hv0. destruct (nquad self <? 0); [discriminate|].
  inversion Hv0; subst v0; clear Hv0. revert Hbody.
  apply (for_each_preserves (Forall (tile_enumerated self))); [|exact Hts].
  clear ts ts' Hts. intros j ts ts' Hj Hts Hbody. apply In_range in Hj.
  inv_bind Hbody. inv_bind Hbody.
  unfold ceil_sqrt in Hv1. destruct (nbasis self <? 0); [discriminate|].
  inversion Hv1; subst v1; clear Hv1. revert Hbody.
  apply (for_each_preserves (Forall (tile_enumerated self))); [|exact Hts].
  clear ts ts' Hts. intros k ts ts' Hk Hts Hbody. apply In_range in Hk.
  inv_bind Hbody. inv_bind Hbody.
  unfold ceil_sqrt in Hv2. destruct (nquad self <? 0); [discriminate|].
  inversion Hv2; subst v2; clear Hv2. revert Hbody.
  apply (for_each_preserves (Forall (tile_enumerated self))); [|exact Hts].
  clear ts ts' Hts. intros l ts ts' Hl Hts Hbody. apply In_range in Hl.
  inv_bind Hbody. inv_bind Hbody.
  inversion Hbody; subst ts'; clear Hbody.
  rewrite ceil_div_pos in Hv, Hv0, Hv1, Hv2 by lia.
  inversion Hv; inversion Hv0; inversion Hv1; inversion Hv2; subst.
  destruct v3; [|exact Hts].
  apply Forall_app. split; [exact Hts|]. constructor; [|constructor].
  exists i, j, k, l. repeat split; try lia. exact Hv3.
Qed.

Lemma get_candiate_configs_member self (cands : list TilingConfiguration)
    (c : TilingConfiguration) :
  get_candiate_configs self = Ok cands -> In c cands ->
  exists tiles0 tiles params,
    enumerate_tiles self = Ok tiles0 /\ Permutation tiles tiles0 /\
    enumerate_params self tiles = Ok params /\ In c params.
Proof.
  unfold get_candiate_configs. intros H Hin.
  inv_bind H. inv_bind H. inv_bind H. inv_bind H.
  inversion H; subst cands; clear H.
  exists v, v0, v1. split; [exact Hv|].
  destruct (list_sort_sorted Z.ltb Z.le
              (fun a b H => Z.lt_le_incl _ _ (proj1 (Z.ltb_lt a b) H))
              (fun a b H => proj1 (Z.ltb_ge a b) H)
              _ _ _ Hv0) as [Hperm _].
  split; [exact Hperm|]. split; [exact Hv1|].
  destruct (list_sort_sorted flt_ltb flt_le flt_ltb_true_le flt_ltb_false_le
              _ _ _ Hv2) as [Hperm2 _].
  destruct (slice_to_firstn (num_candidate_knls self) v2) as [m [Hm _]].
  rewrite Hm in Hin. apply In_firstn_In in Hin.
  eapply Permutation_in; [exact Hperm2 | exact Hin].
Qed.

(** X9: in every configuration of the shortlist the number of cells
    per block is one of the values the table [threads_to_cells] lists
    for its thread count; the placeholder 10000 is never returned. *)
Theorem get_candiate_configs_cells_from_table self
    (cands : list TilingConfiguration) (c : TilingConfiguration) :
  get_candiate_configs self = Ok cands -> In c cands ->
  exists opts,
    In (nthreads_per_cell c, opts) threads_to_cells /\
    In (ncells_per_block c) opts /\ ncells_per_block c <> 10000.
Proof.
  intros Hrun Hin.
  destruct (get_candiate_configs_member self cands c Hrun Hin)
    as (tiles0 & tiles & params & _ & _ & Hparams & Hc).
  apply enumerate_params_elements in Hparams.
  rewrite Forall_forall in Hparams.
  destruct (Hparams c Hc) as (_ & (opts & Htab & Hcells) & _).
  exists opts. repeat split; auto.
  intros E. rewrite E in Hcells.
  exact (sentinel_not_in_table _ _ Htab Hcells).
Qed.

(** X10: every configuration of the shortlist is viable: its estimated
    time is finite. *)
Theorem get_candiate_configs_viable self
    (cands : list TilingConfiguration) (c : TilingConfiguration) :
  get_candiate_configs self = Ok cands -> In c cands ->
  exists t, estimated_exec_time self c = Ok (Fin t).
Proof.
  intros Hrun Hin.
  destruct (get_candiate_configs_member self cands c Hrun Hin)
    as (tiles0 & tiles & params & _ & _ & Hparams & Hc).
  apply enumerate_params_elements in Hparams.
  rewrite Forall_forall in Hparams.
  destruct (Hparams c Hc) as (_ & _ & Ht). exact Ht.
Qed.

(** X11: the tile of every configuration of the shortlist is cut from
    the extents by divisors between 1 and the rounded-up square root of
    the extent, and its two footprints t1_r*t1_c and t2_r*t2_c differ by
    less than a fifth of the larger one. *)
Theorem get_candiate_configs_tiles self
    (cands : list TilingConfiguration) (c : TilingConfiguration) :
  get_candiate_configs self = Ok cands -> In c cands ->
  tile_enumerated self (tile_of c).
Proof.
  intros Hrun Hin.
  destruct (get_candiate_configs_member self cands c Hrun Hin)
    as (tiles0 & tiles & params & Htiles0 & Hperm & Hparams & Hc).
  apply enumerate_params_elements in Hparams.
  rewrite Forall_forall in Hparams.
  destruct (Hparams c Hc) as (Htile & _).
  apply enumerate_tiles_elements in Htiles0.
  rewrite Forall_forall in Htiles0. apply Htiles0.
  eapply Permutation_in; [exact Hperm | exact Htile].
Qed.

End ShortlistContents.

Section ShortlistPrefix.

Context {Program : Type}.
Implicit Type self : AutoTiler Program.

(** X12: asking for fewer candidates gives a prefix of what asking for
    more gives: for 0 <= n1 <= n2 the shortlist of length n1 is the
    first n1 entries of the shortlist of length n2. *)
Theorem get_candiate_configs_prefix self (n1 n2 : Z)
    (l1 l2 : list TilingConfiguration) :
  0 <= n1 <= n2 ->
  get_candiate_configs (with_num_candidate_knls self n1) = Ok l1 ->
  get_candiate_configs (with_num_candidate_knls self n2) = Ok l2 ->
  l1 = firstn (Z.to_nat n1) l2.
Proof.
  intros Hn H1 H2. unfold get_candiate_configs in H1, H2.
  change (enumerate_tiles (with_num_candidate_knls self n2))
    with (enumerate_tiles (with_num_candidate_knls self n1)) in H2.
  change (get_local_barriers (with_num_candidate_knls self n2))
    with (get_local_barriers (with_num_candidate_knls self n1)) in H2.
  change (enumerate_params (with_num_candidate_knls self n2))
    with (enumerate_params (with_num_candidate_knls self n1)) in H2.
  change (estimated_exec_time (with_num_candidate_knls self n2))
    with (estimated_exec_time (with_num_candidate_knls self n1)) in H2.
  inv_bind H1. inv_bind H1. inv_bind H1. inv_bind H1.
  rewrite Hv in H2. cbn [Py.bind] in H2.
  rewrite Hv0 in H2. cbn [Py.bind] in H2.
  rewrite Hv1 in H2. cbn [Py.bind] in H2.
  rewrite Hv2 in H2. cbn [Py.bind] in H2.
  inversion H1; inversion H2; subst l1 l2.
  cbn [num_candidate_knls with_num_candidate_knls].
  unfold slice_to.
  destruct (Z.ltb_spec n1 0); [lia|]. destruct (Z.ltb_spec n2 0); [lia|].
  rewrite firstn_firstn. f_equal. lia.
Qed.

End ShortlistPrefix.

Lemma get_candiate_configs_cells_from_table_witness :
  exists cands c,
    get_candiate_configs tiler_3_6 = Ok cands /\ In c cands /\
    exists opts,
      In (nthreads_per_cell c, opts) threads_to_cells /\
      In (ncells_per_block c) opts /\ ncells_per_block c <> 10000.
Proof.
  destruct (get_candiate_configs tiler_3_6) as [cands|e] eqn:Hrun;
    [|vm_compute in Hrun; discriminate].
  destruct cands as [|c cands]; [vm_compute in Hrun; discriminate|].
  exists (c :: cands), c. split; [reflexivity|]. split; [now left|].
  apply (get_candiate_configs_cells_from_table tiler_3_6 (c :: cands) c Hrun).
  now left.
Defined.

Lemma get_candiate_configs_viable_witness :
  exists cands c,
    get_candiate_configs tiler_3_6 = Ok cands /\ In c cands /\
    exists t, estimated_exec_time tiler_3_6 c = Ok (Fin t).
Proof.
  destruct (get_candiate_configs tiler_3_6) as [cands|e] eqn:Hrun;
    [|vm_compute in Hrun; discriminate].
  destruct cands as [|c cands]; [vm_compute in Hrun; discriminate|].
  exists (c :: cands), c. split; [reflexivity|]. split; [now left|].
  apply (get_candiate_configs_viable tiler_3_6 (c :: cands) c Hrun).
  now left.
Defined.

Lemma get_candiate_configs_tiles_witness :
  exists cands c,
    get_candiate_configs tiler_3_6 = Ok cands /\ In c cands /\
    tile_enumerated tiler_3_6 (tile_of c).
Proof.
  destruct (get_candiate_configs tiler_3_6) as [cands|e] eqn:Hrun;
    [|vm_compute in Hrun; discriminate].
  destruct cands as [|c cands]; [vm_compute in Hrun; discriminate|].
  exists (c :: cands), c. split; [reflexivity|]. split; [now left|].
  apply (get_candiate_configs_tiles tiler_3_6 (c :: cands) c Hrun).
  now left.
Defined.

Lemma get_candiate_configs_prefix_witness :
  exists l1 l2,
    get_candiate_configs (with_num_candidate_knls tiler_3_6 2) = Ok l1 /\
    get_candiate_configs (with_num_candidate_knls tiler_3_6 4) = Ok l2 /\
    l1 = firstn 2 l2.
Proof.
  destruct (get_candiate_configs (with_num_candidate_knls tiler_3_6 2))
    as [l1|e] eqn:H1; [|vm_compute in H1; discriminate].
  destruct (get_candiate_configs (with_num_candidate_knls tiler_3_6 4))
    as [l2|e] eqn:H2; [|vm_compute in H2; discriminate].
  exists l1, l2. split; [reflexivity|]. split; [reflexivity|].
  apply (get_candiate_configs_prefix tiler_3_6 2 4 l1 l2); auto. lia.
Defined.

(** ** tiled_transform: the constants and the first failure *)





Section ConstantsFacts.

Context {loopy : Loopy}.


End ConstantsFacts.


(** ** The tuning loop: outcome, rounds, memo and short argument tuples *)

Lemma launches_app {F : Type} (a b : list (Event F)) :
  launches (a ++ b) = launches a ++ launches b.
Proof. unfold launches. apply flat_map_app. Qed.

Lemma launches_quiet {F : Type} (new : list (Event F)) :
  Forall (fun e => launch_args e = None) new -> launches new = [].
Proof.
  induction 1 as [|e new He _ IH]; [reflexivity|].
  unfold launches in *. simpl. rewrite He, IH. reflexivity.
Qed.

Lemma Qeq_bool_refl' (x : Q) : Qeq_bool x x = true.
Proof. apply Qeq_eq_bool. reflexivity. Qed.

Lemma tuple_eqb_refl (a : list Q) : tuple_eqb a a = true.
Proof.
  unfold tuple_eqb. rewrite Nat.eqb_refl. simpl.
  induction a as [|x a IH]; simpl; [reflexivity|].
  now rewrite Qeq_bool_refl', IH.
Qed.

Section TuningOutcome.

Context {loopy : Loopy} {cuda : Cuda}.
Implicit Type self : AutoTiler (Program LoopKernel CallablesTable).




Section AnyTransform.

Variable transform :
  LoopKernel -> CallablesTable -> TilingConfiguration ->
  result (LoopKernel * list (list Q)).



End AnyTransform.

(** X16: [AutoTiler.__call__] never returns a kernel: whatever the
    program, the arguments and the device, it ends in an exception, and
    it has launched nothing by then. *)
Theorem AutoTiler_call_raises
    (infer : LoopKernel -> result (LoopKernel * KernelMetadata))
    self (args : list LaunchArg) (argshapes : list (list Z)) (d : Device) :
  exists e d',
    AutoTiler__call__ infer self args argshapes d = (Raise e, d') /\
    launches (trace d') = launches (trace d).
Proof.
  unfold AutoTiler__call__, tune_with. unfold bindM at 1.
  destruct (copy_written_args self args argshapes d) as [rc d1] eqn:Hcopy.
  assert (Hquiet : launches (trace d1) = launches (trace d)).
  { assert (Hem : emits (fun e => launch_args e = None)
                        (copy_written_args self args argshapes)).
    { unfold copy_written_args. apply emits_for_eachM.
      intros entry acc. apply emits_copy_arg. }
    destruct (Hem _ _ _ Hcopy) as [new [T Hnone]].
    rewrite T, launches_app, (launches_quiet new Hnone).
    apply app_nil_r. }
  destruct rc as [copied|e]; [|exists e, d1; auto].
  unfold bindM at 1, liftM at 1.
  destruct (get_candiate_configs self) as [[|c cands]|e];
    [ | | exists e, d1; auto ].
  - exists AssertionError, d1. auto.
  - cbn [for_eachM]. unfold try_candidate at 1.
    destruct (tiled_transform_in_raises infer module_globals
                (root_kernel (fem_program self))
                (callables_table (fem_program self)) c) as [e He].
    unfold tiled_transform. rewrite He.
    exists e, d1. auto.
Qed.

Lemma measure_loop (f : CudaFunction) (grid block : list Z)
    (a : list LaunchArg) (k n : nat) (runtimes : list Q) (d : Device) :
  for_eachM (seq n k)
    (fun (_ : nat) (runtimes : list Q) =>
       bindM (emit (PreparedCall f grid block a))
         (fun _ =>
            bindM (fun d => (Ok (time_till (trace d)), d))
              (fun t => retM (runtimes ++ [(t / 1000)%Q]))))
    runtimes d
  = (Ok (runtimes
         ++ map (fun i =>
                   (time_till (trace d
                               ++ repeat (PreparedCall f grid block a) i)
                    / 1000)%Q)
                (seq 1 k)),
     {| next_ptr := next_ptr d;
        trace := trace d ++ repeat (PreparedCall f grid block a) k;
        memo := memo d |}).
Proof.
  revert n runtimes d.
  induction k as [|k IH]; intros n runtimes d.
  - destruct d as [p tr m]. cbn [seq for_eachM map repeat next_ptr trace memo].
    unfold retM. now rewrite !app_nil_r.
  - cbn [seq for_eachM]. unfold bindM at 1.
    unfold bindM at 1, emit at 1, bindM at 1, retM at 1.
    cbn [next_ptr trace memo]. rewrite IH.
    cbn [next_ptr trace memo].
    cbn [seq map repeat].
    rewrite <- (seq_shift k 1), map_map.
    rewrite <- !app_assoc. cbn [app].
    do 4 f_equal.
    apply map_ext. intros i. now rewrite <- app_assoc.
Qed.

(** X17: the measurement of one candidate launches the kernel exactly
    fifteen times with the same arguments and returns the mean of the
    last ten timings; the first five do not enter the result. *)
Theorem measure_rounds (f : CudaFunction) (grid block : list Z)
    (a : list LaunchArg) (d : Device) :
  measure f grid block a d
  = (Ok (np_mean
           (map (fun k =>
                   (time_till (trace d
                               ++ repeat (PreparedCall f grid block a) k)
                    / 1000)%Q)
                (seq 6 10))),
     {| next_ptr := next_ptr d;
        trace := trace d ++ repeat (PreparedCall f grid block a) 15;
        memo := memo d |}).
Proof.
  unfold measure. unfold bindM at 1.
  rewrite measure_loop. unfold retM, nrounds, nwarmup.
  rewrite app_nil_l.
  change (seq 1 15) with ([1; 2; 3; 4; 5] ++ seq 6 10)%nat.
  rewrite map_app.
  match goal with
  | |- context [skipn 5 (?l ++ ?r)] =>
      change (skipn 5 (l ++ r)) with r
  end.
  reflexivity.
Qed.

(** X18: [convert_numpy_arrays_to_cuda_mems] is memoised: once an array
    has been converted, converting it again returns the same device
    pointer and asks nothing of the driver. *)
Theorem convert_numpy_arrays_to_cuda_mems_memoised (ary : list Q)
    (d d1 : Device) (r : result DevicePtr) :
  convert_numpy_arrays_to_cuda_mems ary d = (r, d1) ->
  exists p,
    r = Ok p /\
    convert_numpy_arrays_to_cuda_mems ary d1 = (Ok p, d1) /\
    (trace d1 = trace d \/
     trace d1 = trace d ++ [MemAlloc (8 * Z.of_nat (length ary)) p;
                            MemcpyHtoD ary p]).
Proof.
  unfold convert_numpy_arrays_to_cuda_mems.
  destruct (find (fun entry => tuple_eqb (fst entry) ary) (memo d))
    as [[k p]|] eqn:Hfind.
  - intros H. inversion H; subst. exists p. rewrite Hfind. auto.
  - unfold bindM, mem_alloc, memcpy_htod, emit, remember, retM.
    cbn [next_ptr trace memo]. intros H. inversion H; subst; clear H.
    exists (next_ptr d). cbn [memo find fst trace].
    rewrite tuple_eqb_refl. split; [reflexivity|]. split; [reflexivity|].
    right. now rewrite <- app_assoc.
Qed.

End TuningOutcome.


Lemma convert_numpy_arrays_to_cuda_mems_memoised_witness :
  exists p,
    fst (@convert_numpy_arrays_to_cuda_mems null_cuda [1 # 2]%Q demo_device)
    = Ok p /\
    @convert_numpy_arrays_to_cuda_mems null_cuda [1 # 2]%Q
      (snd (@convert_numpy_arrays_to_cuda_mems null_cuda [1 # 2]%Q demo_device))
    = (Ok p,
       snd (@convert_numpy_arrays_to_cuda_mems null_cuda [1 # 2]%Q demo_device)) /\
    (trace (snd (@convert_numpy_arrays_to_cuda_mems null_cuda [1 # 2]%Q
                   demo_device))
     = trace demo_device \/
     trace (snd (@convert_numpy_arrays_to_cuda_mems null_cuda [1 # 2]%Q
                   demo_device))
     = trace demo_device
       ++ [MemAlloc (8 * Z.of_nat (length [1 # 2]%Q)) p;
           MemcpyHtoD [1 # 2]%Q p]).
Proof.
  apply (@convert_numpy_arrays_to_cuda_mems_memoised null_cuda [1 # 2]%Q
           demo_device).
  vm_compute. reflexivity.
Defined.

(** ** The copy of the written arguments: when it returns *)


Section CopyPhase.

Context {loopy : Loopy} {cuda : Cuda}.
Implicit Type self : AutoTiler (Program LoopKernel CallablesTable).




End CopyPhase.

(** ** The stage inference: what the tagging loop can reach *)

Section StageInferenceFacts.

Import StageInference.

Lemma bool_not_in_names (b : bool) (names : list string) :
  atom_in (ABool b) (map AStr names) = false.
Proof. induction names as [|x names IH]; [reflexivity | exact IH]. Qed.

Lemma bools_and_names_disjoint (f : string -> bool)
    (all_inames names : list string) :
  atom_inter (atom_set (map (fun iname => ABool (f iname)) all_inames))
             (map AStr names) = [].
Proof.
  unfold atom_inter.
  induction all_inames as [|x l IH]; [reflexivity|].
  cbn [map atom_set].
  destruct (atom_in (ABool (f x)) (map (fun iname => ABool (f iname)) l));
    [exact IH|].
  cbn [filter]. rewrite bool_not_in_names. exact IH.
Qed.

Lemma tag_stages_after_jacobi (quad_iname : string)
    (all_inames : list string) (l : list Insn) :
  forall acc,
    fold_left (tag_insn quad_iname (doF_inames_in_quad_stage all_inames)) l
              (mkStages true false false false false, acc)
    = (mkStages true false false false false,
       acc ++ map (fun i => with_tag i "quad_init") l).
Proof.
  induction l as [|i l IH]; intros acc.
  - cbn [fold_left map]. now rewrite app_nil_r.
  - cbn [fold_left map]. unfold tag_insn at 2.
    unfold doF_inames_in_quad_stage at 2.
    rewrite bools_and_names_disjoint.
    cbn [nonempty done_with_jacobi_eval done_with_quad_init negb].
    rewrite IH, <- app_assoc. reflexivity.
Qed.

Lemma tag_stages_from (quad_iname : string) (all_inames : list string)
    (l : list Insn) :
  forall acc,
    exists pre post,
      l = pre ++ post /\
      Forall (fun i => name_in quad_iname (within_inames i) = false) pre /\
      match post with
      | [] => True
      | i :: _ => name_in quad_iname (within_inames i) = true
      end /\
      fold_left (tag_insn quad_iname (doF_inames_in_quad_stage all_inames))
                l (no_stage_done, acc)
      = (mkStages (nonempty post) false false false false,
         acc ++ map (fun i => with_tag i "jacobi_eval") pre
             ++ map (fun i => with_tag i "quad_init") post).
Proof.
  induction l as [|i l IH]; intros acc.
  - exists [], []. repeat split; auto.
    cbn [fold_left map nonempty]. now rewrite !app_nil_r.
  - destruct (name_in quad_iname (within_inames i)) eqn:E.
    + exists [], (i :: l). repeat split; auto.
      cbn [fold_left]. unfold tag_insn at 2, no_stage_done.
      cbn [done_with_jacobi_eval negb]. rewrite E.
      unfold doF_inames_in_quad_stage at 2.
      rewrite bools_and_names_disjoint.
      cbn [nonempty done_with_jacobi_eval done_with_quad_init
           done_with_quad_reduction done_with_quad_wrap_up
           done_with_basis_reduction negb].
      rewrite tag_stages_after_jacobi. cbn [map app].
      rewrite <- app_assoc. reflexivity.
    + destruct (IH (acc ++ [with_tag i "jacobi_eval"]))
        as (pre & post & -> & Hpre & Hpost & Hrun).
      exists (i :: pre), post. repeat split; auto.
      cbn [fold_left]. unfold tag_insn at 2, no_stage_done.
      cbn [done_with_jacobi_eval negb]. rewrite E.
      fold no_stage_done. rewrite Hrun. cbn [map app].
      rewrite <- app_assoc. reflexivity.
Qed.

(** X20: the tagging loop of the stage inference never leaves the
    quad_init stage.  The instructions before the first one nested in
    the quadrature iname are tagged jacobi_eval and all the others
    quad_init, so [done_with_basis_reduction] is never set and the
    assertion after the loop (line 224) fails, whatever the kernel. *)
Theorem tagged_instructions_raises (all_inames : list string)
    (quad_iname : string) (instructions : list Insn) :
  (exists pre post,
     instructions = pre ++ post /\
     Forall (fun i => name_in quad_iname (within_inames i) = false) pre /\
     match post with
     | [] => True
     | i :: _ => name_in quad_iname (within_inames i) = true
     end /\
     tag_stages quad_iname (doF_inames_in_quad_stage all_inames)
                instructions
     = (mkStages (nonempty post) false false false false,
        map (fun i => with_tag i "jacobi_eval") pre
        ++ map (fun i => with_tag i "quad_init") post)) /\
  tagged_instructions all_inames quad_iname instructions
  = Raise AssertionError.
Proof.
  destruct (tag_stages_from quad_iname all_inames instructions [])
    as (pre & post & Hsplit & Hpre & Hpost & Hrun).
  split.
  - exists pre, post. repeat split; auto.
  - unfold tagged_instructions, tag_stages. rewrite Hrun. reflexivity.
Qed.

End StageInferenceFacts.

(** ** KernelMetadata: what the constructor accepts *)

Section KernelMetadataFacts.

Import StageInference.

Lemma getitem_In (kwargs : list (string * pyvalue)) (key : string)
    (v : pyvalue) :
  getitem kwargs key = Ok v -> In key (map fst kwargs).
Proof.
  induction kwargs as [|[k x] rest IH]; cbn [getitem map fst]; [discriminate|].
  destruct (String.eqb k key) eqn:E.
  - apply String.eqb_eq in E. intros _. now left.
  - intros H. right. auto.
Qed.

Lemma assert_isinstance_Ok (kwargs : list (string * pyvalue))
    (key : string) (t : pytype) (u : unit) :
  assert_isinstance kwargs key t = Ok u <->
  exists v, getitem kwargs key = Ok v /\ isinstance v t = true.
Proof.
  unfold assert_isinstance, assert_. split.
  - destruct (getitem kwargs key) as [v|e]; cbn [Py.bind]; [|discriminate].
    destruct (isinstance v t) eqn:E; [eauto | discriminate].
  - intros (v & -> & E). cbn [Py.bind]. rewrite E. now destruct u.
Qed.

(** X21: [KernelMetadata.__init__] returns exactly when the keywords
    are the thirteen names it asks for, each bound to a value of the
    asserted type ([str], [list], or [int], which also admits a
    [bool]); it then keeps the keyword arguments unchanged. *)
Theorem KernelMetadata_init_accepts (kwargs r : list (string * pyvalue)) :
  KernelMetadata__init__ kwargs = Ok r <->
  r = kwargs /\
  Permutation (map fst KernelMetadata_fields) (map fst kwargs) /\
  Forall (fun field =>
            exists v, getitem kwargs (fst field) = Ok v /\
                      isinstance v (snd field) = true)
         KernelMetadata_fields.
Proof.
  unfold KernelMetadata__init__. split.
  - intros H.
    repeat match type of H with
           | Py.bind (assert_isinstance _ _ _) _ = Ok _ =>
               let u := fresh "u" in
               let Hu := fresh "Hu" in
               apply bind_Ok in H; destruct H as (u & Hu & H);
               apply assert_isinstance_Ok in Hu
           end.
    apply bind_Ok in H. destruct H as (? & Hlen & H).
    unfold assert_ in Hlen.
    destruct (length kwargs =? 13)%nat eqn:E; [|discriminate].
    apply Nat.eqb_eq in E. inversion H; subst r.
    assert (Hfields :
              Forall (fun field =>
                        exists v, getitem kwargs (fst field) = Ok v /\
                                  isinstance v (snd field) = true)
                     KernelMetadata_fields).
    { unfold KernelMetadata_fields. repeat constructor; assumption. }
    split; [reflexivity|]. split; [|exact Hfields].
    apply NoDup_Permutation_bis.
    + unfold KernelMetadata_fields. cbn [map fst].
      repeat (constructor;
              [cbn [In]; intros Hin;
               repeat (destruct Hin as [Hin|Hin]; [discriminate|]);
               exact Hin|]).
      constructor.
    + rewrite !length_map, E. reflexivity.
    + intros key Hin. apply in_map_iff in Hin.
      destruct Hin as (field & <- & Hin).
      rewrite Forall_forall in Hfields.
      destruct (Hfields field Hin) as (v & Hv & _).
      exact (getitem_In _ _ _ Hv).
  - intros (-> & Hperm & Hfields).
    apply Permutation_length in Hperm. rewrite !length_map in Hperm.
    unfold KernelMetadata_fields in Hfields.
    repeat match type of Hfields with
           | Forall _ (_ :: _) =>
               let H1 := fresh "H" in
               apply Forall_cons_iff in Hfields;
               destruct Hfields as [H1 Hfields];
               apply (assert_isinstance_Ok _ _ _ tt) in H1;
               cbn [fst snd] in H1; rewrite H1; cbn [Py.bind]
           end.
    rewrite <- Hperm. reflexivity.
Qed.

(** X22: the keyword arguments that the stage inference passes are
    rejected with AssertionError, whatever it has computed, because
    [doF_inames_in_quad_stage] is the set of line 171 where the
    constructor asserts a list; with a list under that keyword the same
    arguments are accepted. *)
Theorem inferred_metadata_rejected (quad_iname : string)
    (inputDoFs : list string) (coords outputDoF : string)
    (doF_inames_in_quad_stage : list atom)
    (outputDoF_init_iname scatter_iname doF_iname_in_basis_stage : string)
    (nquad : Z) (n_inputDoFs : list Z) (n_outputDoF : Z) :
  let kwargs :=
    metadata_kwargs quad_iname inputDoFs coords outputDoF
      doF_inames_in_quad_stage outputDoF_init_iname scatter_iname
      doF_iname_in_basis_stage nquad n_inputDoFs n_outputDoF in
  KernelMetadata__init__ kwargs = Raise AssertionError /\
  forall l,
    KernelMetadata__init__
      (setitem kwargs "doF_inames_in_quad_stage" (VList l))
    = Ok (setitem kwargs "doF_inames_in_quad_stage" (VList l)).
Proof.
  split; [reflexivity|]. intros l. reflexivity.
Qed.

End KernelMetadataFacts.

(** ** AutoTiler: what the cached counts count *)

Lemma name_in_In (x : string) (l : list string) :
  name_in x l = true <-> In x l.
Proof.
  unfold name_in. rewrite existsb_exists. split.
  - intros (y & Hy & E). apply String.eqb_eq in E. now subst.
  - intros H. exists x. split; [exact H | apply String.eqb_refl].
Qed.

Lemma set_of_In (x : string) (l : list string) : In x (set_of l) <-> In x l.
Proof. unfold set_of. apply nodup_In. Qed.

Lemma set_of_NoDup (l : list string) : NoDup (set_of l).
Proof. unfold set_of. apply NoDup_nodup. Qed.

Lemma set_inter_In (x : string) (a b : list string) :
  In x (set_inter a b) <-> In x a /\ In x b.
Proof. unfold set_inter. now rewrite filter_In, name_in_In. Qed.

Lemma set_inter_NoDup (a b : list string) :
  NoDup a -> NoDup (set_inter a b).
Proof. unfold set_inter. apply NoDup_filter. Qed.

Section CountsFacts.

Context {loopy : Loopy}.

Lemma names_read_under_In (tag : string) (kernel : LoopKernel)
    (x : string) :
  In x (names_read_under tag kernel) <-> read_under tag kernel x.
Proof.
  unfold names_read_under, set_union_all, read_under.
  rewrite set_of_In, in_concat. split.
  - intros (l & Hl & Hx). apply in_map_iff in Hl.
    destruct Hl as (insn & <- & Hin). apply filter_In in Hin.
    destruct Hin as [Hin Htag]. eauto.
  - intros (insn & Hin & Htag & Hx).
    exists (read_dependency_names insn). split; [|exact Hx].
    apply in_map. apply filter_In. auto.
Qed.

Lemma names_written_under_In (tag : string) (kernel : LoopKernel)
    (x : string) :
  In x (names_written_under tag kernel) <-> written_under tag kernel x.
Proof.
  unfold names_written_under, set_union_all, written_under.
  rewrite set_of_In, in_concat. split.
  - intros (l & Hl & Hx). apply in_map_iff in Hl.
    destruct Hl as (insn & <- & Hin). apply filter_In in Hin.
    destruct Hin as [Hin Htag]. eauto.
  - intros (insn & Hin & Htag & Hx).
    exists (write_dependency_names insn). split; [|exact Hx].
    apply in_map. apply filter_In. auto.
Qed.

(** X23: [num_func_eval_vars] is the number of distinct names that some
    instruction tagged quadrature writes and some instruction tagged
    basis reads; without an instruction of either tag it is 0. *)
Theorem num_func_eval_vars_counts
    (fem_program : Program LoopKernel CallablesTable) :
  exists evaluation_variables,
    NoDup evaluation_variables /\
    (forall x,
       In x evaluation_variables <->
       (exists insn, In insn (instructions (root_kernel fem_program)) /\
                     has_tag "quadrature" insn = true /\
                     In x (write_dependency_names insn)) /\
       (exists insn, In insn (instructions (root_kernel fem_program)) /\
                     has_tag "basis" insn = true /\
                     In x (read_dependency_names insn))) /\
    CachedProperties.num_func_eval_vars fem_program
    = Z.of_nat (length evaluation_variables).
Proof.
  eexists. split; [|split; [|reflexivity]].
  - apply set_inter_NoDup. unfold names_written_under, set_union_all.
    apply set_of_NoDup.
  - intros x.
    rewrite set_inter_In, names_written_under_In, names_read_under_In.
    reflexivity.
Qed.

Variable initializer_shape : TemporaryVariable -> list Z.

Lemma collect_const_matrices_split (cm : list string)
    (l : list Instruction) :
  forall q b,
    fold_left (CachedProperties.collect_const_matrices cm) l (q, b)
    = (CachedProperties.collected "quadrature" cm l q,
       CachedProperties.collected "basis" cm l b).
Proof.
  unfold CachedProperties.collected.
  induction l as [|insn l IH]; intros q b; [reflexivity|].
  cbn [fold_left].
  unfold CachedProperties.collect_const_matrices at 2. apply IH.
Qed.

Lemma collected_In (tag : string) (cm : list string)
    (l : list Instruction) (x : string) :
  forall acc,
    In x (CachedProperties.collected tag cm l acc) <->
    In x acc \/
    (In x cm /\ exists insn, In insn l /\ has_tag tag insn = true /\
                             In x (read_dependency_names insn)).
Proof.
  unfold CachedProperties.collected.
  induction l as [|insn l IH]; intros acc; cbn [fold_left].
  - split; [auto|]. intros [H|(_ & insn & [] & _)]. exact H.
  - rewrite IH.
    destruct (has_tag tag insn) eqn:E.
    + rewrite set_of_In, in_app_iff, set_inter_In. split.
      * intros [[H|[H1 H2]]|(Hc & i & Hi & Ht & Hx)]; auto.
        -- right. split; [exact H2|]. exists insn. cbn [In]. auto.
        -- right. split; [exact Hc|]. exists i. cbn [In]. auto.
      * intros [H|(Hc & i & [<-|Hi] & Ht & Hx)]; auto.
        right. split; [exact Hc|]. exists i. auto.
    + split.
      * intros [H|(Hc & i & Hi & Ht & Hx)]; auto.
        right. split; [exact Hc|]. exists i. cbn [In]. auto.
      * intros [H|(Hc & i & [<-|Hi] & Ht & Hx)]; auto.
        -- congruence.
        -- right. split; [exact Hc|]. exists i. auto.
Qed.

Lemma collected_NoDup (tag : string) (cm : list string)
    (l : list Instruction) :
  forall acc, NoDup acc -> NoDup (CachedProperties.collected tag cm l acc).
Proof.
  unfold CachedProperties.collected.
  induction l as [|insn l IH]; intros acc Hacc; cbn [fold_left];
    [exact Hacc|].
  apply IH. destruct (has_tag tag insn); [apply set_of_NoDup | exact Hacc].
Qed.

(** X24: [num_const_matrices] is the larger of two counts: the distinct
    temporaries with a two-dimensional initializer that some
    instruction tagged quadrature reads, and those that some
    instruction tagged basis reads.  It lies between 0 and the number
    of temporaries with a two-dimensional initializer. *)
Theorem num_const_matrices_counts
    (fem_program : Program LoopKernel CallablesTable) :
  let kernel := root_kernel fem_program in
  let const_matrices :=
    CachedProperties.const_matrices initializer_shape kernel in
  exists in_quad in_basis,
    NoDup in_quad /\ NoDup in_basis /\
    (forall x,
       In x in_quad <->
       In x const_matrices /\
       exists insn, In insn (instructions kernel) /\
                    has_tag "quadrature" insn = true /\
                    In x (read_dependency_names insn)) /\
    (forall x,
       In x in_basis <->
       In x const_matrices /\
       exists insn, In insn (instructions kernel) /\
                    has_tag "basis" insn = true /\
                    In x (read_dependency_names insn)) /\
    CachedProperties.num_const_matrices initializer_shape fem_program
    = Z.max (Z.of_nat (length in_quad)) (Z.of_nat (length in_basis)) /\
    0 <= CachedProperties.num_const_matrices initializer_shape fem_program
      <= Z.of_nat (length const_matrices).
Proof.
  intros kernel cm.
  set (in_quad :=
         CachedProperties.collected "quadrature" cm (instructions kernel) []).
  set (in_basis :=
         CachedProperties.collected "basis" cm (instructions kernel) []).
  exists in_quad, in_basis.
  assert (Hq : forall x,
             In x in_quad <->
             In x cm /\
             exists insn, In insn (instructions kernel) /\
                          has_tag "quadrature" insn = true /\
                          In x (read_dependency_names insn)).
  { intros x. unfold in_quad. rewrite collected_In. cbn [In]. tauto. }
  assert (Hb : forall x,
             In x in_basis <->
             In x cm /\
             exists insn, In insn (instructions kernel) /\
                          has_tag "basis" insn = true /\
                          In x (read_dependency_names insn)).
  { intros x. unfold in_basis. rewrite collected_In. cbn [In]. tauto. }
  assert (Nq : NoDup in_quad)
    by (apply collected_NoDup; constructor).
  assert (Nb : NoDup in_basis)
    by (apply collected_NoDup; constructor).
  assert (Hval :
            CachedProperties.num_const_matrices initializer_shape fem_program
            = Z.max (Z.of_nat (length in_quad))
                    (Z.of_nat (length in_basis))).
  { unfold CachedProperties.num_const_matrices. fold kernel. fold cm.
    rewrite collect_const_matrices_split. reflexivity. }
  split; [exact Nq|]. split; [exact Nb|]. split; [exact Hq|].
  split; [exact Hb|]. split; [exact Hval|].
  rewrite Hval. split; [lia|].
  assert (Lq : (length in_quad <= length cm)%nat).
  { apply NoDup_incl_length; [exact Nq|]. intros x Hx. now apply Hq in Hx. }
  assert (Lb : (length in_basis <= length cm)%nat).
  { apply NoDup_incl_length; [exact Nb|]. intros x Hx. now apply Hb in Hx. }
  lia.
Qed.

End CountsFacts.

(** ** tiled_transform: the temporaries made LOCAL *)

Lemma set_local_other (name : string) (temps : list TemporaryVariable) :
  ~ In name (map tv_name temps) ->
  map (fun tv => if String.eqb (tv_name tv) name
                 then copy_address_space_LOCAL tv else tv) temps = temps.
Proof.
  induction temps as [|tv rest IH]; cbn [map In]; intros H; [reflexivity|].
  destruct (String.eqb (tv_name tv) name) eqn:E.
  - apply String.eqb_eq in E. tauto.
  - rewrite IH; [reflexivity | tauto].
Qed.

Lemma set_local_found (name : string) (temps : list TemporaryVariable) :
  NoDup (map tv_name temps) -> In name (map tv_name temps) ->
  set_local name temps
  = Ok (map (fun tv => if String.eqb (tv_name tv) name
                       then copy_address_space_LOCAL tv else tv) temps).
Proof.
  induction temps as [|tv rest IH]; cbn [map In set_local]; intros Hnd Hin;
    [contradiction|].
  inversion Hnd as [|? ? Hfresh Hrest]; subst.
  destruct (String.eqb (tv_name tv) name) eqn:E.
  - apply String.eqb_eq in E. subst name.
    rewrite set_local_other by exact Hfresh. reflexivity.
  - destruct Hin as [Hin|Hin]; [apply String.eqb_neq in E; tauto|].
    rewrite (IH Hrest Hin). reflexivity.
Qed.

Lemma set_local_missing (name : string) (temps : list TemporaryVariable) :
  ~ In name (map tv_name temps) -> set_local name temps = Raise KeyError.
Proof.
  induction temps as [|tv rest IH]; cbn [map In set_local]; intros H;
    [reflexivity|].
  destruct (String.eqb (tv_name tv) name) eqn:E.
  - apply String.eqb_eq in E. tauto.
  - rewrite IH; [reflexivity | tauto].
Qed.

Lemma made_local_names (f : TemporaryVariable -> bool)
    (temps : list TemporaryVariable) :
  map tv_name (map (fun tv => if f tv then copy_address_space_LOCAL tv
                              else tv) temps)
  = map tv_name temps.
Proof.
  rewrite map_map. apply map_ext. intros tv. now destruct (f tv).
Qed.

(** X25: making the evaluation variables LOCAL (lines 295-299) succeeds
    exactly when each of them is the name of a temporary of the kernel,
    and raises KeyError otherwise.  When it succeeds, the temporaries
    keep their order and every field but the address space; the ones
    named among the evaluation variables are LOCAL, the others are as
    before. *)
Theorem make_evaluation_variables_local
    (evaluation_variables : list string)
    (temps : list TemporaryVariable) :
  NoDup (map tv_name temps) ->
  if forallb (fun x => name_in x (map tv_name temps)) evaluation_variables
  then for_each evaluation_variables set_local temps
       = Ok (map (fun tv => if name_in (tv_name tv) evaluation_variables
                            then copy_address_space_LOCAL tv else tv)
                 temps)
  else for_each evaluation_variables set_local temps = Raise KeyError.
Proof.
  revert temps.
  induction evaluation_variables as [|x evs IH]; intros temps Hnd.
  - cbn [forallb for_each name_in existsb]. now rewrite map_id.
  - cbn [forallb for_each].
    destruct (name_in x (map tv_name temps)) eqn:E; cbn [andb].
    + apply name_in_In in E. rewrite (set_local_found x temps Hnd E).
      cbn [Py.bind].
      set (f := fun tv => String.eqb (tv_name tv) x).
      change (map (fun tv => if String.eqb (tv_name tv) x
                             then copy_address_space_LOCAL tv else tv) temps)
        with (map (fun tv => if f tv then copy_address_space_LOCAL tv
                             else tv) temps).
      specialize (IH (map (fun tv => if f tv then copy_address_space_LOCAL tv
                                     else tv) temps)).
      rewrite made_local_names in IH. specialize (IH Hnd).
      destruct (forallb (fun x0 => name_in x0 (map tv_name temps)) evs);
        [|exact IH].
      rewrite IH, map_map. f_equal. apply map_ext. intros tv.
      unfold f, name_in. cbn [existsb].
      destruct (String.eqb (tv_name tv) x); cbn [orb]; [|reflexivity].
      unfold copy_address_space_LOCAL.
      cbn [tv_name tv_dtype tv_shape tv_layout tv_read_only tv_initializer].
      now destruct (existsb (String.eqb (tv_name tv)) evs).
    + rewrite set_local_missing; [reflexivity|].
      intros Hin. apply name_in_In in Hin. congruence.
Qed.

Lemma make_evaluation_variables_local_witness :
  for_each ["form_w"] set_local [weights_temporary]
  = Ok [copy_address_space_LOCAL weights_temporary].
Proof.
  apply (make_evaluation_variables_local ["form_w"] [weights_temporary]).
  repeat constructor. cbn [In]. tauto.
Defined.

(** ** The launch dimensions *)

Lemma Forall2_nth_error {A B : Type} (R : A -> B -> Prop)
    (l : list A) (l' : list B) :
  Forall2 R l l' ->
  forall i x, nth_error l i = Some x ->
              exists y, nth_error l' i = Some y /\ R x y.
Proof.
  induction 1 as [|a b l l' Hab _ IH]; intros [|i] x Hx;
    cbn [nth_error] in *; try discriminate.
  - inversion Hx; subst. eauto.
  - eauto.
Qed.

Lemma nth_error_seq_0 (n i : nat) :
  (i < n)%nat -> nth_error (seq 0 n) i = Some i.
Proof.
  intros H.
  rewrite (nth_error_nth' (seq 0 n) O) by now rewrite length_seq.
  now rewrite seq_nth.
Qed.

Section LaunchDims.

Context {loopy : Loopy}.

(** X26: the tuple of launch dimensions has exactly the [n] entries
    asked for (two for the grid, three for the block): the bounds that
    the kernel reports beyond the first [n] are dropped, each one kept
    is evaluated at the launch range [args[0]], [args[1]], and the
    entries the kernel reports no bound for are 1. *)
Theorem launch_dims_entries (lens : list Expr) (n : nat)
    (args : list LaunchArg) (dims : list Z) :
  launch_dims lens n args = Ok dims ->
  length dims = n /\
  (forall i, (i < n)%nat -> (length lens <= i)%nat ->
             nth_error dims i = Some 1) /\
  (forall i e, (i < n)%nat -> nth_error lens i = Some e ->
     exists start stop v,
       index args 0 = Ok start /\ index args 1 = Ok stop /\
       evaluate e start stop = Ok v /\ nth_error dims i = Some v).
Proof.
  unfold launch_dims. intros H. apply map_result_Forall2 in H.
  split; [|split].
  - apply Forall2_length in H. now rewrite length_seq in H.
  - intros i Hi Hlen.
    destruct (Forall2_nth_error _ _ _ H i i (nth_error_seq_0 n i Hi))
      as (v & Hv & Hf).
    apply Nat.ltb_ge in Hlen. rewrite Hlen in Hf.
    inversion Hf; subst. exact Hv.
  - intros i e Hi He.
    destruct (Forall2_nth_error _ _ _ H i i (nth_error_seq_0 n i Hi))
      as (v & Hv & Hf).
    assert (Hlt : (i <? length lens)%nat = true).
    { apply Nat.ltb_lt. apply nth_error_Some. congruence. }
    rewrite Hlt in Hf. unfold index at 1 in Hf. rewrite He in Hf.
    cbn [Py.bind] in Hf.
    destruct (index args 0) as [start|]; [|discriminate].
    destruct (index args 1) as [stop|]; [|discriminate].
    cbn [Py.bind] in Hf.
    exists start, stop, v. auto.
Qed.

End LaunchDims.

Lemma launch_dims_entries_witness :
  length [7; 1; 1] = 3%nat /\
  (forall i, (i < 3)%nat -> (length [7] <= i)%nat ->
             nth_error [7; 1; 1] i = Some 1) /\
  (forall i e, (i < 3)%nat -> nth_error [7] i = Some e ->
     exists start stop v,
       index demo_args 0 = Ok start /\ index demo_args 1 = Ok stop /\
       @evaluate null_loopy e start stop = Ok v /\
       nth_error [7; 1; 1] i = Some v).
Proof.
  apply (@launch_dims_entries null_loopy [7] 3%nat demo_args [7; 1; 1]).
  reflexivity.
Defined.
